(** * A shallow embedding of the file-manager MCP server

    Source: [src/file-manager-server.py], class [MCPFileServer].

    The development follows the layering of the program:

    - [Py]: the fragment of Python's data model the server manipulates
      (JSON-shaped values, exceptions, [dict.get], truthiness, the string
      methods [lower], [strip], [split], [startswith], slicing);
    - [PosixPath]: [os.path.expanduser], [os.path.join], [os.path.normpath]
      and [os.path.abspath] as [posixpath] defines them on strings;
    - [Server]: the safety gate, the nine tool handlers, the dispatcher and
      the request loop, written as programs whose only effects are calls to
      the operating system ([call]) and exceptions ([exc]);
    - [DiskModel]: a finite-map model of a disk giving the calls a meaning,
      used for the claims that speak about what ends up on disk;
    - [Fixture]: stand-ins for the environment and the libraries and a
      sample disk, on which the theorems are instantiated;
    - [Claims]: the predicates the theorems are stated with.

    The theorems follow, by component: [Gate], [Handlers], [Dispatch],
    [Failures], [Results], [Search], [DiskFacts], and their instances on
    the fixture in [OnFixture].

    Further properties of the same code, and of the URL scraper of
    [src/url_scraper_mcp_fixed.py], come after those.  Their vocabulary is in
    [Protocol], [Sizes], [Matching] and [Changes]; [TextIO] extends the disk
    with text files, and [Scraper] embeds [_clean_text] and [scrape_url].
    The theorems are in [ProtocolFacts], [SizeFacts], [PermissionFacts],
    [GateReach], [MatchingFacts], [ListingFacts], [DiskMore], [TextFacts]
    and [ScraperFacts], with their instances in [MoreOnFixture].

    Python strings are modelled by [string], whose characters are the code
    points below 256.  Floating point numbers are carried around as decimal
    pairs and are never computed with. *)

From Stdlib Require Import ZArith String Ascii List Bool Lia.
From stdpp Require Import base option list gmap strings pretty fin_maps.

#[local] Set Warnings "-register-all".
Local Open Scope Z_scope.
Local Open Scope string_scope.

(* ===================================================================== *)
(** * Python values, exceptions and builtins *)
(* ===================================================================== *)

Module Py.

(** A float is kept as the decimal [fl_mant * 10 ^ fl_exp]. *)
Record pyfloat := PyFloat { fl_mant : Z; fl_exp : Z }.

(** What [json.loads] can produce, and what [json.dumps] consumes.  A dict
    is an association list in insertion order, as Python dicts are. *)
Inductive value : Type :=
| VNone
| VBool (b : bool)
| VInt (z : Z)
| VFloat (f : pyfloat)
| VStr (s : string)
| VList (l : list value)
| VDict (d : list (string * value)).

(** The exception classes that occur in the program or can be raised by
    what it calls.  All of them derive from [Exception]. *)
Inductive exn_class : Type :=
| JSONDecodeError
| TypeError
| AttributeError
| ValueError
| KeyError
| LookupError
| UnicodeError
| RecursionError
| OSError
| FileNotFoundError
| FileExistsError
| NotADirectoryError
| IsADirectoryError
| PermissionError
| ShutilError.

(** An exception instance: its class and the text of [str(e)]. *)
Record exn := Exn { exn_class_of : exn_class; exn_str : string }.

(** The outcome of evaluating an expression: a value or a raised exception. *)
Inductive exc (A : Type) : Type :=
| Ok (a : A)
| Raise (e : exn).
Arguments Ok {A} a.
Arguments Raise {A} e.

Definition exc_bind {A B} (r : exc A) (f : A -> exc B) : exc B :=
  match r with
  | Ok a => f a
  | Raise e => Raise e
  end.

Definition is_JSONDecodeError (e : exn) : bool :=
  match exn_class_of e with
  | JSONDecodeError => true
  | _ => false
  end.

(** [type(v).__name__] *)
Definition type_name (v : value) : string :=
  match v with
  | VNone => "NoneType"
  | VBool _ => "bool"
  | VInt _ => "int"
  | VFloat _ => "float"
  | VStr _ => "str"
  | VList _ => "list"
  | VDict _ => "dict"
  end.

(** Truth value testing, as in [if x:]. *)
Definition truthy (v : value) : bool :=
  match v with
  | VNone => false
  | VBool b => b
  | VInt z => negb (z =? 0)%Z
  | VFloat f => negb (fl_mant f =? 0)%Z
  | VStr s => negb (String.eqb s "")
  | VList l => match l with [] => false | _ => true end
  | VDict d => match d with [] => false | _ => true end
  end.

(** Lookup in a dict with string keys. *)
Fixpoint dict_lookup (k : string) (d : list (string * value)) : option value :=
  match d with
  | [] => None
  | (k', v) :: d' => if String.eqb k k' then Some v else dict_lookup k d'
  end.

Definition no_attribute (v : value) (attr : string) : exn :=
  Exn AttributeError
      ("'" +:+ type_name v +:+ "' object has no attribute '" +:+ attr +:+ "'").

(** [obj.get(k, default)]: only dicts have the method. *)
Definition get (obj : value) (k : string) (default : value) : exc value :=
  match obj with
  | VDict d => Ok (match dict_lookup k d with Some v => v | None => default end)
  | _ => Raise (no_attribute obj "get")
  end.

(** Values that can be used as a dict key. *)
Definition hashable (v : value) : bool :=
  match v with
  | VList _ | VDict _ => false
  | _ => true
  end.

Definition unhashable (v : value) : exn :=
  Exn TypeError ("unhashable type: '" +:+ type_name v +:+ "'").

(** [table.get(key)] for a dict literal with string keys and an arbitrary
    key: unhashable keys raise, non-string keys are never found. *)
Definition table_get {A} (table : list (string * A)) (key : value) : exc (option A) :=
  if hashable key then
    Ok (match key with
        | VStr s => snd <$> List.find (fun kv => String.eqb s (fst kv)) table
        | _ => None
        end)
  else Raise (unhashable key).

(** ** String methods *)

Definition startswith (s pre : string) : bool := String.prefix pre s.

(** [s.startswith((p1, p2, ...))] *)
Definition startswith_any (s : string) (pres : list string) : bool :=
  existsb (startswith s) pres.

Fixpoint endswith_char (s : string) (c : ascii) : bool :=
  match s with
  | EmptyString => false
  | String a EmptyString => Ascii.eqb a c
  | String _ s' => endswith_char s' c
  end.

(** [s.split(c)] for a one-character separator. *)
Fixpoint split (c : ascii) (s : string) : list string :=
  match s with
  | EmptyString => [EmptyString]
  | String a s' =>
      if Ascii.eqb a c then EmptyString :: split c s'
      else match split c s' with
           | h :: t => String a h :: t
           | [] => [String a EmptyString]
           end
  end.

(** [sep.join(parts)] *)
Definition join (sep : string) (parts : list string) : string :=
  String.concat sep parts.

(** [c.lower()] on the code points below 256: A-Z, and the Latin-1 capitals
    other than the multiplication sign. *)
Definition lower_char (c : ascii) : ascii :=
  let n := N_of_ascii c in
  if ((65 <=? n) && (n <=? 90))%N then ascii_of_N (n + 32)
  else if ((192 <=? n) && (n <=? 222) && negb (n =? 215))%N then ascii_of_N (n + 32)
  else c.

Fixpoint lower (s : string) : string :=
  match s with
  | EmptyString => EmptyString
  | String a s' => String (lower_char a) (lower s')
  end.

(** [v.lower()] on an arbitrary value: only [str] has the method. *)
Definition lower_of (v : value) : exc string :=
  match v with
  | VStr s => Ok (lower s)
  | _ => Raise (no_attribute v "lower")
  end.

(** [c.isspace()] on the code points below 256. *)
Definition isspace (c : ascii) : bool :=
  let n := N_of_ascii c in
  (((9 <=? n) && (n <=? 13)) || ((28 <=? n) && (n <=? 32))
   || (n =? 133) || (n =? 160))%N.

Fixpoint lstrip (s : string) : string :=
  match s with
  | EmptyString => EmptyString
  | String a s' => if isspace a then lstrip s' else s
  end.

Fixpoint rstrip (s : string) : string :=
  match s with
  | EmptyString => EmptyString
  | String a s' =>
      match rstrip s' with
      | EmptyString => if isspace a then EmptyString else String a EmptyString
      | r => String a r
      end
  end.

(** [s.strip()] *)
Definition strip (s : string) : string := rstrip (lstrip s).

(** [s.rstrip(c)] for one character. *)
Fixpoint rstrip_char (c : ascii) (s : string) : string :=
  match s with
  | EmptyString => EmptyString
  | String a s' =>
      match rstrip_char c s' with
      | EmptyString => if Ascii.eqb a c then EmptyString else String a EmptyString
      | r => String a r
      end
  end.

(** [s[:n]] for [n >= 0] *)
Fixpoint slice_to (n : nat) (s : string) : string :=
  match n, s with
  | O, _ => EmptyString
  | S _, EmptyString => EmptyString
  | S n', String a s' => String a (slice_to n' s')
  end.

(** [s[n:]] for [n >= 0] *)
Fixpoint slice_from (n : nat) (s : string) : string :=
  match n, s with
  | O, _ => s
  | S _, EmptyString => EmptyString
  | S n', String _ s' => slice_from n' s'
  end.

(** [s[-n:]] for [n > 0] *)
Definition slice_last (n : nat) (s : string) : string :=
  slice_from (String.length s - n) s.

(** [sub in s] *)
Fixpoint contains (s sub : string) : bool :=
  String.prefix sub s
  || match s with
     | EmptyString => false
     | String _ s' => contains s' sub
     end.

(** [c in s] for one character. *)
Fixpoint has_char (c : ascii) (s : string) : bool :=
  match s with
  | EmptyString => false
  | String a s' => Ascii.eqb a c || has_char c s'
  end.

(** [s.find(c, 1)]: position of the first [c] at index at least 1. *)
Fixpoint find_char_from (c : ascii) (i : nat) (s : string) : option nat :=
  match s with
  | EmptyString => None
  | String a s' => if Ascii.eqb a c then Some i else find_char_from c (S i) s'
  end.

(** [str(v)], as an f-string applies it.  The text of floats, lists and
    dicts is that of the builtin [repr], supplied by the caller. *)
Definition str (repr : value -> string) (v : value) : string :=
  match v with
  | VNone => "None"
  | VBool true => "True"
  | VBool false => "False"
  | VInt z => pretty z
  | VStr s => s
  | VFloat _ | VList _ | VDict _ => repr v
  end.

(** The one-character string [chr(10)]. *)
Definition newline : string := String "010"%char EmptyString.

(** [os.fspath(v)] on a JSON value: only [str] is path-like. *)
Definition fspath (v : value) : exc string :=
  match v with
  | VStr s => Ok s
  | _ => Raise (Exn TypeError
                  ("expected str, bytes or os.PathLike object, not " +:+ type_name v))
  end.

(** [oct(n)] *)
Fixpoint oct_digits (fuel : nat) (n : N) (acc : string) : string :=
  match fuel with
  | O => acc
  | S fuel' =>
      let acc' := String (ascii_of_N (48 + n mod 8)) acc in
      if (n / 8 =? 0)%N then acc' else oct_digits fuel' (n / 8)%N acc'
  end.

Definition oct (n : Z) : string :=
  (if (n <? 0)%Z then "-0o" else "0o")
  +:+ oct_digits (S (N.to_nat (N.size (Z.abs_N n)))) (Z.abs_N n) "".

End Py.

Import Py.

(* ===================================================================== *)
(** * The process environment and the library functions *)
(* ===================================================================== *)

(** What the server reads from its process: [$HOME], the password database
    and the working directory.  [pw_dir] is
    [pwd.getpwuid(os.getuid()).pw_dir] and [getpwnam n] is
    [pwd.getpwnam(n).pw_dir]; both raise [KeyError] for an unknown user. *)
Class Environ := {
  env_HOME : option string;
  pw_dir : exc string;
  getpwnam : string -> exc string;
  getcwd : exc string
}.

(** The pure library functions the server calls and that are not part of
    the repository: the [json] codec, [repr], [base64] and [hashlib]. *)
Class Libs := {
  json_loads : string -> exc value;
  json_dumps : option nat -> value -> string;   (* second argument: indent *)
  repr : value -> string;
  b64encode : string -> string;                 (* b64encode(b).decode('ascii') *)
  md5_hexdigest : string -> string
}.

(* ===================================================================== *)
(** * posixpath *)
(* ===================================================================== *)

Module PosixPath.
Section WithEnviron.
Context {E : Environ}.

Definition isabs (path : string) : bool := startswith path "/".

(** [os.path.join(a, b)] on strings: one step of the loop over the
    components. *)
Definition join_step (path b : string) : string :=
  if startswith b "/" then b
  else if String.eqb path "" || endswith_char path "/" then path +:+ b
  else path +:+ "/" +:+ b.

(** [os.path.join(a, *p)]: every argument goes through [os.fspath]. *)
Fixpoint join_from (path : string) (p : list value) : exc string :=
  match p with
  | [] => Ok path
  | b :: p' => exc_bind (fspath b) (fun b => join_from (join_step path b) p')
  end.

Definition join (a : value) (p : list value) : exc string :=
  exc_bind (fspath a) (fun a => join_from a p).

(** One iteration of the loop of [normpath] over the components. *)
Definition norm_step (initial_slashes : nat) (new_comps : list string)
    (comp : string) : list string :=
  if String.eqb comp "" || String.eqb comp "." then new_comps
  else if negb (String.eqb comp "..")
          || (Nat.eqb initial_slashes 0 && match new_comps with [] => true | _ => false end)
          || match last new_comps with
             | Some c => String.eqb c ".."
             | None => false
             end
       then (new_comps ++ [comp])%list
       else removelast new_comps.

Definition normpath (path : string) : string :=
  if String.eqb path "" then "."
  else
    let initial_slashes :=
      if startswith path "/" then
        if startswith path "//" && negb (startswith path "///") then 2%nat else 1%nat
      else 0%nat in
    let comps := fold_left (norm_step initial_slashes) (split "/" path) [] in
    let path := Py.join "/" comps in
    let path := Py.join "" (repeat "/" initial_slashes) +:+ path in
    if String.eqb path "" then "." else path.

Definition abspath (path : string) : exc string :=
  if isabs path then Ok (normpath path)
  else exc_bind getcwd (fun cwd => Ok (normpath (join_step cwd path))).

(** The home directory [expanduser] substitutes, or [None] when the path is
    to be returned unchanged. *)
Definition userhome (path : string) (i : nat) : exc (option string) :=
  let lookup (r : exc string) :=
    match r with
    | Ok d => Ok (Some d)
    | Raise e =>
        match exn_class_of e with
        | KeyError => Ok None
        | _ => Raise e
        end
    end in
  if Nat.eqb i 1 then
    match env_HOME with
    | Some h => Ok (Some h)
    | None => lookup pw_dir
    end
  else lookup (getpwnam (slice_to (i - 1) (slice_from 1 path))).

Definition expanduser (path : string) : exc string :=
  if negb (startswith path "~") then Ok path
  else
    let i := match find_char_from "/" 1 (slice_from 1 path) with
             | Some i => i
             | None => String.length path
             end in
    exc_bind (userhome path i) (fun h =>
      match h with
      | None => Ok path
      | Some h =>
          let r := rstrip_char "/" h +:+ slice_from i path in
          Ok (if String.eqb r "" then "/" else r)
      end).

End WithEnviron.
End PosixPath.

(* ===================================================================== *)
(** * Programs: operating-system calls and exceptions *)
(* ===================================================================== *)

(** [os.stat_result], the fields the server reads. *)
Record stat_result := StatResult {
  st_mode : Z;
  st_size : Z;
  st_uid : Z;
  st_gid : Z;
  st_atime : pyfloat;
  st_mtime : pyfloat;
  st_ctime : pyfloat
}.

(** The calls into the operating system and its database of MIME types,
    each with the type of what it returns. *)
Inductive call : Type -> Type :=
| GuessType (path : string) : call (option string)
    (* mimetypes.guess_type(path)[0] *)
| OpenReadBytes (path : string) : call string
    (* with open(path, 'rb') as f: f.read() *)
| OpenReadText (path : string) (encoding : value) (errors : option string) : call string
    (* with open(path, 'r', encoding=.., errors=..) as f: f.read() *)
| OpenWrite (path : string) (mode : string) (encoding : value) (content : value) : call unit
    (* with open(path, mode, encoding=..) as f: f.write(content) *)
| Glob (pattern : string) (recursive : bool) : call (list string)
| PathExists (path : string) : call bool
| PathIsDir (path : string) : call bool
| PathIsFile (path : string) : call bool
| Stat (path : string) : call stat_result
| PathAbsolute (path : string) : call string
    (* str(Path(path).absolute()) *)
| Mkdir (path : string) (parents : value) (exist_ok : bool) : call unit
    (* Path(path).mkdir(parents=.., exist_ok=..) *)
| Rmtree (path : string) : call unit
| Rmdir (path : string) : call unit
| Remove (path : string) : call unit
| Move (src dst : string) : call unit
| Copytree (src dst : string) : call unit
| Copy2 (src dst : string) : call unit.

(** A program either finishes, with a value or an exception, or makes a
    call and continues with its outcome. *)
Inductive prog (A : Type) : Type :=
| Ret (r : exc A)
| Call {X : Type} (c : call X) (k : exc X -> prog A).
Arguments Ret {A} r.
Arguments Call {A X} c k.

Definition ret {A} (a : A) : prog A := Ret (Ok a).
Definition lift {A} (r : exc A) : prog A := Ret r.
Definition perform {X} (c : call X) : prog X := Call c Ret.

Fixpoint bind {A B} (p : prog A) (f : A -> prog B) : prog B :=
  match p with
  | Ret (Ok a) => f a
  | Ret (Raise e) => Ret (Raise e)
  | Call c k => Call c (fun r => bind (k r) f)
  end.

(** [try: p  except Exception as e: h e] *)
Fixpoint try_except {A} (p : prog A) (h : exn -> prog A) : prog A :=
  match p with
  | Ret (Ok a) => Ret (Ok a)
  | Ret (Raise e) => h e
  | Call c k => Call c (fun r => try_except (k r) h)
  end.

Notation "'let!' x := p 'in' q" := (bind p (fun x => q))
  (at level 10, x name, p at level 100, q at level 200).

(** A world answers the calls and is changed by them. *)
Class World (W : Type) := os_call : forall X, call X -> W -> exc X * W.

Fixpoint exec {W} `{World W} {A} (p : prog A) (w : W) : exc A * W :=
  match p with
  | Ret r => (r, w)
  | Call c k => let '(r, w') := os_call _ c w in exec (k r) w'
  end.

(** Properties of every outcome of a program, whatever the calls answer. *)
Fixpoint always {A} (P : exc A -> Prop) (p : prog A) : Prop :=
  match p with
  | Ret r => P r
  | Call _ k => forall r, always P (k r)
  end.

(** The program finishes without making any call. *)
Definition makes_no_call {A} (p : prog A) : Prop :=
  match p with
  | Ret _ => True
  | Call _ _ => False
  end.

(* ===================================================================== *)
(** * The server *)
(* ===================================================================== *)

Module Server.
Section MCPFileServer.
Context {E : Environ} {L : Libs}.

(** [self.safe_root], set by the constructor and not read anywhere. *)
Definition safe_root : exc string := PosixPath.expanduser "~".

(** ** The safety gate *)

Definition deny_list : list string :=
  ["/etc"; "/sys"; "/proc"; "C:\Windows"; "C:\Program Files"].

(** [os.path.abspath(os.path.expanduser(file_path))] *)
Definition resolve (file_path : value) : exc string :=
  exc_bind (fspath file_path) (fun p =>
  exc_bind (PosixPath.expanduser p) PosixPath.abspath).

Definition is_safe_path (file_path : value) : bool :=
  match resolve file_path with
  | Ok abs_path => negb (startswith_any abs_path deny_list)
  | Raise _ => false
  end.

(** ** Tool results *)

(** [{"content": [{"type": "text", "text": t}]}] *)
Definition text_result (t : string) : value :=
  VDict [("content", VList [VDict [("type", VStr "text"); ("text", VStr t)]])].

Definition restricted : value :=
  text_result "Error: Access to this path is restricted".

Definition fstr (v : value) : string := str repr v.

(** ** The handlers *)

Definition read_file (args : value) : prog value :=
  let! file_path := lift (get args "path" (VStr "")) in
  let! encoding := lift (get args "encoding" (VStr "utf-8")) in
  if negb (is_safe_path file_path) then ret restricted
  else
    try_except
      (let! p := lift (fspath file_path) in
       let! mime_type := perform (GuessType p) in
       if match mime_type with
          | Some m => negb (String.eqb m "")
                      && startswith_any m ["image/"; "audio/"; "video/";
                                           "application/octet-stream"]
          | None => false
          end
       then
         let! raw := perform (OpenReadBytes p) in
         ret (text_result ("Binary file (base64 encoded):" +:+ newline +:+ b64encode raw))
       else
         let! content := perform (OpenReadText p encoding None) in
         ret (text_result content))
      (fun e => ret (text_result ("Error reading file: " +:+ exn_str e))).

Definition write_file (args : value) : prog value :=
  let! file_path := lift (get args "path" (VStr "")) in
  let! content := lift (get args "content" (VStr "")) in
  let! encoding := lift (get args "encoding" (VStr "utf-8")) in
  let! append := lift (get args "append" (VBool false)) in
  if negb (is_safe_path file_path) then ret restricted
  else
    try_except
      (let mode := if truthy append then "a" else "w" in
       let! p := lift (fspath file_path) in
       let! _ := perform (OpenWrite p mode encoding content) in
       let action := if truthy append then "appended to" else "written to" in
       ret (text_result ("Successfully " +:+ action +:+ " file: " +:+ fstr file_path)))
      (fun e => ret (text_result ("Error writing file: " +:+ exn_str e))).

(** The loop of [list_files] over the glob results. *)
Fixpoint list_files_loop (files : list string) (file_list : list value)
    : prog (list value) :=
  match files with
  | [] => ret file_list
  | file_path :: files' =>
      let! ex := perform (PathExists file_path) in
      if ex : bool then
        let! stat := perform (Stat file_path) in
        let! isd := perform (PathIsDir file_path) in
        list_files_loop files'
          (file_list ++ [VDict [("path", VStr file_path);
                                ("type", VStr (if isd : bool then "dir" else "file"));
                                ("size", VInt (st_size stat));
                                ("modified", VFloat (st_mtime stat))]])%list
      else list_files_loop files' file_list
  end.

Definition list_files (args : value) : prog value :=
  let! directory := lift (get args "path" (VStr ".")) in
  let! pattern := lift (get args "pattern" (VStr "*")) in
  let! recursive := lift (get args "recursive" (VBool false)) in
  if negb (is_safe_path directory) then ret restricted
  else
    try_except
      (let! files :=
         if truthy recursive then
           let! search_pattern := lift (PosixPath.join directory [VStr "**"; pattern]) in
           perform (Glob search_pattern true)
         else
           let! search_pattern := lift (PosixPath.join directory [pattern]) in
           perform (Glob search_pattern false) in
       let! file_list := list_files_loop files [] in
       ret (text_result (json_dumps (Some 2%nat) (VList file_list))))
      (fun e => ret (text_result ("Error listing files: " +:+ exn_str e))).

Definition create_directory (args : value) : prog value :=
  let! dir_path := lift (get args "path" (VStr "")) in
  let! parents := lift (get args "parents" (VBool true)) in
  if negb (is_safe_path dir_path) then ret restricted
  else
    try_except
      (let! p := lift (fspath dir_path) in
       let! _ := perform (Mkdir p parents true) in
       ret (text_result ("Successfully created directory: " +:+ fstr dir_path)))
      (fun e => ret (text_result ("Error creating directory: " +:+ exn_str e))).

Definition delete_file (args : value) : prog value :=
  let! file_path := lift (get args "path" (VStr "")) in
  let! recursive := lift (get args "recursive" (VBool false)) in
  if negb (is_safe_path file_path) then ret restricted
  else
    try_except
      (let! p := lift (fspath file_path) in
       let! isd := perform (PathIsDir p) in
       let! _ :=
         if isd : bool then
           if truthy recursive then perform (Rmtree p) else perform (Rmdir p)
         else perform (Remove p) in
       ret (text_result ("Successfully deleted: " +:+ fstr file_path)))
      (fun e => ret (text_result ("Error deleting file: " +:+ exn_str e))).

Definition move_file (args : value) : prog value :=
  let! source := lift (get args "source" (VStr "")) in
  let! destination := lift (get args "destination" (VStr "")) in
  if negb (is_safe_path source) || negb (is_safe_path destination) then ret restricted
  else
    try_except
      (let! s := lift (fspath source) in
       let! d := lift (fspath destination) in
       let! _ := perform (Move s d) in
       ret (text_result ("Successfully moved " +:+ fstr source +:+ " to "
                         +:+ fstr destination)))
      (fun e => ret (text_result ("Error moving file: " +:+ exn_str e))).

Definition copy_file (args : value) : prog value :=
  let! source := lift (get args "source" (VStr "")) in
  let! destination := lift (get args "destination" (VStr "")) in
  let! recursive := lift (get args "recursive" (VBool false)) in
  if negb (is_safe_path source) || negb (is_safe_path destination) then ret restricted
  else
    try_except
      (let! s := lift (fspath source) in
       let! d := lift (fspath destination) in
       let! isd := perform (PathIsDir s) in
       let success :=
         ret (text_result ("Successfully copied " +:+ fstr source +:+ " to "
                           +:+ fstr destination)) in
       if isd : bool then
         if truthy recursive then
           let! _ := perform (Copytree s d) in success
         else ret (text_result "Error: Use recursive=true to copy directories")
       else
         let! _ := perform (Copy2 s d) in success)
      (fun e => ret (text_result ("Error copying file: " +:+ exn_str e))).

(** [f"{x:.2f}"] for the number [num / den] with [den > 0]: the nearest
    number with two decimals, ties to even.  The floats the server formats
    are an integer below [2^53] divided by a power of two, which floating
    point represents exactly. *)
Definition format_2f (num den : Z) : string :=
  let scaled := (Z.abs num * 100)%Z in
  let q := (scaled / den)%Z in
  let r := (scaled mod den)%Z in
  let cents :=
    if (den <? 2 * r)%Z then (q + 1)%Z
    else if (2 * r =? den)%Z then (q + q mod 2)%Z
    else q in
  let frac := (cents mod 100)%Z in
  (if (num <? 0)%Z then "-" else "")
  +:+ pretty (cents / 100)%Z +:+ "."
  +:+ (if (frac <? 10)%Z then "0" else "") +:+ pretty frac.

(** The loop of [_human_readable_size]: [size] is [num / den]. *)
Fixpoint human_readable_loop (units : list string) (num den : Z) : string :=
  match units with
  | [] => format_2f num den +:+ " PB"
  | unit :: units' =>
      if (num <? 1024 * den)%Z then format_2f num den +:+ " " +:+ unit
      else human_readable_loop units' num (den * 1024)%Z
  end.

Definition _human_readable_size (size : Z) : string :=
  human_readable_loop ["B"; "KB"; "MB"; "GB"; "TB"] size 1.

Definition get_file_info (args : value) : prog value :=
  let! file_path := lift (get args "path" (VStr "")) in
  if negb (is_safe_path file_path) then ret restricted
  else
    try_except
      (let! p := lift (fspath file_path) in
       let! ex := perform (PathExists p) in
       if negb ex then ret (text_result ("File not found: " +:+ fstr file_path))
       else
         let! stat := perform (Stat p) in
         let! absolute := perform (PathAbsolute p) in
         let! isd := perform (PathIsDir p) in
         let info :=
           [("path", file_path);
            ("absolute_path", VStr absolute);
            ("type", VStr (if isd : bool then "directory" else "file"));
            ("size", VInt (st_size stat));
            ("size_readable", VStr (_human_readable_size (st_size stat)));
            ("created", VFloat (st_ctime stat));
            ("modified", VFloat (st_mtime stat));
            ("accessed", VFloat (st_atime stat));
            ("permissions", VStr (slice_last 3 (oct (st_mode stat))));
            ("owner", VInt (st_uid stat));
            ("group", VInt (st_gid stat))] in
         let! isf := perform (PathIsFile p) in
         let! info :=
           if isf : bool then
             let! mime_type := perform (GuessType p) in
             let info := (info ++ [("mime_type", match mime_type with
                                                 | Some m => VStr m
                                                 | None => VNone
                                                 end)])%list in
             if (st_size stat <? 100 * 1024 * 1024)%Z then
               let! raw := perform (OpenReadBytes p) in
               ret (info ++ [("md5", VStr (md5_hexdigest raw))])%list
             else ret info
           else ret info in
         ret (text_result (json_dumps (Some 2%nat) (VDict info))))
      (fun e => ret (text_result ("Error getting file info: " +:+ exn_str e))).

(** The loop of [search_files] over the lines of one file:
    [for i, line in enumerate(lines, 1)]. *)
Fixpoint matching_lines_from (pattern_lower : string) (i : Z) (lines : list string)
    (matching_lines : list value) : list value :=
  match lines with
  | [] => matching_lines
  | line :: lines' =>
      matching_lines_from pattern_lower (i + 1) lines'
        (if contains (lower line) pattern_lower
         then (matching_lines
               ++ [VDict [("line_number", VInt i);
                          ("content", VStr (slice_to 100 (strip line)))]])%list
         else matching_lines)
  end.

(** What one readable file adds to [results]. *)
Definition search_content (search_pattern : value) (file_path content : string)
    : exc (list value) :=
  exc_bind (lower_of search_pattern) (fun pattern_lower =>
    if contains (lower content) pattern_lower then
      let lines := split "010" content in
      let matching_lines := matching_lines_from pattern_lower 1 lines [] in
      Ok [VDict [("file", VStr file_path);
                 ("matches", VList (take 5 matching_lines))]]
    else Ok []).

(** The loop of [search_files] over the glob results; the inner [try] skips
    a file on any exception. *)
Fixpoint search_files_loop (search_pattern : value) (files : list string)
    (results : list value) : prog (list value) :=
  match files with
  | [] => ret results
  | file_path :: files' =>
      let! isf := perform (PathIsFile file_path) in
      if isf : bool then
        let! found :=
          try_except
            (let! content :=
               perform (OpenReadText file_path (VStr "utf-8") (Some "ignore")) in
             lift (search_content search_pattern file_path content))
            (fun _ => ret []) in
        search_files_loop search_pattern files' (results ++ found)%list
      else search_files_loop search_pattern files' results
  end.

Definition search_files (args : value) : prog value :=
  let! directory := lift (get args "directory" (VStr ".")) in
  let! search_pattern := lift (get args "pattern" (VStr "")) in
  let! file_pattern := lift (get args "file_pattern" (VStr "*")) in
  if negb (is_safe_path directory) then ret restricted
  else
    try_except
      (let! search_path := lift (PosixPath.join directory [VStr "**"; file_pattern]) in
       let! files := perform (Glob search_path true) in
       let! results := search_files_loop search_pattern files [] in
       ret (text_result (match results with
                         | [] => "No matches found"
                         | _ => json_dumps (Some 2%nat) (VList results)
                         end)))
      (fun e => ret (text_result ("Error searching files: " +:+ exn_str e))).

(** ** The tool registry: [self.tools] *)

(** One entry of a schema's ["properties"]. *)
Definition property (type description : string) (default : option value)
    : value :=
  VDict ([("type", VStr type); ("description", VStr description)]
         ++ match default with
            | Some d => [("default", d)]
            | None => []
            end)%list.

(** One entry of [self.tools]. *)
Definition tool (description : string) (properties : list (string * value))
    (required : option (list string)) : value :=
  VDict [("description", VStr description);
         ("inputSchema",
          VDict ([("type", VStr "object"); ("properties", VDict properties)]
                 ++ match required with
                    | Some r => [("required", VList (VStr <$> r))]
                    | None => []
                    end)%list)].

Definition tools : list (string * value) :=
  [("read_file",
    tool "Read contents of a file"
      [("path", property "string" "Path to the file to read" None);
       ("encoding", property "string" "File encoding" (Some (VStr "utf-8")))]
      (Some ["path"]));
   ("write_file",
    tool "Write content to a file"
      [("path", property "string" "Path to the file to write" None);
       ("content", property "string" "Content to write to the file" None);
       ("encoding", property "string" "File encoding" (Some (VStr "utf-8")));
       ("append", property "boolean" "Append to file instead of overwriting"
                    (Some (VBool false)))]
      (Some ["path"; "content"]));
   ("list_files",
    tool "List files in a directory"
      [("path", property "string" "Directory path" (Some (VStr ".")));
       ("pattern", property "string" "Glob pattern for filtering" (Some (VStr "*")));
       ("recursive", property "boolean" "Search recursively" (Some (VBool false)))]
      None);
   ("create_directory",
    tool "Create a directory"
      [("path", property "string" "Directory path to create" None);
       ("parents", property "boolean" "Create parent directories if needed"
                     (Some (VBool true)))]
      (Some ["path"]));
   ("delete_file",
    tool "Delete a file or directory"
      [("path", property "string" "Path to delete" None);
       ("recursive", property "boolean" "Delete directories recursively"
                       (Some (VBool false)))]
      (Some ["path"]));
   ("move_file",
    tool "Move or rename a file or directory"
      [("source", property "string" "Source path" None);
       ("destination", property "string" "Destination path" None)]
      (Some ["source"; "destination"]));
   ("copy_file",
    tool "Copy a file or directory"
      [("source", property "string" "Source path" None);
       ("destination", property "string" "Destination path" None);
       ("recursive", property "boolean" "Copy directories recursively"
                       (Some (VBool false)))]
      (Some ["source"; "destination"]));
   ("get_file_info",
    tool "Get detailed information about a file"
      [("path", property "string" "File path" None)]
      (Some ["path"]));
   ("search_files",
    tool "Search for files containing specific text"
      [("directory", property "string" "Directory to search in" (Some (VStr ".")));
       ("pattern", property "string" "Text pattern to search for" None);
       ("file_pattern", property "string" "File pattern to search in"
                          (Some (VStr "*")))]
      (Some ["pattern"]))].

(** [d[k]] where the key is known to be there; Python raises [KeyError]
    otherwise. *)
Definition item (d : value) (k : string) : exc value :=
  match d with
  | VDict l =>
      match dict_lookup k l with
      | Some v => Ok v
      | None => Raise (Exn KeyError ("'" +:+ k +:+ "'"))
      end
  | _ => Raise (Exn TypeError ("'" +:+ type_name d +:+ "' object is not subscriptable"))
  end.

(** ** The dispatcher *)

Definition handle_initialize (request : value) : prog value :=
  ret (VDict [("protocolVersion", VStr "2024-11-05");
              ("capabilities", VDict [("tools", VDict []); ("resources", VDict [])]);
              ("serverInfo", VDict [("name", VStr "file-manager");
                                    ("version", VStr "1.0.0")])]).

Fixpoint list_tools_loop (items : list (string * value)) (tools_list : list value)
    : exc (list value) :=
  match items with
  | [] => Ok tools_list
  | (name, tool) :: items' =>
      exc_bind (item tool "description") (fun description =>
      exc_bind (item tool "inputSchema") (fun inputSchema =>
      list_tools_loop items'
        (tools_list ++ [VDict [("name", VStr name);
                               ("description", description);
                               ("inputSchema", inputSchema)]])%list))
  end.

Definition handle_list_tools (request : value) : prog value :=
  let! tools_list := lift (list_tools_loop tools []) in
  ret (VDict [("tools", VList tools_list)]).

Definition tool_handlers : list (string * (value -> prog value)) :=
  [("read_file", read_file);
   ("write_file", write_file);
   ("list_files", list_files);
   ("create_directory", create_directory);
   ("delete_file", delete_file);
   ("move_file", move_file);
   ("copy_file", copy_file);
   ("get_file_info", get_file_info);
   ("search_files", search_files)].

Definition handle_call_tool (request : value) : prog value :=
  let! params := lift (get request "params" (VDict [])) in
  let! tool_name := lift (get params "name" VNone) in
  let! params := lift (get request "params" (VDict [])) in
  let! arguments := lift (get params "arguments" (VDict [])) in
  let! handler := lift (table_get tool_handlers tool_name) in
  match handler with
  | Some handler => handler arguments
  | None =>
      ret (VDict [("error",
                   VDict [("code", VInt (-32601));
                          ("message", VStr ("Unknown tool: " +:+ fstr tool_name))])])
  end.

Definition handlers : list (string * (value -> prog value)) :=
  [("initialize", handle_initialize);
   ("tools/list", handle_list_tools);
   ("tools/call", handle_call_tool)].

(** The three shapes of a response. *)
Definition result_response (id result : value) : value :=
  VDict [("jsonrpc", VStr "2.0"); ("id", id); ("result", result)].

Definition error_response (id : value) (code : Z) (message : string) : value :=
  VDict [("jsonrpc", VStr "2.0"); ("id", id);
         ("error", VDict [("code", VInt code); ("message", VStr message)])].

Definition handle_request (request : value) : prog value :=
  let! method := lift (get request "method" VNone) in
  let! handler := lift (table_get handlers method) in
  match handler with
  | Some handler =>
      try_except
        (let! result := handler request in
         let! id := lift (get request "id" VNone) in
         ret (result_response id result))
        (fun e =>
           let! id := lift (get request "id" VNone) in
           ret (error_response id (-32603) (exn_str e)))
  | None =>
      let! id := lift (get request "id" VNone) in
      ret (error_response id (-32601) ("Method not found: " +:+ fstr method))
  end.

(** ** The request loop *)

(** One iteration of [run] after a line has been read: what it prints. *)
Definition serve_line (line : string) : prog string :=
  try_except
    (let! request := lift (json_loads line) in
     let! response := handle_request request in
     ret (json_dumps None response))
    (fun e =>
       if is_JSONDecodeError e then
         ret (json_dumps None
                (error_response VNone (-32700) ("Parse error: " +:+ exn_str e)))
       else
         ret (json_dumps None
                (error_response VNone (-32603) ("Internal error: " +:+ exn_str e)))).

(** [run]: the argument is what the successive calls of
    [sys.stdin.readline()] return, the result is the lines printed.  The
    empty string is what [readline] returns at the end of the input. *)
Fixpoint run (stdin : list string) : prog (list string) :=
  match stdin with
  | [] => ret []
  | line :: stdin' =>
      if String.eqb line "" then ret []
      else
        let! printed := serve_line line in
        let! rest := run stdin' in
        ret (printed :: rest)
  end.

End MCPFileServer.
End Server.

(* ===================================================================== *)
(** * A model of the disk *)
(* ===================================================================== *)

(** The disk is a finite map from absolute paths, as lists of names, to
    nodes; the root is the empty list.  There are no symbolic links and no
    permission checks.  Path strings are resolved component by component
    against the disk, as the kernel does: every component that is walked
    through must be an existing directory.

    The model gives a meaning to the calls that create, remove, copy and
    inspect nodes.  Reading and writing text, globbing, moving, the MIME
    database and [Path.absolute] are left to a parameter. *)

Module DiskModel.

(** What [os.stat] reports besides the size. *)
Record meta := Meta {
  m_mode : Z;
  m_uid : Z;
  m_gid : Z;
  m_atime : pyfloat;
  m_mtime : pyfloat;
  m_ctime : pyfloat
}.

Inductive node : Type :=
| File (content : string) (m : meta)
| Dir (m : meta).

Abbreviation disk := (gmap (list string) node).

Definition is_dir_node (n : option node) : bool :=
  match n with
  | Some (Dir _) => true
  | _ => false
  end.

Definition is_file_node (n : option node) : bool :=
  match n with
  | Some (File _ _) => true
  | _ => false
  end.

(** [relative_to k k'] is the path of [k'] relative to [k], if [k'] is [k] or
    lies below it. *)
Fixpoint relative_to (k k' : list string) : option (list string) :=
  match k, k' with
  | [], _ => Some k'
  | a :: k, b :: k' => if String.eqb a b then relative_to k k' else None
  | _ :: _, [] => None
  end.

Definition is_under (k k' : list string) : bool :=
  match relative_to k k' with
  | Some _ => true
  | None => false
  end.

Definition is_child (k k' : list string) : bool :=
  match relative_to k k' with
  | Some [_] => true
  | _ => false
  end.

(** The directory [k] has no entry. *)
Definition is_empty_dir (k : list string) (d : disk) : bool :=
  forallb (fun kn => negb (is_child k (fst kn))) (map_to_list d).

(** Every name of [parts], followed from [k], is a directory. *)
Fixpoint all_dirs (d : disk) (k : list string) (parts : list string) : bool :=
  match parts with
  | [] => true
  | p :: parts' => is_dir_node (d !! (k ++ [p])%list) && all_dirs d (k ++ [p])%list parts'
  end.

(** No name of [parts], followed from [k], exists. *)
Fixpoint all_missing (d : disk) (k : list string) (parts : list string) : bool :=
  match parts with
  | [] => true
  | p :: parts' =>
      match d !! (k ++ [p])%list with
      | None => all_missing d (k ++ [p])%list parts'
      | Some _ => false
      end
  end.

(** The names of [parts], followed from [k], are directories up to some
    point and do not exist from there on: no regular file is in the way. *)
Fixpoint dirs_then_missing (d : disk) (k : list string) (parts : list string) : bool :=
  match parts with
  | [] => true
  | p :: parts' =>
      match d !! (k ++ [p])%list with
      | Some (Dir _) => dirs_then_missing d (k ++ [p])%list parts'
      | Some (File _ _) => false
      | None => all_missing d (k ++ [p])%list parts'
      end
  end.

(** A name that a walk steps into: not empty, not [.] or [..], no slash. *)
Definition proper (c : string) : bool :=
  negb (String.eqb c "" || String.eqb c "." || String.eqb c ".." || has_char "/" c).


(** The disk without the nodes selected by [doomed]. *)
Definition without (doomed : list string -> bool) (d : disk) : disk :=
  filter (fun kn => doomed (fst kn) = false) d.

(** The nodes at and below [k], by their path relative to [k]. *)
Definition subtree (k : list string) (d : disk) : disk :=
  list_to_map
    (omap (fun kn => (fun s => (s, snd kn)) <$> relative_to k (fst kn)) (map_to_list d)).

(** [shutil.copystat]: mode bits and the access and modification times are
    taken from the source; the rest is the destination's own. *)
Definition copystat (src dst : meta) : meta :=
  {| m_mode := m_mode src; m_uid := m_uid dst; m_gid := m_gid dst;
     m_atime := m_atime src; m_mtime := m_mtime src; m_ctime := m_ctime dst |}.

Definition copy_node (fresh : meta) (n : node) : node :=
  match n with
  | File content m => File content (copystat m fresh)
  | Dir m => Dir (copystat m fresh)
  end.

Definition errno (c : exn_class) (text path : string) : exn :=
  Exn c (text +:+ ": '" +:+ path +:+ "'").

Definition ENOENT := errno FileNotFoundError "[Errno 2] No such file or directory".
Definition EEXIST := errno FileExistsError "[Errno 17] File exists".
Definition ENOTDIR := errno NotADirectoryError "[Errno 20] Not a directory".
Definition EISDIR := errno IsADirectoryError "[Errno 21] Is a directory".
Definition ENOTEMPTY := errno OSError "[Errno 39] Directory not empty".
Definition EINVAL := errno OSError "[Errno 22] Invalid argument".
Definition EBUSY := errno OSError "[Errno 16] Device or resource busy".

(** The parameters of the model. *)
Class Params := {
  fresh_meta : meta;
    (* the metadata a node gets when it is created *)
  dir_size : Z;
    (* st_size of a directory *)
  other : forall X, call X -> disk -> exc X * disk
    (* the calls and the cases the model leaves open *)
}.

Section Model.
Context {E : Environ} {P : Params}.

(** The names of a path string. *)
Definition names (path : string) : list string := split "/" path.

(** Walk [comps] from the directory [cur]. *)
Fixpoint walk (d : disk) (path : string) (cur : list string) (comps : list string)
    : exc (list string) :=
  match comps with
  | [] => Ok cur
  | c :: comps' =>
      match d !! cur with
      | None => Raise (ENOENT path)
      | Some (File _ _) => Raise (ENOTDIR path)
      | Some (Dir _) =>
          if String.eqb c "" || String.eqb c "." then walk d path cur comps'
          else if String.eqb c ".." then walk d path (removelast cur) comps'
          else walk d path (cur ++ [c])%list comps'
      end
  end.

(** Where the walk of a path starts: the root, or the working directory. *)
Definition anchor (absolute : bool) : exc (list string) :=
  if absolute then Ok []
  else match getcwd with
       | Ok cwd => Ok (filter (fun c => c <> "") (names cwd))
       | Raise e => Raise e
       end.

(** The node a path string names: where the walk ends.  The node itself
    need not exist. *)
Definition locate (d : disk) (path : string) : exc (list string) :=
  if String.eqb path "" then Raise (ENOENT path)
  else if startswith path "/" then walk d path [] (names path)
  else
    match getcwd with
    | Ok cwd => walk d path (filter (fun c => c <> "") (names cwd)) (names path)
    | Raise e => Raise e
    end.

(** The last name of the path is [.] or [..], or the path is the root:
    [rmdir] refuses these. *)
Definition unremovable (k : list string) (path : string) : bool :=
  match k with
  | [] => true
  | _ =>
      match last (filter (fun c => c <> "") (names path)) with
      | Some c => String.eqb c "." || String.eqb c ".."
      | None => true
      end
  end.

Definition lookup_path (d : disk) (path : string) : option node :=
  match locate d path with
  | Ok k => d !! k
  | Raise _ => None
  end.

Definition stat_of (n : node) : stat_result :=
  let '(size, m) := match n with
                    | File content m => (Z.of_nat (String.length content), m)
                    | Dir m => (dir_size, m)
                    end in
  {| st_mode := m_mode m; st_size := size; st_uid := m_uid m; st_gid := m_gid m;
     st_atime := m_atime m; st_mtime := m_mtime m; st_ctime := m_ctime m |}.

Definition os_stat (path : string) (d : disk) : exc stat_result :=
  match locate d path with
  | Ok k =>
      match d !! k with
      | Some n => Ok (stat_of n)
      | None => Raise (ENOENT path)
      end
  | Raise e => Raise e
  end.

Definition read_bytes (path : string) (d : disk) : exc string :=
  match locate d path with
  | Ok k =>
      match d !! k with
      | Some (File content _) => Ok content
      | Some (Dir _) => Raise (EISDIR path)
      | None => Raise (ENOENT path)
      end
  | Raise e => Raise e
  end.

(** [os.mkdir(path)] *)
Definition os_mkdir (path : string) (d : disk) : exc unit * disk :=
  match locate d path with
  | Ok k =>
      match d !! k with
      | Some _ => (Raise (EEXIST path), d)
      | None => (Ok tt, <[k := Dir fresh_meta]> d)
      end
  | Raise e => (Raise e, d)
  end.

(** [os.rmdir(path)] *)
Definition os_rmdir (path : string) (d : disk) : exc unit * disk :=
  match locate d path with
  | Ok k =>
      match d !! k with
      | Some (Dir _) =>
          if negb (is_empty_dir k d) then (Raise (ENOTEMPTY path), d)
          else if unremovable k path then (Raise (EINVAL path), d)
          else (Ok tt, delete k d)
      | Some (File _ _) => (Raise (ENOTDIR path), d)
      | None => (Raise (ENOENT path), d)
      end
  | Raise e => (Raise e, d)
  end.

(** [os.remove(path)] *)
Definition os_remove (path : string) (d : disk) : exc unit * disk :=
  match locate d path with
  | Ok k =>
      match d !! k with
      | Some (File _ _) => (Ok tt, delete k d)
      | Some (Dir _) => (Raise (EISDIR path), d)
      | None => (Raise (ENOENT path), d)
      end
  | Raise e => (Raise e, d)
  end.

(** [shutil.rmtree(path)]: everything below the directory goes first, the
    directory itself last. *)
Definition rmtree (path : string) (d : disk) : exc unit * disk :=
  match locate d path with
  | Ok k =>
      match d !! k with
      | Some (Dir _) =>
          if unremovable k path
          then (Raise (EINVAL path),
                without (fun k' => is_under k k' && negb (is_under k' k)) d)
          else (Ok tt, without (is_under k) d)
      | Some (File _ _) => (Raise (ENOTDIR path), d)
      | None => (Raise (ENOENT path), d)
      end
  | Raise e => (Raise e, d)
  end.

(** ** [pathlib.Path.mkdir] *)

(** [Path(path)]: whether it is anchored at the root, and its parts, last
    part first.  Empty names and [.] are dropped, [..] is kept. *)
Definition path_parts (path : string) : bool * list string :=
  (startswith path "/",
   rev (filter (fun c => c <> "" /\ c <> ".") (names path))).

(** [str(p)] for the path with these parts. *)
Definition render (absolute : bool) (rparts : list string) : string :=
  match rparts with
  | [] => if absolute then "/" else "."
  | _ => (if absolute then "/" else "") +:+ Py.join "/" (rev rparts)
  end.

(** [str(Path(path))] *)
Definition path_str (path : string) : string :=
  let '(absolute, rparts) := path_parts path in render absolute rparts.

(** [self.mkdir(parents=False, exist_ok=exist_ok)] *)
Definition mkdir_once (self : string) (exist_ok : bool) (d : disk) : exc unit * disk :=
  match os_mkdir self d with
  | (Ok _, d') => (Ok tt, d')
  | (Raise e, d') =>
      match exn_class_of e with
      | FileNotFoundError => (Raise e, d')
      | _ =>
          if negb exist_ok || negb (is_dir_node (lookup_path d' self))
          then (Raise e, d')
          else (Ok tt, d')
      end
  end.

(** [self.mkdir(parents=parents, exist_ok=exist_ok)]; the recursion is on
    [self.parent]. *)
Fixpoint path_mkdir (absolute : bool) (rparts : list string)
    (parents exist_ok : bool) (d : disk) : exc unit * disk :=
  let self := render absolute rparts in
  match os_mkdir self d with
  | (Ok _, d') => (Ok tt, d')
  | (Raise e, d') =>
      match exn_class_of e with
      | FileNotFoundError =>
          match rparts with
          | [] => (Raise e, d')
          | _ :: rparent =>
              if negb parents then (Raise e, d')
              else
                match path_mkdir absolute rparent true true d' with
                | (Ok _, d1) => mkdir_once self exist_ok d1
                | (Raise e1, d1) => (Raise e1, d1)
                end
          end
      | _ =>
          if negb exist_ok || negb (is_dir_node (lookup_path d' self))
          then (Raise e, d')
          else (Ok tt, d')
      end
  end.

Definition mkdir (path : string) (parents : value) (exist_ok : bool) (d : disk)
    : exc unit * disk :=
  let '(absolute, rparts) := path_parts path in
  path_mkdir absolute rparts (truthy parents) exist_ok d.

(** ** [shutil.copy2] and [shutil.copytree] *)

(** [os.path.basename(path)] *)
Definition basename (path : string) : string :=
  match last (names path) with
  | Some c => c
  | None => ""
  end.

Definition same_file (src dst : string) : exn :=
  Exn ShutilError ("'" +:+ src +:+ "' and '" +:+ dst +:+ "' are the same file").

(** Where [copy2] writes: into the destination, under the source's name,
    when the destination is a directory. *)
Definition copy_target (src dst : string) (d : disk) : string :=
  if is_dir_node (lookup_path d dst)
  then PosixPath.join_step dst (basename src) else dst.

Definition copy2 (src dst : string) (d : disk) : exc unit * disk :=
  let dst := copy_target src dst d in
  match locate d src with
  | Ok ks =>
      match d !! ks with
      | Some (File content m) =>
          match locate d dst with
          | Ok kd =>
              match d !! kd with
              | Some (File _ m') =>
                  if bool_decide (ks = kd) then (Raise (same_file src dst), d)
                  else (Ok tt, <[kd := File content (copystat m m')]> d)
              | Some (Dir _) => (Raise (EISDIR dst), d)
              | None => (Ok tt, <[kd := File content (copystat m fresh_meta)]> d)
              end
          | Raise e => (Raise e, d)
          end
      | Some (Dir _) => (Raise (EISDIR src), d)
      | None => (Raise (ENOENT src), d)
      end
  | Raise e => (Raise e, d)
  end.

(** The disk with a copy of the tree at [ks] put at [kd]. *)
Definition graft (ks kd : list string) (d : disk) : disk :=
  kmap (app kd) (copy_node fresh_meta <$> subtree ks d) ∪ d.

(** [shutil.copytree(src, dst)] when the parent of the destination exists
    and the destination is not inside the source; the other cases are left
    open. *)
Definition copytree (src dst : string) (d : disk) : exc unit * disk :=
  match locate d src with
  | Ok ks =>
      match d !! ks with
      | Some (Dir _) =>
          match locate d dst with
          | Ok kd =>
              match d !! kd with
              | Some _ => (Raise (EEXIST dst), d)
              | None =>
                  if is_under ks kd then other _ (Copytree src dst) d
                  else (Ok tt, graft ks kd d)
              end
          | Raise _ => other _ (Copytree src dst) d
          end
      | Some (File _ _) => (Raise (ENOTDIR src), d)
      | None => (Raise (ENOENT src), d)
      end
  | Raise e => (Raise e, d)
  end.

(** ** The disk as a world *)

Definition disk_call (X : Type) (c : call X) : disk -> exc X * disk :=
  match c in call X return disk -> exc X * disk with
  | PathExists p => fun d => (Ok (match lookup_path d p with
                                  | Some _ => true
                                  | None => false
                                  end), d)
  | PathIsDir p => fun d => (Ok (is_dir_node (lookup_path d p)), d)
  | PathIsFile p => fun d => (Ok (is_file_node (lookup_path d p)), d)
  | Stat p => fun d => (os_stat p d, d)
  | OpenReadBytes p => fun d => (read_bytes p d, d)
  | Mkdir p parents exist_ok => mkdir p parents exist_ok
  | Rmtree p => rmtree p
  | Rmdir p => os_rmdir p
  | Remove p => os_remove p
  | Copy2 s t => copy2 s t
  | Copytree s t => copytree s t
  | c => other _ c
  end.

#[export] Instance disk_world : World disk := disk_call.

End Model.
End DiskModel.

(* ===================================================================== *)
(** * Test doubles and a sample disk *)
(* ===================================================================== *)

(** Stand-ins for the process environment and the libraries, and a small
    disk, on which the development can be run. *)

Module Fixture.
Import DiskModel.

#[export] Instance environ : Environ := {|
  env_HOME := Some "/home/user";
  pw_dir := Ok "/home/user";
  getpwnam := fun name =>
    if String.eqb name "root" then Ok "/root"
    else Raise (Exn KeyError ("'getpwnam(): name not found: " +:+ name +:+ "'"));
  getcwd := Ok "/home/user/work"
|}.

(** JSON text is written with single quotes and converted. *)
Fixpoint js (s : string) : string :=
  match s with
  | EmptyString => EmptyString
  | String a s' => String (if Ascii.eqb a "'" then ascii_of_N 34 else a) (js s')
  end.

Definition unknown_tool_request : value :=
  VDict [("jsonrpc", VStr "2.0"); ("id", VInt 1); ("method", VStr "tools/call");
         ("params", VDict [("name", VStr "not_a_tool"); ("arguments", VDict [])])].

Definition initialize_request : value :=
  VDict [("jsonrpc", VStr "2.0"); ("id", VInt 2); ("method", VStr "initialize")].

Definition unknown_tool_line : string :=
  js "{'jsonrpc': '2.0', 'id': 1, 'method': 'tools/call', 'params': {'name': 'not_a_tool', 'arguments': {}}}"
  +:+ newline.

Definition initialize_line : string :=
  js "{'jsonrpc': '2.0', 'id': 2, 'method': 'initialize'}" +:+ newline.


(** A decoder that knows the two request lines above. *)
Definition loads (s : string) : exc value :=
  if String.eqb s unknown_tool_line then Ok unknown_tool_request
  else if String.eqb s initialize_line then Ok initialize_request
  else Raise (Exn JSONDecodeError
                "Expecting property name enclosed in double quotes: line 1 column 2 (char 1)").

(** A compact encoder, without escapes. *)
Fixpoint dumps (v : value) : string :=
  let quoted s := js "'" +:+ s +:+ js "'" in
  match v with
  | VNone => "null"
  | VBool true => "true"
  | VBool false => "false"
  | VInt z => pretty z
  | VFloat f => pretty (fl_mant f) +:+ "e" +:+ pretty (fl_exp f)
  | VStr s => quoted s
  | VList l =>
      "[" +:+ Py.join ", " ((fix each l := match l with
                                          | [] => []
                                          | x :: l' => dumps x :: each l'
                                          end) l) +:+ "]"
  | VDict d =>
      "{" +:+ Py.join ", " ((fix each d := match d with
                                          | [] => []
                                          | (k, x) :: d' =>
                                              (quoted k +:+ ": " +:+ dumps x) :: each d'
                                          end) d) +:+ "}"
  end.

#[export] Instance libs : Libs := {|
  json_loads := loads;
  json_dumps := fun _ => dumps;
  repr := dumps;
  b64encode := fun raw => raw;
  md5_hexdigest := fun _ => "d41d8cd98f00b204e9800998ecf8427e"
|}.

Definition some_meta (mode : Z) : meta :=
  {| m_mode := mode; m_uid := 1000; m_gid := 1000;
     m_atime := PyFloat 17000000000 (-1);
     m_mtime := PyFloat 17000000000 (-1);
     m_ctime := PyFloat 17000000000 (-1) |}.

(** The calls the disk model leaves open see an empty world: nothing
    matches, nothing can be read, moved or written. *)
Definition nothing (X : Type) (c : call X) : disk -> exc X * disk :=
  match c in call X return disk -> exc X * disk with
  | GuessType _ => fun d => (Ok None, d)
  | Glob _ _ => fun d => (Ok [], d)
  | PathAbsolute p => fun d => (Ok p, d)
  | _ => fun d => (Raise (Exn PermissionError "[Errno 13] Permission denied"), d)
  end.

#[export] Instance params : Params := {|
  fresh_meta := some_meta 493;
  dir_size := 4096;
  other := nothing
|}.

(** The sample disk:
<<
    /etc/passwd
    /home/user/work/notes.txt
    /home/user/work/proj/a.txt
    /home/user/work/proj/sub/b.txt
>> *)
Definition sample : disk :=
  list_to_map
    [([], Dir (some_meta 493));
     (["etc"], Dir (some_meta 493));
     (["etc"; "passwd"], File "root:x:0:0" (some_meta 420));
     (["home"], Dir (some_meta 493));
     (["home"; "user"], Dir (some_meta 493));
     (["home"; "user"; "work"], Dir (some_meta 493));
     (["home"; "user"; "work"; "notes.txt"], File "remember" (some_meta 384));
     (["home"; "user"; "work"; "proj"], Dir (some_meta 448));
     (["home"; "user"; "work"; "proj"; "a.txt"], File "alpha" (some_meta 420));
     (["home"; "user"; "work"; "proj"; "sub"], Dir (some_meta 493));
     (["home"; "user"; "work"; "proj"; "sub"; "b.txt"], File "beta" (some_meta 420))].

End Fixture.

(* ===================================================================== *)
(** * The vocabulary of the claims *)
(* ===================================================================== *)

Module Claims.
Import Server.
Section Vocabulary.
Context {E : Environ} {L : Libs}.

(** The arguments of each tool that name a path, with the default the
    handler reads them with. *)
Definition path_arguments (name : string) : list (string * value) :=
  if String.eqb name "list_files" then [("path", VStr ".")]
  else if String.eqb name "search_files" then [("directory", VStr ".")]
  else if String.eqb name "move_file" || String.eqb name "copy_file"
       then [("source", VStr ""); ("destination", VStr "")]
  else [("path", VStr "")].

(** A boolean argument as the handlers test it: the truth value of what
    [args.get(key, default)] returns.  It is false when the key is absent
    and the default is [False], or when the value is [false]. *)
Definition flag (args : list (string * value)) (key : string) (default : bool) : bool :=
  truthy (match dict_lookup key args with Some v => v | None => VBool default end).

(** The text with which each handler reports an exception [e]. *)
Definition failure_text (name : string) (e : exn) : string :=
  (if String.eqb name "read_file" then "Error reading file: "
   else if String.eqb name "write_file" then "Error writing file: "
   else if String.eqb name "list_files" then "Error listing files: "
   else if String.eqb name "create_directory" then "Error creating directory: "
   else if String.eqb name "delete_file" then "Error deleting file: "
   else if String.eqb name "move_file" then "Error moving file: "
   else if String.eqb name "copy_file" then "Error copying file: "
   else if String.eqb name "get_file_info" then "Error getting file info: "
   else "Error searching files: ") +:+ exn_str e.

(** A handler's program narrates failures: it always ends with a one-block
    text result, and when a call raises [e] it ends at once with the text
    [report e], unless the call is one of those [skipped], whose failure
    it may pass over. *)
Fixpoint narrates (skipped : forall X, call X -> bool) (report : exn -> string)
    (p : prog value) : Prop :=
  match p with
  | Ret r => exists t, r = Ok (text_result t)
  | Call c k =>
      (forall x, narrates skipped report (k (Ok x)))
      /\ (forall e, if skipped _ c then narrates skipped report (k (Raise e))
                    else k (Raise e) = Ret (Ok (text_result (report e))))
  end.

Definition none_skipped (X : Type) (c : call X) : bool := false.

(** The body of a [try]: it ends with a value satisfying [Q] or with an
    exception, and an exception raised by a call ends it at once, unless
    the call is one of those [skipped]. *)
Fixpoint propagates {A} (skipped : forall X, call X -> bool) (Q : A -> Prop)
    (p : prog A) : Prop :=
  match p with
  | Ret (Ok a) => Q a
  | Ret (Raise _) => True
  | Call c k =>
      (forall x, propagates skipped Q (k (Ok x)))
      /\ (forall e, if skipped _ c then propagates skipped Q (k (Raise e))
                    else k (Raise e) = Ret (Raise e))
  end.

(** The read of a file's text. *)
Definition text_reads (X : Type) (c : call X) : bool :=
  match c with
  | OpenReadText _ _ _ => true
  | _ => false
  end.

(** The texts a tool with a structured result can produce. *)
Definition text_form (name : string) (t : string) : Prop :=
  if String.eqb name "list_files" then
    t = "Error: Access to this path is restricted"
    \/ (exists e, t = "Error listing files: " +:+ exn_str e)
    \/ (exists file_list, t = json_dumps (Some 2%nat) (VList file_list))
  else if String.eqb name "get_file_info" then
    t = "Error: Access to this path is restricted"
    \/ (exists e, t = "Error getting file info: " +:+ exn_str e)
    \/ (exists p, t = "File not found: " +:+ p)
    \/ (exists info, t = json_dumps (Some 2%nat) (VDict info))
  else if String.eqb name "search_files" then
    t = "Error: Access to this path is restricted"
    \/ (exists e, t = "Error searching files: " +:+ exn_str e)
    \/ t = "No matches found"
    \/ (exists results, results <> [] /\ t = json_dumps (Some 2%nat) (VList results))
  else True.

(** The outcome is a tool result whose ["content"] is a list of exactly one
    block, of type ["text"], with a text of the tool's form. *)
Definition one_text_block (name : string) (r : exc value) : Prop :=
  exists t,
    r = Ok (VDict [("content", VList [VDict [("type", VStr "text"); ("text", VStr t)]])])
    /\ text_form name t.

End Vocabulary.
End Claims.

(* ===================================================================== *)
(** * The vocabulary of the further properties *)
(* ===================================================================== *)

Module Protocol.
Import Server.

(** What [run] reads: the reads before the first empty one, which is the
    end of the input. *)
Fixpoint until_eof (stdin : list string) : list string :=
  match stdin with
  | [] => []
  | line :: stdin' => if String.eqb line "" then [] else line :: until_eof stdin'
  end.

(** A member of a JSON object; [None] for what is not an object. *)
Definition member (k : string) (v : value) : option value :=
  match v with
  | VDict d => dict_lookup k d
  | _ => None
  end.

(** A JSON-RPC response to the request with this id: version ["2.0"], the
    id, and either a ["result"] or an ["error"] object with one of the two
    codes the dispatcher uses, never both. *)
Definition well_formed_response (id : value) (response : value) : Prop :=
  member "jsonrpc" response = Some (VStr "2.0")
  /\ member "id" response = Some id
  /\ ((exists result, member "result" response = Some result)
      /\ member "error" response = None
      \/ member "result" response = None
         /\ exists code message,
              member "error" response
              = Some (VDict [("code", VInt code); ("message", VStr message)])
              /\ (code = -32601 \/ code = -32603)).

(** The defaults the schema of a tool declares: the properties of its
    ["inputSchema"] that have a ["default"] member. *)
Definition declared_defaults (tools : list (string * value)) (name : string)
    : list (string * value) :=
  match dict_lookup name tools with
  | Some tool =>
      match member "inputSchema" tool with
      | Some schema =>
          match member "properties" schema with
          | Some (VDict properties) =>
              omap (fun kp => (fun v => (fst kp, v)) <$> member "default" (snd kp))
                   properties
          | _ => []
          end
      | None => []
      end
  | None => []
  end.

(** A request the dispatcher cannot look a handler up for: it is not an
    object, or its ["method"] cannot be a dict key. *)
Definition unreadable (request : value) : bool :=
  match request with
  | VDict d => negb (hashable (match dict_lookup "method" d with
                               | Some v => v
                               | None => VNone
                               end))
  | _ => true
  end.

End Protocol.
(** What [get_file_info] reports for the reader: sizes and permissions. *)
Module Sizes.

(** The units of [_human_readable_size], in the order the loop tries them,
    and the one it falls back to. *)
Definition units : list string := ["B"; "KB"; "MB"; "GB"; "TB"; "PB"].

(** The decimal text of [cents / 100] with two decimals, for [cents >= 0]. *)
Definition two_decimals (cents : Z) : string :=
  pretty (cents / 100) +:+ "."
  +:+ (if (cents mod 100 <? 10)%Z then "0" else "") +:+ pretty (cents mod 100).

(** The character of an octal digit. *)
Definition octal_digit (z : Z) : ascii := ascii_of_N (48 + Z.to_N z).

End Sizes.
Module Matching.

(** [enumerate(lines, 1)] *)
Definition enumerate_from (i : Z) (lines : list string) : list (Z * string) :=
  imap (fun n line => (i + Z.of_nat n, line)) lines.

(** The lines that contain the pattern once lower-cased, with their
    numbers, in the order of the file, each as the match recorded for it. *)
Definition matching_entries (pattern_lower : string) (lines : list string)
    : list value :=
  (fun il => VDict [("line_number", VInt (fst il));
                    ("content", VStr (slice_to 100 (strip (snd il))))])
  <$> filter (fun il => contains (lower (snd il)) pattern_lower = true)
             (enumerate_from 1 lines).

End Matching.
(** How one disk can differ from another. *)
Module Changes.
Import DiskModel.
Section WithParams.
Context {P : Params}.

(** Every node of [d] is in [d'] as it was, and what is new in [d'] is a
    directory with the metadata of a new node. *)
Definition only_adds_directories (d d' : disk) : Prop :=
  forall k,
    match d !! k with
    | Some n => d' !! k = Some n
    | None => d' !! k = None \/ d' !! k = Some (Dir fresh_meta)
    end.

End WithParams.
End Changes.

(** More test doubles: a decoder that also knows a line holding an array
    and a call with a list for arguments. *)
Module MoreFixture.
Import Fixture.

Definition array_line : string := "[1, 2]" +:+ newline.

Definition list_arguments_request : list (string * value) :=
  [("jsonrpc", VStr "2.0"); ("id", VInt 3); ("method", VStr "tools/call");
   ("params", VDict [("name", VStr "read_file"); ("arguments", VList [VStr "a.txt"])])].

Definition create_request : list (string * value) :=
  [("jsonrpc", VStr "2.0"); ("id", VInt 4); ("method", VStr "tools/call");
   ("params", VDict [("name", VStr "create_directory");
                     ("arguments", VDict [("path", VStr "new")])])].

Definition loads_more (s : string) : exc value :=
  if String.eqb s array_line then Ok (VList [VInt 1; VInt 2]) else loads s.

Definition libs_more : Libs := {|
  json_loads := loads_more;
  json_dumps := fun _ => dumps;
  repr := dumps;
  b64encode := fun raw => raw;
  md5_hexdigest := fun _ => "d41d8cd98f00b204e9800998ecf8427e"
|}.

End MoreFixture.
(* ===================================================================== *)
(** * Text files on the disk *)
(* ===================================================================== *)

(** [open(path, mode, encoding=..)] in text mode on the disk of
    [DiskModel], for the modes the server uses: ['r'], ['w'] and ['a'].
    The file is opened, and for ['w'] emptied, before the encoding is
    looked up; text is encoded when written and decoded, with universal
    newlines, when read.  Lines end with a line feed on the disk, as on
    POSIX. *)

Module TextIO.
Import DiskModel.

(** A text encoding: [str.encode], and [bytes.decode] with the [errors]
    argument. *)
Record codec := Codec {
  encode : string -> exc string;
  decode : option string -> string -> exc string
}.

(** What text files need besides the disk: the codec registry, the
    encoding [open] uses when given [None], the MIME database, what a
    write does to the metadata of a file, and the parameters of the disk
    model, whose [other] answers the calls still left open. *)
Class TextParams := {
  codecs : string -> option codec;
  default_encoding : string;
  guess_type : string -> option string;
  touched : meta -> meta;
  disk_params : Params
}.

(** Universal newlines: [\r\n] and [\r] are read as [\n]. *)
Fixpoint universal_newlines (after_cr : bool) (s : string) : string :=
  match s with
  | EmptyString => EmptyString
  | String a s' =>
      if Ascii.eqb a "013" then String "010" (universal_newlines true s')
      else if Ascii.eqb a "010" && after_cr then universal_newlines false s'
      else String a (universal_newlines false s')
  end.

Section Model.
Context {E : Environ} {T : TextParams}.

(** The [encoding] argument must be a string or [None]; this is checked
    before the file is touched. *)
Definition encoding_name (encoding : value) : exc string :=
  match encoding with
  | VNone => Ok default_encoding
  | VStr name =>
      if has_char "000" name then Raise (Exn ValueError "embedded null character")
      else Ok name
  | v => Raise (Exn TypeError ("open() argument 'encoding' must be str or None, not "
                               +:+ type_name v))
  end.

Definition lookup_codec (name : string) : exc codec :=
  match codecs name with
  | Some c => Ok c
  | None => Raise (Exn LookupError ("unknown encoding: " +:+ name))
  end.

(** [f.write(content)]: the bytes to add to the file. *)
Definition text_bytes (c : codec) (content : value) : exc string :=
  match content with
  | VStr s => encode c s
  | v => Raise (Exn TypeError ("write() argument must be str, not " +:+ type_name v))
  end.

(** [with open(path, mode, encoding=encoding) as f: f.write(content)] for
    [mode] ['w'] or ['a']. *)
Definition open_write (path mode : string) (encoding content : value) (d : disk)
    : exc unit * disk :=
  match encoding_name encoding with
  | Raise e => (Raise e, d)
  | Ok name =>
      match locate d path with
      | Raise e => (Raise e, d)
      | Ok k =>
          let opened :=
            match d !! k with
            | Some (Dir _) => Raise (EISDIR path)
            | Some (File old m) =>
                Ok (if String.eqb mode "a" then (old, m) else ("", touched m))
            | None => Ok ("", @fresh_meta disk_params)
            end in
          match opened with
          | Raise e => (Raise e, d)
          | Ok (old, m) =>
              match exc_bind (lookup_codec name) (fun c => text_bytes c content) with
              | Ok b => (Ok tt, <[k := File (old +:+ b) (touched m)]> d)
              | Raise e => (Raise e, <[k := File old m]> d)
              end
          end
      end
  end.

(** [with open(path, 'r', encoding=encoding, errors=errors) as f: f.read()] *)
Definition open_read_text (path : string) (encoding : value) (errors : option string)
    (d : disk) : exc string :=
  exc_bind (encoding_name encoding) (fun name =>
  exc_bind (read_bytes path d) (fun b =>
  exc_bind (lookup_codec name) (fun c =>
  exc_bind (decode c errors b) (fun s =>
  Ok (universal_newlines false s))))).

(** The calls the disk model leaves open, with text files and the MIME
    database filled in. *)
Definition text_other (X : Type) (c : call X) : disk -> exc X * disk :=
  match c in call X return disk -> exc X * disk with
  | GuessType p => fun d => (Ok (guess_type p), d)
  | OpenReadText p encoding errors => fun d => (open_read_text p encoding errors d, d)
  | OpenWrite p mode encoding content => open_write p mode encoding content
  | c => @other disk_params _ c
  end.

Definition text_params : Params := {|
  fresh_meta := @fresh_meta disk_params;
  dir_size := @dir_size disk_params;
  other := text_other
|}.

(** The disk with text files, as a world. *)
Definition text_world : World disk := @disk_world E text_params.

(** Running a program on it. *)
Definition on_disk {A} (p : prog A) (d : disk) : exc A * disk :=
  @exec disk text_world A p d.

End Model.

(** A MIME type for which [read_file] reads bytes. *)
Definition binary_type (mime_type : option string) : bool :=
  match mime_type with
  | Some m => negb (String.eqb m "")
              && startswith_any m ["image/"; "audio/"; "video/";
                                   "application/octet-stream"]
  | None => false
  end.

(** A test double: one encoding, which stores code points as bytes and
    cannot encode the character 255, and a MIME database that knows
    [.png]. *)
Definition latin : codec := {|
  encode := fun s =>
    if has_char "255" s
    then Raise (Exn UnicodeError "'latin' codec can't encode character")
    else Ok s;
  decode := fun _ b => Ok b
|}.

Definition plain_text : TextParams := {|
  codecs := fun name => if String.eqb name "utf-8" then Some latin else None;
  default_encoding := "utf-8";
  guess_type := fun p => if endswith_char p "g" then Some "image/png" else None;
  touched := fun m => m;
  disk_params := Fixture.params
|}.

(** The sample disk with a picture in the working directory. *)
Definition with_picture : disk :=
  <[["home"; "user"; "work"; "logo.png"] := File "PNG" (Fixture.some_meta 420)]>
    Fixture.sample.

End TextIO.
(* ===================================================================== *)
(** * The URL scraper *)
(* ===================================================================== *)

(** Source: [src/url_scraper_mcp_fixed.py], [_clean_text] and [scrape_url].

    [scrape_url] makes at most one request.  What the request answers, and
    what BeautifulSoup and [httpx.URL] make of the page, are parameters.
    The arguments [max_chars] and [max_links] are integers, as annotated,
    so that [int(..)] leaves them alone; [url] is any value, since the
    function tests it itself. *)

Module Scraper.

(** An exception: the name of its class and the text of [str(e)]. *)
Record error := Error { error_class : string; error_text : string }.

Inductive outcome (A : Type) : Type :=
| Returned (a : A)
| Raised (e : error).
Arguments Returned {A} a.
Arguments Raised {A} e.

(** [httpx.Response], the parts [scrape_url] reads. *)
Record response := Response {
  resp_url : string;                  (* str(resp.url) *)
  resp_status_code : Z;
  resp_content_type : option string;  (* resp.headers.get("content-type") *)
  resp_text : string;
  resp_content : string               (* bytes *)
}.

(** How [client.get(url)] ends. *)
Inductive fetched : Type :=
| Got (resp : response)
| RequestError (class_name message : string)
    (* an httpx.RequestError: e.__class__.__name__ and str(e) *)
| OtherError (e : error).

(** What the libraries make of a page: the string of the title element
    (if there is one with a string), [soup.get_text(" ")], the pairs
    [(a.get_text(), a.get("href"))] of the anchors with an [href], all
    after the script, style and noscript elements are removed;
    [str(httpx.URL(base).join(href))]; and [b.decode("utf-8",
    errors="replace")]. *)
Class Html := {
  title_string : string -> option string;
  get_text : string -> string;
  anchors : string -> list (string * string);
  url_join : string -> string -> outcome string;
  decode_replace : string -> string
}.

(** [re.sub(r"\s+", " ", s)]: every maximal run of whitespace becomes one
    space.  [in_run] tells that the previous character was whitespace. *)
Fixpoint collapse (in_run : bool) (s : string) : string :=
  match s with
  | EmptyString => EmptyString
  | String a s' =>
      if isspace a then
        if in_run then collapse true s' else String " " (collapse true s')
      else String a (collapse false s')
  end.

Definition _clean_text (text : string) : string := strip (collapse false text).

(** The program: it ends at once, or makes the request and ends according
    to how the request ends. *)
Inductive plan : Type :=
| Done (o : outcome value)
| Get (url : string) (user_agent timeout_s : value) (k : fetched -> outcome value).

Section WithHtml.
Context {H : Html}.

(** The loop over the anchors. *)
Fixpoint links_loop (final_url : string) (limit : Z) (found : list (string * string))
    (links : list value) : outcome (list value) :=
  match found with
  | [] => Returned links
  | (a_text, href) :: found' =>
      let text := _clean_text a_text in
      match (if negb (String.eqb href "") then
               match url_join final_url href with
               | Returned u =>
                   Returned (links ++ [VDict [("url", VStr u); ("text", VStr text)]])%list
               | Raised e => Raised e
               end
             else Returned links) with
      | Returned links =>
          if (limit <=? Z.of_nat (length links))%Z then Returned links
          else links_loop final_url limit found' links
      | Raised e => Raised e
      end
  end.

(** The part of [scrape_url] after the response has arrived. *)
Definition read_response (url : string) (max_chars max_links : Z) (resp : response)
    : outcome value :=
  let content_type := match resp_content_type resp with Some c => c | None => "" end in
  let is_html := contains (lower content_type) "html" in
  let result title content links :=
    VDict [("url", VStr url);
           ("final_url", VStr (resp_url resp));
           ("status_code", VInt (resp_status_code resp));
           ("title", title);
           ("content", VStr content);
           ("links", VList links)] in
  if is_html && negb (String.eqb (resp_text resp) "") then
    let title := match title_string (resp_text resp) with
                 | Some s => s
                 | None => ""
                 end in
    let text_content := _clean_text (get_text (resp_text resp)) in
    let content := slice_to (Z.to_nat (Z.max 0 max_chars)) text_content in
    match links_loop (resp_url resp) (Z.max 0 max_links) (anchors (resp_text resp)) [] with
    | Returned links => Returned (result (VStr (_clean_text title)) content links)
    | Raised e => Raised e
    end
  else
    let snippet :=
      if negb (String.eqb (resp_content resp) "")
      then decode_replace (slice_to 512 (resp_content resp))
      else "" in
    Returned (result VNone snippet []).

Definition scrape_url (url : value) (max_chars max_links : Z)
    (timeout_s user_agent : value) : plan :=
  match url with
  | VStr u =>
      if String.eqb u "" then
        Done (Raised (Error "ValueError" "url must be a non-empty string"))
      else if negb (startswith_any (lower u) ["http://"; "https://"]) then
        Done (Raised (Error "ValueError" "Only http(s) URLs are supported"))
      else
        Get u user_agent timeout_s (fun f =>
          match f with
          | Got resp => read_response u max_chars max_links resp
          | RequestError class_name message =>
              Returned (VDict [("url", VStr u);
                               ("final_url", VNone);
                               ("status_code", VNone);
                               ("title", VNone);
                               ("content", VStr "");
                               ("links", VList []);
                               ("error", VStr ("request_error: " +:+ class_name
                                               +:+ ": " +:+ message))])
          | OtherError e => Raised e
          end)
  | _ => Done (Raised (Error "ValueError" "url must be a non-empty string"))
  end.

(** How the plan ends when the request, if made, ends with [f]. *)
Definition finish (p : plan) (f : fetched) : outcome value :=
  match p with
  | Done o => o
  | Get _ _ _ k => k f
  end.

End WithHtml.

(** ** Tidy text *)

Definition starts_with_space (s : string) : bool :=
  match s with
  | EmptyString => false
  | String a _ => isspace a
  end.

Fixpoint ends_with_space (s : string) : bool :=
  match s with
  | EmptyString => false
  | String a EmptyString => isspace a
  | String _ s' => ends_with_space s'
  end.

(** Every whitespace character is a space and no two are adjacent. *)
Fixpoint single_spaced (s : string) : bool :=
  match s with
  | EmptyString => true
  | String a s' =>
      (if isspace a then Ascii.eqb a " " && negb (starts_with_space s') else true)
      && single_spaced s'
  end.

(** Text with single spaces between its words and none at its ends. *)
Definition tidy (s : string) : bool :=
  single_spaced s && negb (starts_with_space s) && negb (ends_with_space s).


(** The characters that are not whitespace, in order. *)
Fixpoint letters (s : string) : list ascii :=
  match s with
  | EmptyString => []
  | String a s' => if isspace a then letters s' else a :: letters s'
  end.

(** A test double for the libraries: the page is its own text, with the
    title "My page" and three anchors. *)
Definition page_html : Html := {|
  title_string := fun _ => Some (" My" +:+ newline +:+ "  page ");
  get_text := fun text => text;
  anchors := fun _ => [("first", "/a"); ("no  target", ""); ("third", "/c")];
  url_join := fun base href => Returned (base +:+ href);
  decode_replace := fun b => b
|}.

Definition page : response :=
  {| resp_url := "http://example.org";
     resp_status_code := 200;
     resp_content_type := Some "text/HTML; charset=utf-8";
     resp_text := "  Some   text " +:+ newline;
     resp_content := "  Some   text " +:+ newline |}.

End Scraper.

(* ===================================================================== *)
(** * Facts about programs *)
(* ===================================================================== *)

Section ProgFacts.
Context {W : Type} `{World W}.

Lemma exec_bind {A B} (p : prog A) (f : A -> prog B) (w : W) :
  exec (bind p f) w =
  let '(r, w') := exec p w in
  match r with
  | Ok a => exec (f a) w'
  | Raise e => (Raise e, w')
  end.
Proof.
  revert w. induction p as [[a|e]|X c k IH]; intros w; simpl; try reflexivity.
  destruct (os_call X c w) as [r w']. apply IH.
Qed.

Lemma exec_try_except {A} (p : prog A) (h : exn -> prog A) (w : W) :
  exec (try_except p h) w =
  let '(r, w') := exec p w in
  match r with
  | Ok a => (Ok a, w')
  | Raise e => exec (h e) w'
  end.
Proof.
  revert w. induction p as [[a|e]|X c k IH]; intros w; simpl; try reflexivity.
  destruct (os_call X c w) as [r w']. apply IH.
Qed.

Lemma exec_ret {A} (p : prog A) (r : exc A) (w : W) :
  p = Ret r -> exec p w = (r, w).
Proof. intros ->. reflexivity. Qed.

End ProgFacts.

Lemma always_mono {A} (P Q : exc A -> Prop) (p : prog A) :
  (forall r, P r -> Q r) -> always P p -> always Q p.
Proof.
  intros HPQ. induction p as [r|X c k IH]; simpl; [apply HPQ|].
  intros Hk r. apply IH, Hk.
Qed.

Lemma always_bind {A B} (Q : exc B -> Prop) (p : prog A) (f : A -> prog B) :
  always (fun r => match r with
                   | Ok a => always Q (f a)
                   | Raise e => Q (Raise e)
                   end) p ->
  always Q (bind p f).
Proof.
  induction p as [[a|e]|X c k IH]; simpl; try tauto.
  intros Hk r. apply IH, Hk.
Qed.

Lemma always_try_except {A} (Q : exc A -> Prop) (p : prog A) (h : exn -> prog A) :
  always (fun r => match r with
                   | Ok a => Q (Ok a)
                   | Raise e => always Q (h e)
                   end) p ->
  always Q (try_except p h).
Proof.
  induction p as [[a|e]|X c k IH]; simpl; try tauto.
  intros Hk r. apply IH, Hk.
Qed.

Lemma always_trivial {A} (p : prog A) : always (fun _ => True) p.
Proof. induction p as [r|X c k IH]; simpl; auto. Qed.

(** A [try] whose handler cannot fail never raises. *)
Lemma try_except_total {A} (Q : A -> Prop) (p : prog A) (h : exn -> prog A) :
  always (fun r => match r with Ok a => Q a | Raise _ => True end) p ->
  (forall e, always (fun r => exists a, r = Ok a /\ Q a) (h e)) ->
  always (fun r => exists a, r = Ok a /\ Q a) (try_except p h).
Proof.
  intros Hp Hh. apply always_try_except.
  eapply always_mono; [|exact Hp]. intros [a|e]; simpl; eauto.
Qed.

(** What the outcomes of a program satisfy holds of the outcome in any
    world. *)
Lemma always_exec {W} `{World W} {A} (P : exc A -> Prop) (p : prog A) (w : W) :
  always P p -> P (fst (exec p w)).
Proof.
  revert w. induction p as [r|X c k IH]; intros w; simpl; [auto|].
  intros Hk. destruct (os_call X c w) as [r w']. apply IH, Hk.
Qed.

(* ===================================================================== *)
(** * The safety gate *)
(* ===================================================================== *)

Module Gate.
Import Server.
Section Facts.
Context {E : Environ} {L : Libs}.

Lemma startswith_any_true (s : string) (pres : list string) :
  startswith_any s pres = true <->
  exists pre, In pre pres /\ String.prefix pre s = true.
Proof. unfold startswith_any, startswith. apply existsb_exists. Qed.

(** C3.  [is_safe_path] rejects a path exactly when its user-expanded
    absolute form starts with one of the five prefixes of the deny list
    ([/etc], [/sys], [/proc] and the two Windows system directories), or
    when computing that form raises; every other path is accepted. *)
Theorem is_safe_path_false_iff (file_path : value) :
  deny_list = ["/etc"; "/sys"; "/proc"; "C:\Windows"; "C:\Program Files"] /\
  (is_safe_path file_path = false <->
   (exists abs_path,
       exc_bind (fspath file_path)
         (fun p => exc_bind (PosixPath.expanduser p) PosixPath.abspath) = Ok abs_path
       /\ exists pre, In pre deny_list /\ String.prefix pre abs_path = true)
   \/ (exists e,
       exc_bind (fspath file_path)
         (fun p => exc_bind (PosixPath.expanduser p) PosixPath.abspath) = Raise e)).
Proof.
  split; [reflexivity|].
  unfold is_safe_path. fold (resolve file_path).
  destruct (resolve file_path) as [abs_path|e].
  - rewrite negb_false_iff, startswith_any_true. split.
    + intros Hpre. left. exists abs_path. split; [reflexivity|exact Hpre].
    + intros [(a & Ha & Hpre)|(e & He)]; [|discriminate He].
      injection Ha as <-. exact Hpre.
  - split; [|reflexivity]. intros _. right. exists e. reflexivity.
Qed.

(** A path that passes the gate is a string. *)
Lemma is_safe_path_safe (file_path : value) :
  is_safe_path file_path = true ->
  exists p abs_path, file_path = VStr p /\ resolve file_path = Ok abs_path.
Proof.
  unfold is_safe_path. destruct (resolve file_path) as [a|e] eqn:Hres; [|discriminate].
  intros _. unfold resolve in Hres. destruct file_path; try discriminate.
  eauto.
Qed.

End Facts.
End Gate.

(* ===================================================================== *)
(** * The handlers and the gate *)
(* ===================================================================== *)

Module Handlers.
Import Server Claims.
Section Facts.
Context {E : Environ} {L : Libs}.

(** Case analysis on the handler table. *)
Ltac each_handler H :=
  simpl in H;
  repeat (destruct H as [H|H]; [injection H as <- <-|]);
  [..|contradiction H].

(** C2.  Whenever the gate rejects one of the path arguments of a tool, the
    handler is the program that returns the "restricted" text result at
    once: it makes no call to the operating system and raises nothing, so
    in every world the result is that soft error and the world is
    unchanged. *)
Theorem gate_short_circuits (name : string) (handler : value -> prog value)
    (d : list (string * value)) (key : string) (default v : value) :
  In (name, handler) tool_handlers ->
  In (key, default) (path_arguments name) ->
  get (VDict d) key default = Ok v ->
  is_safe_path v = false ->
  handler (VDict d) = Ret (Ok (text_result "Error: Access to this path is restricted"))
  /\ makes_no_call (handler (VDict d))
  /\ forall W (world : World W) (w : W),
       exec (handler (VDict d)) w
       = (Ok (text_result "Error: Access to this path is restricted"), w).
Proof.
  intros Hin Hkey Hget Hunsafe.
  assert (handler (VDict d)
          = Ret (Ok (text_result "Error: Access to this path is restricted"))) as Heq.
  { simpl in Hget. injection Hget as <-.
    each_handler Hin; simpl in Hkey;
      repeat (destruct Hkey as [Hkey|Hkey]; [injection Hkey as <- <-|]);
      try contradiction Hkey;
      cbn [read_file write_file list_files create_directory delete_file move_file
           copy_file get_file_info search_files lift get bind];
      rewrite Hunsafe; cbn [negb orb]; rewrite ?orb_true_r; reflexivity. }
  split; [exact Heq|]. split; [rewrite Heq; exact I|].
  intros W world w. rewrite Heq. reflexivity.
Qed.

End Facts.
End Handlers.

(* ===================================================================== *)
(** * The dispatcher and the request loop *)
(* ===================================================================== *)

Module Dispatch.
Import Server Claims.
Section Facts.
Context {E : Environ} {L : Libs}.

(** A [tools/call] request whose tool name is not in the handler table is
    answered with a response whose ["result"] member holds the error
    object; the response has no ["error"] member. *)
Lemma unknown_tool_wrapped (request params : list (string * value))
    (tool_name : value) :
  dict_lookup "method" request = Some (VStr "tools/call") ->
  get (VDict request) "params" (VDict []) = Ok (VDict params) ->
  get (VDict params) "name" VNone = Ok tool_name ->
  table_get tool_handlers tool_name = Ok None ->
  exists id response,
    handle_request (VDict request) = Ret (Ok (VDict response))
    /\ dict_lookup "error" response = None
    /\ dict_lookup "result" response
       = Some (VDict [("error",
                       VDict [("code", VInt (-32601));
                              ("message", VStr ("Unknown tool: " +:+ fstr tool_name))])])
    /\ get (VDict request) "id" VNone = Ok id
    /\ dict_lookup "id" response = Some id.
Proof.
  intros Hmethod Hparams Hname Hnone.
  destruct (get (VDict request) "id" VNone) as [id|] eqn:Hid; [|discriminate].
  exists id.
  exists [("jsonrpc", VStr "2.0"); ("id", id);
          ("result",
           VDict [("error",
                   VDict [("code", VInt (-32601));
                          ("message", VStr ("Unknown tool: " +:+ fstr tool_name))])])].
  split; [|repeat split; reflexivity].
  unfold handle_request. cbn [lift get bind]. rewrite Hmethod.
  cbn [table_get hashable handlers List.find fst snd String.eqb Ascii.eqb Bool.eqb fmap
       option_fmap option_map lift bind].
  unfold handle_call_tool.
  rewrite Hparams. cbn [lift bind]. rewrite Hname. cbn [lift bind].
  destruct (get (VDict params) "arguments" (VDict [])) as [arguments|] eqn:Hargs;
    [|discriminate].
  cbn [lift bind]. rewrite Hnone. cbn [lift bind ret try_except].
  cbn [get] in Hid. injection Hid as <-. reflexivity.
Qed.

(** C1, on the request
    [{"jsonrpc": "2.0", "id": 1, "method": "tools/call",
      "params": {"name": "not_a_tool", "arguments": {}}}]:
    the response carries the error object with code -32601 inside its
    ["result"] member and has no ["error"] member. *)
Theorem unknown_tool_answered_in_result :
  handle_request Fixture.unknown_tool_request
  = Ret (Ok (VDict [("jsonrpc", VStr "2.0"); ("id", VInt 1);
                    ("result",
                     VDict [("error",
                             VDict [("code", VInt (-32601));
                                    ("message", VStr "Unknown tool: not_a_tool")])])]))
  /\ (forall response,
        handle_request Fixture.unknown_tool_request = Ret (Ok (VDict response)) ->
        dict_lookup "error" response = None
        /\ exists result, dict_lookup "result" response = Some result).
Proof.
  split; [reflexivity|].
  intros response Hresp. injection Hresp as <-.
  split; [reflexivity|]. eexists. reflexivity.
Qed.

(** The sibling path: an unknown method is answered with a top-level
    ["error"] member and no ["result"]. *)
Lemma unknown_method_is_protocol_error (request : list (string * value))
    (method : string) (id : value) :
  dict_lookup "method" request = Some (VStr method) ->
  table_get handlers (VStr method) = Ok None ->
  get (VDict request) "id" VNone = Ok id ->
  handle_request (VDict request)
  = Ret (Ok (error_response id (-32601) ("Method not found: " +:+ method))).
Proof.
  intros Hmethod Hnone Hid.
  unfold handle_request. cbn [lift get bind]. rewrite Hmethod.
  cbn [lift bind]. rewrite Hnone. cbn [lift bind].
  cbn [get] in Hid. injection Hid as <-. reflexivity.
Qed.

(** One line is always answered: [serve_line] never raises. *)
Lemma serve_line_total (line : string) :
  always (fun r => exists printed, r = Ok printed) (serve_line line).
Proof.
  unfold serve_line.
  eapply always_mono; [|apply (try_except_total (fun _ => True))].
  - intros r (a & -> & _). eauto.
  - eapply always_mono; [|apply always_trivial]. intros [a|e]; auto.
  - intros e. destruct (is_JSONDecodeError e); simpl; eauto.
Qed.


(** A line that parses is answered with what the dispatcher returns for
    the request, or with error -32603 when the dispatcher raises. *)
Lemma well_formed_line_answered W (world : World W) (w : W) (line : string)
    (request : value) :
  json_loads line = Ok request ->
  exec (serve_line line) w
  = match exec (handle_request request) w with
    | (Ok response, w') => (Ok (json_dumps None response), w')
    | (Raise e, w') =>
        (Ok (json_dumps None
               (error_response VNone (if is_JSONDecodeError e then -32700 else -32603)
                  ((if is_JSONDecodeError e then "Parse error: " else "Internal error: ")
                   +:+ exn_str e))), w')
    end.
Proof.
  intros Hloads. unfold serve_line. rewrite Hloads. cbn [lift bind].
  rewrite exec_try_except, exec_bind.
  destruct (exec (handle_request request) w) as [[response|e] w']; [reflexivity|].
  destruct (is_JSONDecodeError e); reflexivity.
Qed.


End Facts.
End Dispatch.

(* ===================================================================== *)
(** * Failures inside the handlers *)
(* ===================================================================== *)

Module Failures.
Import Server Claims.

Lemma propagates_mono {A} sk (Q Q' : A -> Prop) (p : prog A) :
  (forall a, Q a -> Q' a) -> propagates sk Q p -> propagates sk Q' p.
Proof.
  intros HQ. induction p as [[a|e]|X c k IH]; simpl; auto.
  intros [Hok Hraise]. split; [intros x; apply IH, Hok|].
  intros e. specialize (Hraise e). destruct (sk X c); auto.
Qed.

Lemma propagates_bind {A B} sk (Q : B -> Prop) (p : prog A) (f : A -> prog B) :
  propagates sk (fun a => propagates sk Q (f a)) p -> propagates sk Q (bind p f).
Proof.
  induction p as [[a|e]|X c k IH]; simpl; auto.
  intros [Hok Hraise]. split; [intros x; apply IH, Hok|].
  intros e. specialize (Hraise e). destruct (sk X c).
  - apply IH, Hraise.
  - rewrite Hraise. reflexivity.
Qed.

Lemma propagates_perform {X} sk (Q : X -> Prop) (c : call X) :
  (forall x, Q x) -> propagates sk Q (perform c).
Proof.
  intros HQ. simpl. split; [exact HQ|]. intros e. destruct (sk X c); simpl; auto.
Qed.

Lemma propagates_lift {A} sk (Q : A -> Prop) (r : exc A) :
  (forall a, r = Ok a -> Q a) -> propagates sk Q (lift r).
Proof. destruct r; simpl; auto. Qed.

Section Facts.
Context {E : Environ} {L : Libs}.

(** A [try] around a body that propagates, with a handler that reports. *)
Lemma narrates_try sk report (p : prog value) :
  propagates sk (fun v => exists t, v = text_result t) p ->
  narrates sk report (try_except p (fun e => ret (text_result (report e)))).
Proof.
  induction p as [[a|e]|X c k IH]; simpl.
  - intros (t & ->). eauto.
  - intros _. eauto.
  - intros [Hok Hraise]. split; [intros x; apply IH, Hok|].
    intros e. specialize (Hraise e). destruct (sk X c).
    + apply IH, Hraise.
    + rewrite Hraise. reflexivity.
Qed.

Lemma narrates_text sk report (p : prog value) :
  narrates sk report p -> always (fun r => exists t, r = Ok (text_result t)) p.
Proof.
  induction p as [r|X c k IH]; simpl; [auto|].
  intros [Hok Hraise] [x|e]; [apply IH, Hok|].
  specialize (Hraise e). destruct (sk X c); [apply IH, Hraise|].
  rewrite Hraise. simpl. eauto.
Qed.

(** Give the arguments read from the dict a name. *)
Ltac name_args :=
  repeat match goal with
         | |- context [match dict_lookup ?k ?d with Some v => v | None => ?dflt end] =>
             let x := fresh "arg" in
             generalize (match dict_lookup k d with Some v => v | None => dflt end);
             intros x
         end.

Ltac prop_step :=
  lazymatch goal with
  | |- propagates _ _ (bind _ _) => apply propagates_bind
  | |- propagates _ _ (perform _) => apply propagates_perform; intros ?
  | |- propagates _ _ (lift _) => apply propagates_lift; intros ? ?
  | |- propagates _ _ (ret _) => cbn [propagates ret]
  | |- propagates _ _ (Ret _) => cbn [propagates]
  | |- propagates _ _ (match ?r with _ => _ end) => destruct r
  | |- propagates _ _ ?p =>
      let p' := eval cbv beta zeta in p in progress change p with p'
  | |- _ => solve [eauto]
  end.

(** The gate, then a [try] whose body propagates. *)
Ltac narrate name sk :=
  cbn [get lift bind]; name_args;
  lazymatch goal with
  | |- context [if ?b then ret restricted else _] => destruct b; [simpl; eauto|]
  end;
  apply (narrates_try sk (failure_text name));
  repeat prop_step.

Lemma list_files_loop_propagates sk files file_list :
  propagates sk (fun _ => True) (list_files_loop files file_list).
Proof.
  revert file_list. induction files as [|file_path files IH]; intros file_list;
    cbn [list_files_loop]; repeat prop_step; apply IH.
Qed.

(** In the loop of [search_files] a failing read is passed over: the loop
    goes on with the next file. *)
Lemma search_files_loop_propagates pat files results :
  propagates text_reads (fun _ => True) (search_files_loop pat files results).
Proof.
  revert results. induction files as [|file_path files IH]; intros results;
    cbn [search_files_loop]; repeat prop_step; [|apply IH].
  cbn. split.
  - intros content. destruct (search_content pat file_path content); cbn; apply IH.
  - intros e. apply IH.
Qed.

Lemma read_file_narrates d :
  narrates none_skipped (failure_text "read_file") (read_file (VDict d)).
Proof. unfold read_file. narrate "read_file" none_skipped. Qed.

Lemma write_file_narrates d :
  narrates none_skipped (failure_text "write_file") (write_file (VDict d)).
Proof. unfold write_file. narrate "write_file" none_skipped. Qed.

Lemma list_files_narrates d :
  narrates none_skipped (failure_text "list_files") (list_files (VDict d)).
Proof.
  unfold list_files. narrate "list_files" none_skipped.
  all: eapply propagates_mono; [|apply list_files_loop_propagates];
    intros; repeat prop_step.
Qed.

Lemma create_directory_narrates d :
  narrates none_skipped (failure_text "create_directory") (create_directory (VDict d)).
Proof. unfold create_directory. narrate "create_directory" none_skipped. Qed.

Lemma delete_file_narrates d :
  narrates none_skipped (failure_text "delete_file") (delete_file (VDict d)).
Proof. unfold delete_file. narrate "delete_file" none_skipped. Qed.

Lemma move_file_narrates d :
  narrates none_skipped (failure_text "move_file") (move_file (VDict d)).
Proof. unfold move_file. narrate "move_file" none_skipped. Qed.

Lemma copy_file_narrates d :
  narrates none_skipped (failure_text "copy_file") (copy_file (VDict d)).
Proof. unfold copy_file. narrate "copy_file" none_skipped. Qed.

Lemma get_file_info_narrates d :
  narrates none_skipped (failure_text "get_file_info") (get_file_info (VDict d)).
Proof. unfold get_file_info. narrate "get_file_info" none_skipped. Qed.

Lemma search_files_narrates d :
  narrates text_reads (failure_text "search_files") (search_files (VDict d)).
Proof.
  unfold search_files. narrate "search_files" text_reads.
  eapply propagates_mono; [|apply search_files_loop_propagates].
  intros; repeat prop_step.
Qed.

(** Each handler narrates, [search_files] with its reads passed over. *)
Lemma handlers_narrate (name : string) (handler : value -> prog value)
    (d : list (string * value)) :
  In (name, handler) tool_handlers ->
  narrates (if String.eqb name "search_files" then text_reads else none_skipped)
           (failure_text name) (handler (VDict d)).
Proof.
  intros Hin. simpl in Hin.
  repeat (destruct Hin as [Hin|Hin]; [injection Hin as <- <-|]);
    [..|contradiction Hin]; cbn [String.eqb Ascii.eqb Bool.eqb].
  - apply read_file_narrates.
  - apply write_file_narrates.
  - apply list_files_narrates.
  - apply create_directory_narrates.
  - apply delete_file_narrates.
  - apply move_file_narrates.
  - apply copy_file_narrates.
  - apply get_file_info_narrates.
  - apply search_files_narrates.
Qed.

(** C5, amended.  No handler lets an exception escape, whatever the calls
    to the operating system answer: every outcome is a one-block text
    result.  When a call raises, eight of the nine handlers end at once
    with their own "Error ...: " text followed by the text of the
    exception.  [search_files] does so for its glob and its file tests; a
    failure to read one of the files is passed over and the search goes on
    with the next file. *)
Theorem failures_are_soft (name : string) (handler : value -> prog value)
    (d : list (string * value)) :
  In (name, handler) tool_handlers ->
  narrates (if String.eqb name "search_files" then text_reads else none_skipped)
           (failure_text name) (handler (VDict d))
  /\ always (fun r => exists t, r = Ok (text_result t)) (handler (VDict d)).
Proof.
  intros Hin. split; [apply handlers_narrate, Hin|].
  eapply narrates_text, handlers_narrate, Hin.
Qed.

(** In every world a handler called with an arguments mapping returns a
    text result. *)
Corollary handlers_return_in_every_world (name : string) (handler : value -> prog value)
    (d : list (string * value)) W (world : World W) (w : W) :
  In (name, handler) tool_handlers ->
  exists t, fst (exec (handler (VDict d)) w) = Ok (text_result t).
Proof.
  intros Hin.
  exact (always_exec _ _ w (narrates_text _ _ _ (handlers_narrate name handler d Hin))).
Qed.

(** With arguments that are not a mapping the first [args.get] raises
    outside every [try]; the dispatcher turns that into error -32603. *)
Lemma arguments_not_a_mapping (args : value) :
  (forall d, args <> VDict d) ->
  read_file args = Ret (Raise (no_attribute args "get")).
Proof.
  intros Hnot. destruct args; try reflexivity. exfalso. eapply Hnot. reflexivity.
Qed.

End Facts.

(** C5 as stated fails: with the working directory of the fixture and no
    arguments, [search_files] does not report the failure of a read.  If
    the glob finds one file and reading it raises, the result is "No
    matches found". *)
Lemma search_files_hides_read_failure :
  ~ (forall name handler d,
       In (name, handler) (@tool_handlers Fixture.environ Fixture.libs) ->
       narrates none_skipped (failure_text name) (handler (VDict d))).
Proof.
  intros Hall.
  specialize (Hall "search_files" (@search_files Fixture.environ Fixture.libs) []).
  assert (In ("search_files", @search_files Fixture.environ Fixture.libs)
             (@tool_handlers Fixture.environ Fixture.libs)) as Hin.
  { simpl. do 8 right. left. reflexivity. }
  specialize (Hall Hin). clear Hin.
  cbn in Hall. destruct Hall as [Hglob _].
  specialize (Hglob ["unreadable.txt"]). cbn in Hglob.
  destruct Hglob as [Hisfile _]. specialize (Hisfile true). cbn in Hisfile.
  destruct Hisfile as [_ Hread].
  specialize (Hread (Exn PermissionError "[Errno 13] Permission denied: 'unreadable.txt'")).
  cbn in Hread. discriminate Hread.
Qed.

End Failures.

(* ===================================================================== *)
(** * The shape of tool results *)
(* ===================================================================== *)

Module Results.
Import Server Claims.
Section Facts.
Context {E : Environ} {L : Libs}.

Ltac name_args :=
  repeat match goal with
         | |- context [match dict_lookup ?k ?d with Some v => v | None => ?dflt end] =>
             let x := fresh "arg" in
             generalize (match dict_lookup k d with Some v => v | None => dflt end);
             intros x
         end.

(** Follow the program to its ends; what a loop or a call returns does not
    matter for the shape. *)
Ltac shape_step :=
  lazymatch goal with
  | |- always _ (bind _ _) => apply always_bind
  | |- always _ (try_except _ _) => apply always_try_except
  | |- always _ (ret _) => cbn [always ret]; cbv beta iota
  | |- always _ (Ret _) => cbn [always]; cbv beta iota
  | |- always _ (match ?r with _ => _ end) => destruct r
  | |- always _ _ =>
      eapply always_mono; [|apply always_trivial]; intros [?|?] _; cbv beta iota
  end.

Ltac shape :=
  cbn [get lift bind]; name_args;
  lazymatch goal with
  | |- context [if ?b then ret restricted else _] => destruct b; cbn [negb]
  end;
  repeat shape_step;
  try (eexists; split; [reflexivity|]; cbn; naive_solver).

Lemma read_file_shape d : always (one_text_block "read_file") (read_file (VDict d)).
Proof. unfold read_file. shape. Qed.

Lemma write_file_shape d : always (one_text_block "write_file") (write_file (VDict d)).
Proof. unfold write_file. shape. Qed.

Lemma list_files_shape d : always (one_text_block "list_files") (list_files (VDict d)).
Proof. unfold list_files. shape. Qed.

Lemma create_directory_shape d :
  always (one_text_block "create_directory") (create_directory (VDict d)).
Proof. unfold create_directory. shape. Qed.

Lemma delete_file_shape d : always (one_text_block "delete_file") (delete_file (VDict d)).
Proof. unfold delete_file. shape. Qed.

Lemma move_file_shape d : always (one_text_block "move_file") (move_file (VDict d)).
Proof. unfold move_file. shape. Qed.

Lemma copy_file_shape d : always (one_text_block "copy_file") (copy_file (VDict d)).
Proof. unfold copy_file. shape. Qed.

Lemma get_file_info_shape d :
  always (one_text_block "get_file_info") (get_file_info (VDict d)).
Proof. unfold get_file_info. shape. Qed.

Lemma search_files_shape d :
  always (one_text_block "search_files") (search_files (VDict d)).
Proof.
  unfold search_files. shape.
  match goal with
  | |- one_text_block _ (Ok (text_result (match ?l with _ => _ end))) => destruct l
  end; (eexists; split; [reflexivity|]; cbn).
  - right; right; left; reflexivity.
  - right; right; right. eexists. split; [|reflexivity]. discriminate.
Qed.

(** C10.  Whatever the arguments mapping and whatever the operating system
    answers, each of the nine handlers returns a tool result whose
    ["content"] is a list of exactly one block of type ["text"]; soft
    errors have the same shape.  The listing of [list_files], the record of
    [get_file_info] and the matches of [search_files] are the [json.dumps]
    text of one list or dict inside that block. *)
Theorem one_text_block_always (name : string) (handler : value -> prog value)
    (d : list (string * value)) :
  In (name, handler) tool_handlers ->
  always (fun r =>
            exists t,
              r = Ok (VDict [("content",
                              VList [VDict [("type", VStr "text"); ("text", VStr t)]])])
              /\ text_form name t)
         (handler (VDict d)).
Proof.
  intros Hin. change (always (one_text_block name) (handler (VDict d))).
  simpl in Hin.
  repeat (destruct Hin as [Hin|Hin]; [injection Hin as <- <-|]);
    [..|contradiction Hin].
  - apply read_file_shape.
  - apply write_file_shape.
  - apply list_files_shape.
  - apply create_directory_shape.
  - apply delete_file_shape.
  - apply move_file_shape.
  - apply copy_file_shape.
  - apply get_file_info_shape.
  - apply search_files_shape.
Qed.

End Facts.
End Results.

(* ===================================================================== *)
(** * Searching *)
(* ===================================================================== *)

Module Search.
Import Server.


Lemma lower_idempotent (s : string) : lower (lower s) = lower s.
Proof.
  induction s as [|a s IH]; simpl; [reflexivity|]. f_equal; [|exact IH].
  destruct a as [[] [] [] [] [] [] [] []]; reflexivity.
Qed.

(** The accumulator of the loop over the lines only grows at its end. *)
Lemma matching_lines_from_acc (pattern_lower : string) (lines : list string) :
  forall (i : Z) (acc : list value),
    matching_lines_from pattern_lower i lines acc
    = (acc ++ matching_lines_from pattern_lower i lines [])%list.
Proof.
  induction lines as [|line lines IH]; intros i acc; simpl.
  - rewrite app_nil_r. reflexivity.
  - rewrite IH. rewrite (IH _ (if contains _ _ then _ else _)).
    destruct (contains (lower line) pattern_lower); simpl.
    + rewrite <- app_assoc. reflexivity.
    + reflexivity.
Qed.


(** Every line containing the pattern is recorded. *)
Lemma matching_lines_from_complete (pattern_lower : string) (lines : list string) :
  forall (i : Z) (n : nat) (line : string),
    lines !! n = Some line ->
    contains (lower line) pattern_lower = true ->
    In (VDict [("line_number", VInt (i + Z.of_nat n));
               ("content", VStr (slice_to 100 (strip line)))])
       (matching_lines_from pattern_lower i lines []).
Proof.
  induction lines as [|l lines IH]; intros i n line Hn Hc; [discriminate|].
  simpl. rewrite matching_lines_from_acc. apply in_or_app.
  destruct n as [|n]; simpl in Hn.
  - injection Hn as ->. rewrite Hc. left. left. rewrite Z.add_0_r. reflexivity.
  - right. replace (i + Z.of_nat (S n)) with (i + 1 + Z.of_nat n) by lia.
    apply IH; assumption.
Qed.


Section Facts.
Context {E : Environ} {L : Libs}.


(** One round of the loop over the files, in any world. *)
Lemma search_files_loop_step W (world : World W) (w : W) (pattern : value)
    (file_path : string) (files : list string) (results : list value) :
  exec (search_files_loop pattern (file_path :: files) results) w
  = match os_call _ (PathIsFile file_path) w with
    | (Ok true, w1) =>
        match os_call _ (OpenReadText file_path (VStr "utf-8") (Some "ignore")) w1 with
        | (Ok content, w2) =>
            exec (search_files_loop pattern files
                    (results ++ match search_content pattern file_path content with
                                | Ok found => found
                                | Raise _ => []
                                end)%list) w2
        | (Raise _, w2) => exec (search_files_loop pattern files results) w2
        end
    | (Ok false, w1) => exec (search_files_loop pattern files results) w1
    | (Raise e, w1) => (Raise e, w1)
    end.
Proof.
  cbn [search_files_loop perform bind exec].
  destruct (os_call _ (PathIsFile file_path) w) as [[[|]|e] w1];
    cbn [bind try_except exec]; try reflexivity.
  destruct (os_call _ (OpenReadText _ _ _) w1) as [[content|e] w2];
    cbn [bind try_except lift ret exec].
  - destruct (search_content pattern file_path content); cbn [bind try_except ret exec];
      reflexivity.
  - rewrite app_nil_r. reflexivity.
Qed.

(** ["Hello"] in the file matches the pattern ["hello"]. *)
Example hello_matches :
  search_content (VStr "hello") "greeting.txt" "Hello"
  = Ok [VDict [("file", VStr "greeting.txt");
               ("matches",
                VList [VDict [("line_number", VInt 1);
                              ("content", VStr "Hello")]])]].
Proof. reflexivity. Qed.

(** ... and so does the pattern ["HELLO"]: both sides are lower-cased. *)
Lemma pattern_case_irrelevant (p p' file_path content : string) :
  lower p = lower p' ->
  search_content (VStr p) file_path content = search_content (VStr p') file_path content.
Proof. intros Heq. unfold search_content. cbn [lower_of exc_bind]. rewrite Heq. reflexivity. Qed.

End Facts.
End Search.

(* ===================================================================== *)
(** * Facts about the disk *)
(* ===================================================================== *)

Module DiskFacts.
Import Server Claims DiskModel.

Lemma relative_to_Some (k k' s : list string) :
  relative_to k k' = Some s <-> k' = (k ++ s)%list.
Proof.
  revert k'. induction k as [|a k IH]; intros k'; simpl.
  - split; [intros [= ->]; reflexivity|intros ->; reflexivity].
  - destruct k' as [|b k']; [split; discriminate|].
    destruct (String.eqb_spec a b) as [->|Hne].
    + rewrite IH. split; [intros ->; reflexivity|intros [= ->]; reflexivity].
    + split; [discriminate|]. intros [= -> _]. contradiction Hne. reflexivity.
Qed.

Lemma relative_to_app (k s : list string) : relative_to k (k ++ s) = Some s.
Proof. apply relative_to_Some. reflexivity. Qed.

Lemma is_under_app (k s : list string) : is_under k (k ++ s) = true.
Proof. unfold is_under. rewrite relative_to_app. reflexivity. Qed.

Lemma is_under_refl (k : list string) : is_under k k = true.
Proof. rewrite <- (app_nil_r k) at 2. apply is_under_app. Qed.

Lemma is_under_true (k k' : list string) :
  is_under k k' = true <-> exists s, k' = (k ++ s)%list.
Proof.
  unfold is_under. destruct (relative_to k k') as [s|] eqn:Hrel.
  - apply relative_to_Some in Hrel. split; eauto.
  - split; [discriminate|]. intros (s & ->). rewrite relative_to_app in Hrel. discriminate.
Qed.

Lemma without_lookup (doomed : list string -> bool) (d : disk) (k : list string) :
  without doomed d !! k = if doomed k then None else d !! k.
Proof.
  unfold without. destruct (doomed k) eqn:Hk.
  - apply map_lookup_filter_None. right. intros n _. simpl. rewrite Hk. discriminate.
  - destruct (d !! k) as [n|] eqn:Hd.
    + apply map_lookup_filter_Some. split; [exact Hd|]. exact Hk.
    + apply map_lookup_filter_None. left. exact Hd.
Qed.


Lemma forallb_false {A} (f : A -> bool) (l : list A) :
  forallb f l = false <-> exists x, In x l /\ f x = false.
Proof.
  induction l as [|a l IH]; simpl.
  - split; [discriminate|]. intros (x & [] & _).
  - rewrite andb_false_iff, IH. split.
    + intros [Ha|(x & Hx & Hf)]; eauto.
    + intros (x & [<-|Hx] & Hf); eauto.
Qed.

Lemma is_child_true (k k' : list string) :
  is_child k k' = true <-> exists c, k' = (k ++ [c])%list.
Proof.
  unfold is_child. destruct (relative_to k k') as [s|] eqn:Hrel.
  - apply relative_to_Some in Hrel. subst k'. split.
    + destruct s as [|c [|c' s]]; try discriminate. eauto.
    + intros (c & Hc). apply app_inv_head in Hc. subst s. reflexivity.
  - split; [discriminate|]. intros (c & ->). rewrite relative_to_app in Hrel. discriminate.
Qed.

(** A directory is not empty when it has an entry. *)
Lemma is_empty_dir_false (k : list string) (d : disk) :
  is_empty_dir k d = false <-> exists c n, d !! (k ++ [c])%list = Some n.
Proof.
  unfold is_empty_dir. rewrite forallb_false. split.
  - intros ([k' n] & Hin & Hchild). simpl in Hchild.
    apply negb_false_iff, is_child_true in Hchild. destruct Hchild as (c & ->).
    exists c, n. apply elem_of_map_to_list, list_elem_of_In. exact Hin.
  - intros (c & n & Hd). exists ((k ++ [c])%list, n). split.
    + apply list_elem_of_In, elem_of_map_to_list. exact Hd.
    + simpl. apply negb_false_iff, is_child_true. eauto.
Qed.




Lemma split_no_sep (c : ascii) (s : string) :
  Forall (fun x => has_char c x = false) (split c s).
Proof.
  induction s as [|a s IH]; simpl; [repeat constructor|].
  destruct (Ascii.eqb a c) eqn:Hac; [constructor; [reflexivity|exact IH]|].
  destruct (split c s) as [|h t]; inversion IH; subst;
    constructor; simpl; try rewrite Hac; auto.
Qed.

Lemma split_app_sep (c : ascii) (x rest : string) :
  has_char c x = false ->
  split c (x +:+ String c rest) = x :: split c rest.
Proof.
  induction x as [|a x IH]; simpl.
  - intros _. rewrite Ascii.eqb_refl. reflexivity.
  - intros Hx. apply orb_false_iff in Hx as [Hac Hx]. rewrite Hac, (IH Hx). reflexivity.
Qed.

Lemma split_no_sep_id (c : ascii) (x : string) :
  has_char c x = false -> split c x = [x].
Proof.
  induction x as [|a x IH]; simpl; [reflexivity|].
  intros Hx. apply orb_false_iff in Hx as [Hac Hx]. rewrite Hac, (IH Hx). reflexivity.
Qed.

Lemma split_join (l : list string) :
  l <> [] ->
  Forall (fun x => has_char "/" x = false) l ->
  split "/" (Py.join "/" l) = l.
Proof.
  intros Hne Hall. induction Hall as [|x l Hx Hall IH]; [contradiction Hne; reflexivity|].
  destruct l as [|y l].
  - simpl. apply split_no_sep_id, Hx.
  - change (Py.join "/" (x :: y :: l)) with (x +:+ String "/" (Py.join "/" (y :: l))).
    rewrite split_app_sep by exact Hx. rewrite IH by discriminate. reflexivity.
Qed.

Lemma all_dirs_snoc (d : disk) (parts : list string) (c : string) :
  forall k, all_dirs d k (parts ++ [c])
            = all_dirs d k parts && is_dir_node (d !! (k ++ parts ++ [c])%list).
Proof.
  induction parts as [|p parts IH]; intros k; simpl.
  - rewrite andb_true_r. reflexivity.
  - rewrite IH, <- app_assoc, andb_assoc. reflexivity.
Qed.

Lemma all_missing_snoc (d : disk) (parts : list string) (c : string) :
  forall k, all_missing d k (parts ++ [c]) = true ->
            all_missing d k parts = true /\ d !! (k ++ parts ++ [c])%list = None.
Proof.
  induction parts as [|p parts IH]; intros k; simpl.
  - destruct (d !! (k ++ [c])%list); [discriminate|auto].
  - destruct (d !! (k ++ [p])%list); [discriminate|].
    intros H. apply IH in H. rewrite <- app_assoc in H. exact H.
Qed.

Lemma all_missing_not_dirs (d : disk) (parts : list string) :
  forall k, parts <> [] -> all_missing d k parts = true -> all_dirs d k parts = false.
Proof.
  destruct parts as [|p parts]; intros k Hne; [contradiction Hne; reflexivity|].
  simpl. destruct (d !! (k ++ [p])%list); [discriminate|reflexivity].
Qed.

(** A chain that can still be extended: its front part is kept, and the
    node at its end is a directory or missing. *)
Lemma dirs_then_missing_snoc (d : disk) (parts : list string) (c : string) :
  forall k,
    dirs_then_missing d k (parts ++ [c]) = true ->
    dirs_then_missing d k parts = true
    /\ (if all_dirs d k parts
        then is_file_node (d !! (k ++ parts ++ [c])%list) = false
        else d !! (k ++ parts ++ [c])%list = None).
Proof.
  induction parts as [|p parts IH]; intros k; simpl.
  - destruct (d !! (k ++ [c])%list) as [[? ?|?]|]; try discriminate; auto.
  - destruct (d !! (k ++ [p])%list) as [[? ?|?]|] eqn:Hp; try discriminate; simpl.
    + intros H. apply IH in H. rewrite <- app_assoc in H. exact H.
    + intros H. apply all_missing_snoc in H. rewrite <- app_assoc in H. exact H.
Qed.

Lemma proper_step (c : string) :
  proper c = true ->
  (String.eqb c "" || String.eqb c ".") = false /\ String.eqb c ".." = false.
Proof.
  unfold proper. rewrite negb_true_iff, !orb_false_iff. tauto.
Qed.

Lemma proper_no_slash (c : string) : proper c = true -> has_char "/" c = false.
Proof. unfold proper. rewrite negb_true_iff, !orb_false_iff. tauto. Qed.

Lemma proper_head (c rest : string) :
  proper c = true ->
  String.eqb (c +:+ rest) "" = false /\ startswith (c +:+ rest) "/" = false.
Proof.
  intros Hc. destruct c as [|a c]; [discriminate Hc|].
  apply proper_no_slash in Hc. simpl in Hc. apply orb_false_iff in Hc as [Ha _].
  split; [reflexivity|].
  unfold startswith. change (String a c +:+ rest) with (String a (c +:+ rest)).
  cbn [String.prefix].
  destruct (ascii_dec "/" a) as [<-|]; [discriminate Ha|reflexivity].
Qed.

Section Facts.
Context {E : Environ} {L : Libs} {P : Params}.

(** Removing nodes can only make a walk fail; it never leads it elsewhere. *)
Lemma walk_without (doomed : list string -> bool) (d : disk) (path : string)
    (comps : list string) :
  forall cur,
    (exists e, walk (without doomed d) path cur comps = Raise e)
    \/ walk (without doomed d) path cur comps = walk d path cur comps.
Proof.
  induction comps as [|c comps IH]; intros cur; simpl; [right; reflexivity|].
  rewrite without_lookup. destruct (doomed cur); [left; eauto|].
  destruct (d !! cur) as [[content m|m]|]; [right; reflexivity| |right; reflexivity].
  destruct (_ || _); [apply IH|]. destruct (String.eqb c ".."); apply IH.
Qed.

Lemma locate_without (doomed : list string -> bool) (d : disk) (path : string) :
  (exists e, locate (without doomed d) path = Raise e)
  \/ locate (without doomed d) path = locate d path.
Proof.
  unfold locate. destruct (String.eqb path ""); [right; reflexivity|].
  destruct (startswith path "/"); [apply walk_without|].
  destruct getcwd; [apply walk_without|right; reflexivity].
Qed.

(** After a tree has been removed, the path that named it names nothing. *)
Lemma lookup_path_removed (d : disk) (path : string) (k : list string) :
  locate d path = Ok k ->
  lookup_path (without (is_under k) d) path = None.
Proof.
  intros Hloc. unfold lookup_path.
  destruct (locate_without (is_under k) d path) as [(e & ->)| ->]; [reflexivity|].
  rewrite Hloc, without_lookup, is_under_refl. reflexivity.
Qed.

Lemma lookup_path_located (d : disk) (path : string) (k : list string) :
  locate d path = Ok k -> lookup_path d path = d !! k.
Proof. unfold lookup_path. intros ->. reflexivity. Qed.




(** Creating a node where there was none does not disturb a walk that
    succeeded. *)
Lemma walk_insert_fresh (d : disk) (k0 : list string) (n : node) (path : string)
    (comps : list string) :
  d !! k0 = None ->
  forall cur k,
    walk d path cur comps = Ok k ->
    walk (<[k0 := n]> d) path cur comps = Ok k.
Proof.
  intros Hfresh. induction comps as [|c comps IH]; intros cur k; simpl; [auto|].
  destruct (d !! cur) as [[content m|m]|] eqn:Hcur; try discriminate.
  assert (k0 <> cur) as Hne by congruence.
  rewrite lookup_insert_ne, Hcur by exact Hne.
  destruct (_ || _); [apply IH|]. destruct (String.eqb c ".."); apply IH.
Qed.

Lemma locate_insert_fresh (d : disk) (k0 : list string) (n : node) (path : string)
    (k : list string) :
  d !! k0 = None ->
  locate d path = Ok k ->
  locate (<[k0 := n]> d) path = Ok k.
Proof.
  intros Hfresh. unfold locate. destruct (String.eqb path ""); [discriminate|].
  destruct (startswith path "/"); [apply walk_insert_fresh, Hfresh|].
  destruct getcwd; [apply walk_insert_fresh, Hfresh|discriminate].
Qed.

Lemma os_mkdir_raise (self : string) (d d' : disk) (e : exn) :
  os_mkdir self d = (Raise e, d') -> d' = d.
Proof.
  unfold os_mkdir. destruct (locate d self) as [k|e']; [|intros [= _ <-]; reflexivity].
  destruct (d !! k); [intros [= _ <-]; reflexivity|discriminate].
Qed.

Lemma os_mkdir_ok (self : string) (d d' : disk) (u : unit) :
  os_mkdir self d = (Ok u, d') -> is_dir_node (lookup_path d' self) = true.
Proof.
  unfold os_mkdir. destruct (locate d self) as [k|e'] eqn:Hloc; [|discriminate].
  destruct (d !! k) eqn:Hk; [discriminate|]. intros [= _ <-].
  unfold lookup_path. rewrite (locate_insert_fresh d k _ self k Hk Hloc).
  rewrite lookup_insert_eq. reflexivity.
Qed.

Lemma os_mkdir_existing (self : string) (d : disk) :
  is_dir_node (lookup_path d self) = true ->
  os_mkdir self d = (Raise (EEXIST self), d).
Proof.
  unfold lookup_path, os_mkdir. destruct (locate d self) as [k|e]; [|discriminate].
  destruct (d !! k); [reflexivity|discriminate].
Qed.

Lemma mkdir_once_ok (self : string) (exist_ok : bool) (d d' : disk) (u : unit) :
  mkdir_once self exist_ok d = (Ok u, d') -> is_dir_node (lookup_path d' self) = true.
Proof.
  unfold mkdir_once. destruct (os_mkdir self d) as [[u'|e] d1] eqn:Hmk.
  - intros [= _ <-]. eapply os_mkdir_ok, Hmk.
  - apply os_mkdir_raise in Hmk as ->.
    destruct (exn_class_of e); try discriminate;
      destruct (negb exist_ok || negb (is_dir_node (lookup_path d self))) eqn:Hc;
      try discriminate; intros [= _ <-];
      apply orb_false_iff in Hc as [_ Hc]; apply negb_false_iff in Hc; exact Hc.
Qed.

Lemma path_mkdir_ok (absolute : bool) (rparts : list string) :
  forall (parents exist_ok : bool) (d d' : disk) (u : unit),
    path_mkdir absolute rparts parents exist_ok d = (Ok u, d') ->
    is_dir_node (lookup_path d' (render absolute rparts)) = true.
Proof.
  induction rparts as [|c rparent IH]; intros parents exist_ok d d' u; cbn [path_mkdir].
  all: destruct (os_mkdir _ d) as [[u'|e] d1] eqn:Hmk;
    [intros [= _ <-]; eapply os_mkdir_ok, Hmk|].
  all: apply os_mkdir_raise in Hmk as ->.
  all: destruct (exn_class_of e); try discriminate.
  all: try (destruct (negb exist_ok || negb (is_dir_node (lookup_path d _))) eqn:Hc;
            [discriminate|]; intros [= _ <-];
            apply orb_false_iff in Hc as [_ Hc]; apply negb_false_iff in Hc; exact Hc).
  destruct (negb parents); [discriminate|].
  destruct (path_mkdir absolute rparent true true d) as [[u1|e1] d1]; [|discriminate].
  apply mkdir_once_ok.
Qed.

Lemma path_mkdir_existing (absolute : bool) (rparts : list string) (parents : bool)
    (d : disk) :
  is_dir_node (lookup_path d (render absolute rparts)) = true ->
  path_mkdir absolute rparts parents true d = (Ok tt, d).
Proof.
  intros Hdir. destruct rparts; cbn [path_mkdir];
    rewrite (os_mkdir_existing _ d Hdir); unfold EEXIST, errno;
    cbn [exn_class_of negb orb]; rewrite Hdir; reflexivity.
Qed.

(** C6, amended.  Let the gate accept a path that names a directory with
    at least one entry.  With [recursive] absent or false [delete_file]
    returns the soft error of the failed [rmdir] and the disk is unchanged.
    With [recursive] true, when the path is not the root and does not end
    in [.] or [..], it removes the directory and everything below it and
    nothing else, and [get_file_info] on the path then reports "File not
    found". *)
Theorem delete_directory (args args_rec info_args : list (string * value))
    (path : string) (d : disk) (k : list string) :
  dict_lookup "path" args = Some (VStr path) ->
  dict_lookup "path" args_rec = Some (VStr path) ->
  dict_lookup "path" info_args = Some (VStr path) ->
  flag args "recursive" false = false ->
  flag args_rec "recursive" false = true ->
  is_safe_path (VStr path) = true ->
  locate d path = Ok k ->
  is_dir_node (d !! k) = true ->
  is_empty_dir k d = false ->
  exec (delete_file (VDict args)) d
  = (Ok (text_result ("Error deleting file: [Errno 39] Directory not empty: '"
                      +:+ path +:+ "'")), d)
  /\ (unremovable k path = false ->
      exists d',
        exec (delete_file (VDict args_rec)) d
        = (Ok (text_result ("Successfully deleted: " +:+ path)), d')
        /\ (forall k', is_under k k' = true -> d' !! k' = None)
        /\ (forall k', is_under k k' = false -> d' !! k' = d !! k')
        /\ exec (get_file_info (VDict info_args)) d'
           = (Ok (text_result ("File not found: " +:+ path)), d')).
Proof.
  intros Hpath Hpath' Hpath'' Hrec Hrec' Hsafe Hloc Hdir Hnonempty.
  unfold flag in Hrec, Hrec'.
  assert (lookup_path d path = d !! k) as Hlook by (apply lookup_path_located, Hloc).
  destruct (d !! k) as [[content m|m]|] eqn:Hk; try discriminate Hdir.
  split.
  - unfold delete_file. cbn [get lift bind]. rewrite Hpath, Hsafe, Hrec.
    cbn [negb fspath lift bind try_except perform exec os_call disk_world disk_call].
    rewrite Hlook.
    cbn [is_dir_node negb fspath lift bind try_except perform exec os_call disk_world
         disk_call].
    unfold os_rmdir. rewrite Hloc, Hk, Hnonempty. reflexivity.
  - intros Hremovable. exists (without (is_under k) d).
    split; [|split; [|split]].
    + unfold delete_file. cbn [get lift bind]. rewrite Hpath', Hsafe, Hrec'.
      cbn [negb fspath lift bind try_except perform exec os_call disk_world disk_call].
      rewrite Hlook.
      cbn [is_dir_node negb fspath lift bind try_except perform exec os_call disk_world
           disk_call].
      unfold rmtree. rewrite Hloc, Hk, Hremovable. reflexivity.
    + intros k' Hunder. rewrite without_lookup, Hunder. reflexivity.
    + intros k' Hunder. rewrite without_lookup, Hunder. reflexivity.
    + unfold get_file_info. cbn [get lift bind]. rewrite Hpath'', Hsafe.
      cbn [negb fspath lift bind try_except perform exec os_call disk_world disk_call].
      rewrite (lookup_path_removed d path k Hloc). reflexivity.
Qed.


Lemma walk_dirs (d : disk) (path : string) (parts : list string) (c : string) :
  forall k,
    Forall (fun c => proper c = true) (parts ++ [c]) ->
    is_dir_node (d !! k) = true ->
    all_dirs d k parts = true ->
    walk d path k (parts ++ [c]) = Ok (k ++ parts ++ [c])%list.
Proof.
  induction parts as [|p parts IH]; intros k Hproper Hk Hdirs;
    inversion Hproper as [|? ? Hp Hrest]; subst; simpl.
  - destruct (d !! k) as [[? ?|?]|]; try discriminate Hk.
    destruct (proper_step _ Hp) as [-> ->]. reflexivity.
  - destruct (d !! k) as [[? ?|?]|]; try discriminate Hk.
    destruct (proper_step _ Hp) as [-> ->].
    simpl in Hdirs. apply andb_true_iff in Hdirs as [Hkp Hdirs].
    rewrite (IH _ Hrest Hkp Hdirs), <- app_assoc. reflexivity.
Qed.

Lemma walk_missing (d : disk) (path : string) (parts : list string) (c : string) :
  forall k,
    Forall (fun c => proper c = true) parts ->
    is_dir_node (d !! k) = true ->
    dirs_then_missing d k parts = true ->
    all_dirs d k parts = false ->
    walk d path k (parts ++ [c]) = Raise (ENOENT path).
Proof.
  induction parts as [|p parts IH]; intros k Hproper Hk Hchain Hdirs; [discriminate Hdirs|].
  inversion Hproper as [|? ? Hp Hrest]; subst. simpl.
  destruct (d !! k) as [[? ?|?]|]; try discriminate Hk.
  destruct (proper_step _ Hp) as [-> ->].
  simpl in Hchain, Hdirs.
  destruct (d !! (k ++ [p])%list) as [[? ?|?]|] eqn:Hkp; try discriminate Hchain.
  - apply IH; try assumption. rewrite Hkp. reflexivity.
  - destruct parts; simpl; rewrite Hkp; reflexivity.
Qed.

Lemma locate_render (d : disk) (absolute : bool) (rparts : list string) (k : list string) :
  anchor absolute = Ok k ->
  is_dir_node (d !! k) = true ->
  Forall (fun c => proper c = true) rparts ->
  rparts <> [] ->
  locate d (render absolute rparts)
  = walk d (render absolute rparts) k (rev rparts).
Proof.
  intros Hanchor Hk Hproper Hne.
  assert (Forall (fun c => proper c = true) (rev rparts)) as Hrev
    by (apply Forall_rev, Hproper).
  assert (rev rparts <> []) as Hne'.
  { intros Hnil. apply Hne. rewrite <- (rev_involutive rparts), Hnil. reflexivity. }
  assert (render absolute rparts
          = (if absolute then "/" else "") +:+ Py.join "/" (rev rparts)) as Hrender
    by (destruct rparts; [contradiction Hne; reflexivity|reflexivity]).
  assert (names (Py.join "/" (rev rparts)) = rev rparts) as Hnames.
  { apply split_join; [exact Hne'|].
    eapply Forall_impl; [exact Hrev|]. intros c. apply proper_no_slash. }
  destruct (rev rparts) as [|p ps] eqn:Hps; [contradiction Hne'; reflexivity|].
  inversion Hrev as [|? ? Hp _]; subst.
  assert (exists rest, Py.join "/" (p :: ps) = p +:+ rest) as (rest & Hjoin).
  { destruct ps; [exists ""|eexists; reflexivity].
    simpl. clear. induction p as [|a p IH]; [reflexivity|].
    change (String a p +:+ "") with (String a (p +:+ "")). congruence. }
  unfold locate. rewrite Hrender. unfold anchor in Hanchor.
  destruct absolute.
  - injection Hanchor as <-.
    set (joined := Py.join "/" (p :: ps)) in *.
    assert (String.eqb ("/" +:+ joined) "" = false) as -> by reflexivity.
    assert (startswith ("/" +:+ joined) "/" = true) as ->
      by (unfold startswith; destruct joined; reflexivity).
    assert (names ("/" +:+ joined) = "" :: names joined) as -> by reflexivity.
    rewrite Hnames. cbn [walk].
    destruct (d !! []) as [[? ?|?]|]; try discriminate Hk. reflexivity.
  - change ("" +:+ Py.join "/" (p :: ps)) with (Py.join "/" (p :: ps)). rewrite Hjoin.
    destruct (proper_head p rest Hp) as [-> ->].
    destruct getcwd as [cwd|e]; [|discriminate Hanchor].
    injection Hanchor as <-. rewrite <- Hjoin, Hnames. reflexivity.
Qed.

Lemma lookup_render_nil (d : disk) (absolute : bool) (k : list string) :
  anchor absolute = Ok k ->
  is_dir_node (d !! k) = true ->
  lookup_path d (render absolute []) = d !! k.
Proof.
  intros Hanchor Hk. unfold lookup_path, locate, anchor in *. destruct absolute; simpl.
  - injection Hanchor as <-. destruct (d !! []) as [[? ?|?]|] eqn:Hroot; try discriminate Hk.
    rewrite Hroot. reflexivity.
  - change (startswith "." "/") with false. cbn iota.
    destruct getcwd as [cwd|e]; [|discriminate Hanchor]. injection Hanchor as <-.
    simpl. destruct (d !! filter _ _) as [[? ?|?]|] eqn:Hcwd; try discriminate Hk.
    rewrite Hcwd. reflexivity.
Qed.

Lemma all_dirs_mono (d d' : disk) (parts : list string) :
  (forall k n, d !! k = Some n -> d' !! k = Some n) ->
  forall k, all_dirs d k parts = true -> all_dirs d' k parts = true.
Proof.
  intros Hmono. induction parts as [|p parts IH]; intros k; simpl; [reflexivity|].
  rewrite !andb_true_iff. intros [Hp Hrest]. split; [|apply IH, Hrest].
  destruct (d !! (k ++ [p])%list) as [[? ?|?]|] eqn:Hkp; try discriminate Hp.
  rewrite (Hmono _ _ Hkp). reflexivity.
Qed.

(** [mkdir] with [parents] along a chain of existing directories followed
    by names that do not exist: it succeeds, and afterwards the whole chain
    consists of directories.  Nothing is removed or replaced. *)
Lemma path_mkdir_parents (absolute : bool) (k : list string) :
  anchor absolute = Ok k ->
  forall (rparts : list string) (d : disk),
    Forall (fun c => proper c = true) rparts ->
    is_dir_node (d !! k) = true ->
    dirs_then_missing d k (rev rparts) = true ->
    exists d',
      path_mkdir absolute rparts true true d = (Ok tt, d')
      /\ all_dirs d' k (rev rparts) = true
      /\ (forall k' n, d !! k' = Some n -> d' !! k' = Some n)
      /\ (forall k', (length k + length rparts < length k')%nat -> d' !! k' = d !! k').
Proof.
  intros Hanchor. induction rparts as [|c rparent IH]; intros d Hproper Hk Hchain.
  - exists d. split; [|auto].
    apply path_mkdir_existing. rewrite (lookup_render_nil d absolute k Hanchor Hk). exact Hk.
  - inversion Hproper as [|? ? Hc Hrest]; subst.
    assert (Forall (fun c => proper c = true) (rev rparent)) as Hrev by (apply Forall_rev, Hrest).
    cbn [rev] in Hchain |- *.
    apply dirs_then_missing_snoc in Hchain as [Hchain Hend].
    set (self := render absolute (c :: rparent)) in *.
    set (key := (k ++ rev rparent ++ [c])%list) in *.
    assert (forall d0, is_dir_node (d0 !! k) = true ->
                       all_dirs d0 k (rev rparent) = true ->
                       locate d0 self = Ok key) as Hlocate.
    { intros d0 Hk0 Hdirs0. unfold self.
      rewrite (locate_render d0 absolute (c :: rparent) k Hanchor Hk0 Hproper) by discriminate.
      cbn [rev]. apply walk_dirs; try assumption.
      apply Forall_app. split; [exact Hrev|repeat constructor; exact Hc]. }
    assert (length key = S (length k + length rparent)) as Hlen.
    { unfold key. rewrite !length_app, length_rev. simpl. lia. }
    assert (forall d0, is_dir_node (d0 !! k) = true ->
                       all_dirs d0 k (rev rparent) = true ->
                       d0 !! key = None ->
                       (forall k' n, d !! k' = Some n -> d0 !! k' = Some n) ->
                       (forall k', (length k + length rparent < length k')%nat ->
                                   d0 !! k' = d !! k') ->
                       os_mkdir self d0 = (Ok tt, <[key := Dir fresh_meta]> d0)
                       /\ all_dirs (<[key := Dir fresh_meta]> d0) k (rev rparent ++ [c]) = true
                       /\ (forall k' n, d !! k' = Some n ->
                                        <[key := Dir fresh_meta]> d0 !! k' = Some n)
                       /\ (forall k', (length k + length (c :: rparent) < length k')%nat ->
                                      <[key := Dir fresh_meta]> d0 !! k' = d !! k')) as Hcreate.
    { intros d0 Hk0 Hdirs0 Hkey0 Hmono0 Hframe0. split; [|split; [|split]].
      - unfold os_mkdir. rewrite (Hlocate d0 Hk0 Hdirs0), Hkey0. reflexivity.
      - rewrite all_dirs_snoc. apply andb_true_iff. split.
        + apply (all_dirs_mono d0); [|exact Hdirs0].
          intros k' n Hk'. rewrite lookup_insert_ne by congruence. exact Hk'.
        + fold key. rewrite lookup_insert_eq. reflexivity.
      - intros k' n Hk'. rewrite lookup_insert_ne; [apply Hmono0, Hk'|].
        intros <-. rewrite (Hmono0 _ _ Hk') in Hkey0. discriminate.
      - intros k' Hk'. simpl in Hk'. rewrite lookup_insert_ne; [apply Hframe0; lia|].
        intros <-. lia. }
    destruct (all_dirs d k (rev rparent)) eqn:Hdirs.
    + destruct (d !! key) as [[content m|m]|] eqn:Hkey; [discriminate Hend| |].
      * exists d. split; [|split; [|auto]].
        -- apply path_mkdir_existing. fold self. unfold lookup_path.
           rewrite (Hlocate d Hk Hdirs), Hkey. reflexivity.
        -- rewrite all_dirs_snoc, Hdirs. fold key. rewrite Hkey. reflexivity.
      * destruct (Hcreate d Hk Hdirs Hkey) as (Hmk & Hall & Hmono & Hframe); [auto..|].
        exists (<[key := Dir fresh_meta]> d). split; [|auto].
        cbn [path_mkdir]. fold self. rewrite Hmk. reflexivity.
    + assert (os_mkdir self d = (Raise (ENOENT self), d)) as Hmk.
      { unfold os_mkdir, self.
        rewrite (locate_render d absolute (c :: rparent) k Hanchor Hk Hproper) by discriminate.
        cbn [rev]. rewrite (walk_missing d _ (rev rparent) c k Hrev Hk Hchain Hdirs).
        reflexivity. }
      destruct (IH d Hrest Hk Hchain) as (d1 & Hparent & Hdirs1 & Hmono1 & Hframe1).
      assert (is_dir_node (d1 !! k) = true) as Hk1.
      { destruct (d !! k) as [[? ?|?]|] eqn:Hdk; try discriminate Hk.
        rewrite (Hmono1 _ _ Hdk). reflexivity. }
      assert (d1 !! key = None) as Hkey1.
      { rewrite Hframe1 by lia. exact Hend. }
      destruct (Hcreate d1 Hk1 Hdirs1 Hkey1 Hmono1 Hframe1) as (Hmk1 & Hall & Hmono & Hframe).
      exists (<[key := Dir fresh_meta]> d1). split; [|auto].
      cbn [path_mkdir]. fold self. rewrite Hmk.
      unfold ENOENT, errno. cbn [exn_class_of negb]. rewrite Hparent.
      unfold mkdir_once. rewrite Hmk1. reflexivity.
Qed.
(** C9, amended.  For a path the gate accepts: whenever a call of
    [create_directory] succeeds, a second call in succession succeeds with
    the same text and changes nothing; a call on a directory that already
    exists succeeds and changes nothing; and with [parents] true both
    calls succeed when the path has no [..] and its names, followed from
    the root or the working directory, are existing directories up to some
    point and do not exist from there on. *)
Theorem create_directory_idempotent (args : list (string * value)) (path : string)
    (d : disk) :
  dict_lookup "path" args = Some (VStr path) ->
  is_safe_path (VStr path) = true ->
  let created := Ok (text_result ("Successfully created directory: " +:+ path)) in
  (fst (exec (create_directory (VDict args)) d) = created ->
   let d1 := snd (exec (create_directory (VDict args)) d) in
   exec (create_directory (VDict args)) d1 = (created, d1))
  /\ (is_dir_node (lookup_path d (path_str path)) = true ->
      exec (create_directory (VDict args)) d = (created, d))
  /\ (forall k,
        flag args "parents" true = true ->
        anchor (fst (path_parts path)) = Ok k ->
        is_dir_node (d !! k) = true ->
        forallb (fun c => negb (String.eqb c "..")) (snd (path_parts path)) = true ->
        dirs_then_missing d k (rev (snd (path_parts path))) = true ->
        fst (exec (create_directory (VDict args)) d) = created
        /\ let d1 := snd (exec (create_directory (VDict args)) d) in
           exec (create_directory (VDict args)) d1 = (created, d1)).
Proof.
  intros Hpath Hsafe created.
  assert (forall d0, is_dir_node (lookup_path d0 (path_str path)) = true ->
                     exec (create_directory (VDict args)) d0 = (created, d0)) as Hexisting.
  { intros d0 Hdir. unfold create_directory. cbn [get lift bind]. rewrite Hpath, Hsafe.
    cbn [negb fspath lift bind try_except perform exec os_call disk_world disk_call].
    unfold mkdir. unfold path_str in Hdir.
    destruct (path_parts path) as [absolute rparts].
    rewrite (path_mkdir_existing _ _ _ _ Hdir). reflexivity. }
  assert (fst (exec (create_directory (VDict args)) d) = created ->
          let d1 := snd (exec (create_directory (VDict args)) d) in
          exec (create_directory (VDict args)) d1 = (created, d1)) as Hagain.
  { intros Hfirst d1. apply Hexisting. subst d1. revert Hfirst.
    unfold create_directory. cbn [get lift bind]. rewrite Hpath, Hsafe.
    cbn [negb fspath lift bind try_except perform exec os_call disk_world disk_call].
    unfold mkdir, path_str.
    destruct (path_parts path) as [absolute rparts].
    destruct (path_mkdir absolute rparts _ true d) as [[u|e] d1] eqn:Hmk; cbn.
    - intros _. eapply path_mkdir_ok, Hmk.
    - unfold created. intros Heq. exfalso. cbn in Heq. discriminate Heq. }
  split; [exact Hagain|]. split; [apply Hexisting|].
  intros k Hparents Hanchor Hk Hnodots Hchain.
  assert (fst (exec (create_directory (VDict args)) d) = created) as Hfirst.
  { assert (Forall (fun c => proper c = true) (snd (path_parts path))) as Hproper.
    { apply Forall_forall. intros c Hin.
      apply list_elem_of_In in Hin.
      rewrite forallb_forall in Hnodots. specialize (Hnodots c Hin).
      unfold path_parts in Hin. cbn [snd] in Hin.
      apply in_rev in Hin. apply list_elem_of_In, list_elem_of_filter in Hin.
      destruct Hin as [[Hnonempty Hnodot] Hin].
      pose proof (split_no_sep "/" path) as Hsep. rewrite Forall_forall in Hsep.
      specialize (Hsep c Hin). cbv beta in Hsep.
      unfold proper. rewrite Hsep.
      apply negb_true_iff in Hnodots. rewrite Hnodots.
      apply String.eqb_neq in Hnonempty, Hnodot. rewrite Hnonempty, Hnodot. reflexivity. }
    unfold flag in Hparents.
    unfold create_directory. cbn [get lift bind]. rewrite Hpath, Hsafe.
    cbn [negb fspath lift bind try_except perform exec os_call disk_world disk_call].
    unfold mkdir. destruct (path_parts path) as [absolute rparts]. cbn [fst snd] in *.
    rewrite Hparents.
    destruct (path_mkdir_parents absolute k Hanchor rparts d Hproper Hk Hchain)
      as (d' & -> & _). reflexivity. }
  split; [exact Hfirst|apply Hagain, Hfirst].
Qed.

End Facts.
End DiskFacts.

(* ===================================================================== *)
(** * The claims on the fixture *)
(* ===================================================================== *)

Module OnFixture.
Import Server Claims DiskModel Fixture.

(** The gate on some paths: a denied prefix, a sibling that shares it, a
    traversal into it, a second leading slash, a home directory, a value
    that is not a string. *)
Example gate_examples :
  is_safe_path (VStr "/etc/passwd") = false
  /\ is_safe_path (VStr "/etc2/notes") = false
  /\ is_safe_path (VStr "../../../etc/passwd") = false
  /\ is_safe_path (VStr "//etc/passwd") = true
  /\ is_safe_path (VStr "~/notes.txt") = true
  /\ is_safe_path (VInt 5) = false.
Proof. vm_compute. repeat split; reflexivity. Qed.

(** [read_file] on [/etc/passwd] is refused without touching the disk. *)
Lemma gate_short_circuits_witness :
  read_file (VDict [("path", VStr "/etc/passwd")])
  = Ret (Ok (text_result "Error: Access to this path is restricted"))
  /\ makes_no_call (read_file (VDict [("path", VStr "/etc/passwd")]))
  /\ forall W (world : World W) (w : W),
       exec (read_file (VDict [("path", VStr "/etc/passwd")])) w
       = (Ok (text_result "Error: Access to this path is restricted"), w).
Proof.
  apply (Handlers.gate_short_circuits "read_file" read_file
           [("path", VStr "/etc/passwd")] "path" (VStr "") (VStr "/etc/passwd")).
  - simpl. left. reflexivity.
  - simpl. left. reflexivity.
  - reflexivity.
  - vm_compute. reflexivity.
Defined.


Lemma failures_are_soft_witness :
  narrates text_reads (failure_text "search_files") (search_files (VDict []))
  /\ always (fun r => exists t, r = Ok (text_result t)) (search_files (VDict [])).
Proof.
  apply (Failures.failures_are_soft "search_files" search_files []).
  simpl. do 8 right. left. reflexivity.
Defined.

Lemma one_text_block_always_witness :
  always (fun r =>
            exists t,
              r = Ok (VDict [("content",
                              VList [VDict [("type", VStr "text"); ("text", VStr t)]])])
              /\ text_form "list_files" t)
         (list_files (VDict [("path", VStr "proj"); ("recursive", VBool true)])).
Proof.
  apply (Results.one_text_block_always "list_files" list_files).
  simpl. do 2 right. left. reflexivity.
Defined.


(** Deleting [proj], which holds [a.txt] and [sub/b.txt]. *)
Lemma delete_directory_witness :
  exec (delete_file (VDict [("path", VStr "proj")])) sample
  = (Ok (text_result "Error deleting file: [Errno 39] Directory not empty: 'proj'"),
     sample)
  /\ exists d',
       exec (delete_file (VDict [("path", VStr "proj"); ("recursive", VBool true)])) sample
       = (Ok (text_result "Successfully deleted: proj"), d')
       /\ (forall k', is_under ["home"; "user"; "work"; "proj"] k' = true -> d' !! k' = None)
       /\ (forall k', is_under ["home"; "user"; "work"; "proj"] k' = false ->
                      d' !! k' = sample !! k')
       /\ exec (get_file_info (VDict [("path", VStr "proj")])) d'
          = (Ok (text_result "File not found: proj"), d').
Proof.
  destruct (DiskFacts.delete_directory
              [("path", VStr "proj")]
              [("path", VStr "proj"); ("recursive", VBool true)]
              [("path", VStr "proj")]
              "proj" sample ["home"; "user"; "work"; "proj"]
              eq_refl eq_refl eq_refl eq_refl eq_refl) as [Hplain Hrec].
  - vm_compute. reflexivity.
  - vm_compute. reflexivity.
  - vm_compute. reflexivity.
  - vm_compute. reflexivity.
  - split; [exact Hplain|]. apply Hrec. vm_compute. reflexivity.
Defined.

(** C6 as stated fails in two ways.  [/etc] is a directory with an entry,
    and [delete_file] with [recursive] true does not remove it: the gate
    refuses.  And the working directory, named [.], is accepted by the
    gate and has entries, but is not removed either. *)
Lemma delete_directory_not_always :
  ~ (forall (args : list (string * value)) (path : string) (d : disk) (k : list string),
       dict_lookup "path" args = Some (VStr path) ->
       flag args "recursive" false = true ->
       locate d path = Ok k ->
       is_dir_node (d !! k) = true ->
       is_empty_dir k d = false ->
       exists d',
         exec (delete_file (VDict args)) d
         = (Ok (text_result ("Successfully deleted: " +:+ path)), d')
         /\ d' !! k = None)
  /\ ~ (forall (args : list (string * value)) (path : string) (d : disk) (k : list string),
         dict_lookup "path" args = Some (VStr path) ->
         flag args "recursive" false = true ->
         is_safe_path (VStr path) = true ->
         locate d path = Ok k ->
         is_dir_node (d !! k) = true ->
         is_empty_dir k d = false ->
         exists d',
           exec (delete_file (VDict args)) d
           = (Ok (text_result ("Successfully deleted: " +:+ path)), d')
           /\ d' !! k = None).
Proof.
  split.
  - intros Hall.
    destruct (Hall [("path", VStr "/etc"); ("recursive", VBool true)] "/etc" sample ["etc"])
      as (d' & Hexec & _); try (vm_compute; reflexivity).
    assert (fst (exec (delete_file (VDict [("path", VStr "/etc"); ("recursive", VBool true)]))
                   sample)
            = Ok (text_result "Error: Access to this path is restricted")) as Hreal
      by (vm_compute; reflexivity).
    rewrite Hexec in Hreal. discriminate Hreal.
  - intros Hall.
    destruct (Hall [("path", VStr "."); ("recursive", VBool true)] "." sample
                ["home"; "user"; "work"])
      as (d' & Hexec & _); try (vm_compute; reflexivity).
    assert (fst (exec (delete_file (VDict [("path", VStr "."); ("recursive", VBool true)]))
                   sample)
            = Ok (text_result "Error deleting file: [Errno 22] Invalid argument: '.'"))
      as Hreal by (vm_compute; reflexivity).
    rewrite Hexec in Hreal. discriminate Hreal.
Qed.




(** Creating [x/y] below the working directory, twice; and creating
    [proj], which exists. *)
Lemma create_directory_idempotent_witness :
  (let d1 := snd (exec (create_directory (VDict [("path", VStr "x/y")])) sample) in
   exec (create_directory (VDict [("path", VStr "x/y")])) d1
   = (Ok (text_result "Successfully created directory: x/y"), d1))
  /\ exec (create_directory (VDict [("path", VStr "proj")])) sample
     = (Ok (text_result "Successfully created directory: proj"), sample)
  /\ (fst (exec (create_directory (VDict [("path", VStr "proj/new/deeper")])) sample)
      = Ok (text_result "Successfully created directory: proj/new/deeper")
      /\ let d1 := snd (exec (create_directory (VDict [("path", VStr "proj/new/deeper")]))
                         sample) in
         exec (create_directory (VDict [("path", VStr "proj/new/deeper")])) d1
         = (Ok (text_result "Successfully created directory: proj/new/deeper"), d1)).
Proof.
  split; [|split].
  - refine (proj1 (DiskFacts.create_directory_idempotent
                     [("path", VStr "x/y")] "x/y" sample eq_refl _) _).
    + vm_compute. reflexivity.
    + vm_compute. reflexivity.
  - refine (proj1 (proj2 (DiskFacts.create_directory_idempotent
                            [("path", VStr "proj")] "proj" sample eq_refl _)) _).
    + vm_compute. reflexivity.
    + vm_compute. reflexivity.
  - refine (proj2 (proj2 (DiskFacts.create_directory_idempotent
                            [("path", VStr "proj/new/deeper")] "proj/new/deeper" sample
                            eq_refl _))
              ["home"; "user"; "work"] eq_refl _ _ _ _).
    + vm_compute. reflexivity.
    + vm_compute. reflexivity.
    + vm_compute. reflexivity.
    + vm_compute. reflexivity.
    + vm_compute. reflexivity.
Defined.

(** C9 as stated fails: [notes.txt] is accepted by the gate and [parents]
    is true, but the path names a regular file, and both calls end with
    the soft error of the failed [mkdir]. *)
Lemma create_directory_not_always :
  ~ (forall (args : list (string * value)) (path : string) (d : disk),
       dict_lookup "path" args = Some (VStr path) ->
       is_safe_path (VStr path) = true ->
       flag args "parents" true = true
       \/ is_dir_node (lookup_path d (path_str path)) = true ->
       fst (exec (create_directory (VDict args)) d)
       = Ok (text_result ("Successfully created directory: " +:+ path))
       /\ fst (exec (create_directory (VDict args))
                 (snd (exec (create_directory (VDict args)) d)))
          = Ok (text_result ("Successfully created directory: " +:+ path))).
Proof.
  intros Hall.
  destruct (Hall [("path", VStr "notes.txt"); ("parents", VBool true)] "notes.txt" sample)
    as [Hfirst _].
  - reflexivity.
  - vm_compute. reflexivity.
  - left. reflexivity.
  - assert (fst (exec (create_directory (VDict [("path", VStr "notes.txt");
                                                ("parents", VBool true)])) sample)
            = Ok (text_result
                    "Error creating directory: [Errno 17] File exists: 'notes.txt'"))
      as Hreal by (vm_compute; reflexivity).
    rewrite Hfirst in Hreal. discriminate Hreal.
Qed.


End OnFixture.

(* ===================================================================== *)
(** * The protocol: responses, the loop, the registry *)
(* ===================================================================== *)

Module ProtocolFacts.
Import Server Claims Protocol.

Lemma dict_lookup_snoc (k k' : string) (v : value) (d : list (string * value)) :
  dict_lookup k (d ++ [(k', v)])
  = match dict_lookup k d with
    | Some x => Some x
    | None => if String.eqb k k' then Some v else None
    end.
Proof.
  induction d as [|[k0 v0] d IH]; simpl; [reflexivity|].
  destruct (String.eqb k k0); [reflexivity|exact IH].
Qed.

Section Facts.
Context {E : Environ} {L : Libs}.

Lemma tool_handlers_lookup (name : string) (handler : value -> prog value) :
  In (name, handler) tool_handlers ->
  table_get tool_handlers (VStr name) = Ok (Some handler).
Proof.
  intros Hin. simpl in Hin.
  repeat (destruct Hin as [Hin|Hin]; [injection Hin as <- <-; reflexivity|]).
  contradiction Hin.
Qed.

(** Called with something that is not a mapping, every handler raises
    [AttributeError] at its first [args.get], before its [try]. *)
Lemma handlers_reject_non_mapping (name : string) (handler : value -> prog value)
    (args : value) :
  In (name, handler) tool_handlers ->
  (forall d, args <> VDict d) ->
  handler args = Ret (Raise (no_attribute args "get")).
Proof.
  intros Hin Hnot. simpl in Hin.
  repeat (destruct Hin as [Hin|Hin];
          [injection Hin as <- <-;
           destruct args; try reflexivity; exfalso; eapply Hnot; reflexivity|]).
  contradiction Hin.
Qed.

(** X1.  A request that is an object whose ["method"] can be looked up is
    answered with a well-formed response carrying the request's id (null
    when it has none), whatever the handler does and whatever the operating
    system answers: the dispatcher never raises on such a request. *)
Theorem response_echoes_id (request : list (string * value)) (method id : value) :
  get (VDict request) "method" VNone = Ok method ->
  get (VDict request) "id" VNone = Ok id ->
  hashable method = true ->
  always (fun r => exists response, r = Ok response /\ well_formed_response id response)
         (handle_request (VDict request)).
Proof.
  intros Hmethod Hid Hhash.
  assert (forall result, well_formed_response id (result_response id result)) as Hres.
  { intros result. repeat split. left. split; [eexists|]; reflexivity. }
  assert (forall code message, code = -32601 \/ code = -32603 ->
            well_formed_response id (error_response id code message)) as Herr.
  { intros code message Hcode. repeat split. right. split; [reflexivity|].
    exists code, message. split; [reflexivity|exact Hcode]. }
  unfold handle_request. rewrite Hmethod. cbn [lift bind].
  unfold table_get. rewrite Hhash. cbn [lift bind].
  destruct (match method with
            | VStr s => snd <$> List.find (fun kv => String.eqb s (fst kv)) handlers
            | _ => None
            end) as [handler|].
  - apply always_try_except. apply always_bind.
    eapply always_mono; [|apply always_trivial].
    intros [result|e] _; rewrite Hid; cbn [lift bind ret always]; eauto.
  - rewrite Hid. cbn [lift bind ret always]. eauto.
Qed.

(** X2.  The loop prints exactly one line for every line it reads, in any
    world, and reads nothing after the first empty read: running on the
    whole input is running on the part before the end of the input. *)
Theorem run_answers_each_line W (world : World W) (w : W) (stdin : list string) :
  exists printed w',
    exec (run stdin) w = (Ok printed, w')
    /\ length printed = length (until_eof stdin)
    /\ exec (run (until_eof stdin)) w = (Ok printed, w').
Proof.
  revert w. induction stdin as [|line stdin' IH]; intros w.
  - exists [], w. repeat split.
  - cbn [run until_eof]. destruct (String.eqb line "") eqn:Hline.
    + exists [], w. repeat split.
    + cbn [run]. rewrite Hline. rewrite !exec_bind.
      pose proof (always_exec _ (serve_line line) w (Dispatch.serve_line_total line))
        as (printed & Hprinted).
      destruct (exec (serve_line line) w) as [r w1]. simpl in Hprinted. subst r.
      rewrite !exec_bind.
      destruct (IH w1) as (rest & w' & Hrest & Hlen & Heof).
      rewrite Hrest, Heof. exists (printed :: rest), w'.
      repeat split. simpl. rewrite Hlen. reflexivity.
Qed.

(** X3.  The tools that [tools/list] advertises are exactly the tools that
    [tools/call] can reach: nine descriptors with distinct names, each made
    of a name, a description and an input schema, and a name is advertised
    if and only if the handler table has a handler for it. *)
Theorem advertised_tools_are_callable :
  exists advertised,
    (forall request,
       handle_list_tools request = Ret (Ok (VDict [("tools", VList advertised)])))
    /\ length advertised = 9%nat
    /\ NoDup (member "name" <$> advertised)
    /\ Forall (fun descriptor =>
                 exists name description schema,
                   descriptor = VDict [("name", VStr name);
                                       ("description", VStr description);
                                       ("inputSchema", VDict schema)]) advertised
    /\ forall name,
         In (Some (VStr name)) (member "name" <$> advertised)
         <-> exists handler, table_get tool_handlers (VStr name) = Ok (Some handler).
Proof.
  eexists. split; [intros request; unfold handle_list_tools; cbn; reflexivity|].
  split; [reflexivity|]. split.
  { cbn. repeat (apply NoDup_cons_2;
                 [intros H;
                  repeat (apply elem_of_cons in H; destruct H as [H|H]; [discriminate H|]);
                  apply elem_of_nil in H; exact H|]).
    apply NoDup_nil_2. }
  split.
  { repeat (constructor; [do 3 eexists; reflexivity|]). constructor. }
  intros name. split.
  - cbn. intros Hin.
    repeat (destruct Hin as [Hin|Hin]; [injection Hin as <-; eexists; reflexivity|]).
    contradiction Hin.
  - intros (handler & Hget). cbn in Hget. cbn.
    repeat match type of Hget with
           | context [String.eqb name ?s] =>
               destruct (String.eqb_spec name s) as [->|_]; [tauto|]
           end.
    discriminate Hget.
Qed.

(** X4.  The defaults the schemas declare are the defaults the handlers
    use: leaving an argument out is the same as passing the default its
    schema declares, for every tool and every argument with a declared
    default. *)
Theorem declared_defaults_are_used (name : string) (handler : value -> prog value)
    (d : list (string * value)) (key : string) (default : value) :
  In (name, handler) tool_handlers ->
  In (key, default) (declared_defaults tools name) ->
  dict_lookup key d = None ->
  handler (VDict d) = handler (VDict (d ++ [(key, default)])).
Proof.
  intros Hin Hdecl Habsent. simpl in Hin.
  repeat (destruct Hin as [Hin|Hin]; [injection Hin as <- <-|]);
    [..|contradiction Hin];
    cbn in Hdecl;
    repeat (destruct Hdecl as [Hdecl|Hdecl]; [injection Hdecl as <- <-|]);
    try contradiction Hdecl;
    cbn [read_file write_file list_files create_directory delete_file move_file
         copy_file get_file_info search_files lift get bind];
    rewrite !dict_lookup_snoc, Habsent;
    cbn [String.eqb Ascii.eqb Bool.eqb];
    repeat match goal with
           | |- context [dict_lookup ?k d] => destruct (dict_lookup k d)
           end;
    reflexivity.
Qed.

(** X5.  A line that parses to something the dispatcher cannot look a
    handler up for (a request that is not an object, or whose ["method"] is
    a list or an object) is answered with error -32603 and id null, even
    when the request has an id; nothing is asked of the operating system. *)
Theorem unreadable_request_loses_its_id (line : string) (request : value) :
  json_loads line = Ok request ->
  unreadable request = true ->
  serve_line line
  = Ret (Ok (json_dumps None
               (error_response VNone (-32603)
                  ("Internal error: "
                   +:+ match request with
                       | VDict d =>
                           "unhashable type: '"
                           +:+ type_name (match dict_lookup "method" d with
                                          | Some v => v
                                          | None => VNone
                                          end) +:+ "'"
                       | _ => "'" +:+ type_name request
                              +:+ "' object has no attribute 'get'"
                       end)))).
Proof.
  intros Hloads Hbad. unfold serve_line. rewrite Hloads. cbn [lift bind].
  destruct request as [| | | | | |d]; try reflexivity.
  unfold handle_request. cbn [lift get bind]. cbn [unreadable] in Hbad.
  unfold table_get. apply negb_true_iff in Hbad. rewrite Hbad. reflexivity.
Qed.

(** X6.  A call of a registered tool whose ["arguments"] is not an object
    is answered with error -32603 and the request's id; the handler raises
    at its first read of the arguments, before the gate and before any call
    to the operating system. *)
Theorem arguments_must_be_a_mapping (request params : list (string * value))
    (name : string) (handler : value -> prog value) (arguments id : value) :
  dict_lookup "method" request = Some (VStr "tools/call") ->
  dict_lookup "params" request = Some (VDict params) ->
  dict_lookup "name" params = Some (VStr name) ->
  In (name, handler) tool_handlers ->
  dict_lookup "arguments" params = Some arguments ->
  (forall d, arguments <> VDict d) ->
  get (VDict request) "id" VNone = Ok id ->
  handle_request (VDict request)
  = Ret (Ok (error_response id (-32603)
               ("'" +:+ type_name arguments +:+ "' object has no attribute 'get'"))).
Proof.
  intros Hmethod Hparams Hname Hin Hargs Hnot Hid.
  unfold handle_request. cbn [lift get bind]. rewrite Hmethod.
  cbn [table_get hashable handlers List.find fst snd String.eqb Ascii.eqb Bool.eqb fmap
       option_fmap option_map lift bind].
  unfold handle_call_tool. cbn [lift get bind]. rewrite Hparams.
  cbn [lift get bind]. rewrite Hname, Hargs.
  rewrite (tool_handlers_lookup name handler Hin). cbn [lift bind].
  rewrite (handlers_reject_non_mapping name handler arguments Hin Hnot).
  cbn [bind try_except]. cbn [get] in Hid. injection Hid as <-. reflexivity.
Qed.

(** X7.  A call of a registered tool with an arguments object does what
    the handler does and nothing else: in every world the response is the
    handler's text result under ["result"], with the request's id, and the
    world is left as the handler leaves it.  In particular the handler's
    own "Error ..." texts arrive as results, not as protocol errors. *)
Theorem tool_call_is_transparent (request params d : list (string * value))
    (name : string) (handler : value -> prog value) (id : value)
    W (world : World W) (w : W) :
  dict_lookup "method" request = Some (VStr "tools/call") ->
  get (VDict request) "params" (VDict []) = Ok (VDict params) ->
  dict_lookup "name" params = Some (VStr name) ->
  In (name, handler) tool_handlers ->
  get (VDict params) "arguments" (VDict []) = Ok (VDict d) ->
  get (VDict request) "id" VNone = Ok id ->
  exists t,
    exec (handler (VDict d)) w = (Ok (text_result t), snd (exec (handler (VDict d)) w))
    /\ exec (handle_request (VDict request)) w
       = (Ok (result_response id (text_result t)), snd (exec (handler (VDict d)) w)).
Proof.
  intros Hmethod Hparams Hname Hin Hargs Hid.
  pose proof (always_exec _ _ w
                (Failures.narrates_text _ _ _ (Failures.handlers_narrate name handler d Hin)))
    as (t & Ht).
  exists t. destruct (exec (handler (VDict d)) w) as [r w'] eqn:Hexec.
  simpl in Ht. subst r. split; [reflexivity|]. cbn [snd].
  unfold handle_request. cbn [lift get bind]. rewrite Hmethod.
  cbn [table_get hashable handlers List.find fst snd String.eqb Ascii.eqb Bool.eqb fmap
       option_fmap option_map lift bind].
  rewrite exec_try_except, exec_bind.
  unfold handle_call_tool. rewrite Hparams. cbn [lift get bind]. rewrite Hname.
  cbn [get] in Hargs. injection Hargs as Hargs. rewrite Hargs.
  rewrite (tool_handlers_lookup name handler Hin). cbn [lift bind].
  rewrite Hexec. cbn [get] in Hid. injection Hid as <-. reflexivity.
Qed.

End Facts.
End ProtocolFacts.
(* ===================================================================== *)
(** * Sizes for the reader *)
(* ===================================================================== *)

Module SizeFacts.
Import Server Sizes.

(** A non-negative quotient is printed as the nearest number of
    hundredths, a tie going to the even one. *)
Lemma format_2f_nearest (num den : Z) :
  0 <= num -> 0 < den ->
  exists cents,
    format_2f num den = two_decimals cents
    /\ 0 <= cents
    /\ 2 * Z.abs (100 * num - cents * den) <= den
    /\ (2 * Z.abs (100 * num - cents * den) = den -> Z.even cents = true).
Proof.
  intros Hnum Hden. unfold format_2f.
  rewrite (Z.abs_eq num) by exact Hnum.
  destruct (Z.ltb_spec num 0) as [Hneg|_]; [lia|].
  pose proof (Z.div_mod (num * 100) den ltac:(lia)) as Hdm.
  pose proof (Z.mod_pos_bound (num * 100) den Hden) as Hr.
  assert (0 <= num * 100 / den) as Hq by (apply Z.div_pos; lia).
  set (q := num * 100 / den) in *. set (r := (num * 100) mod den) in *.
  cbv zeta.
  pose proof (Z.mod_pos_bound q 2 ltac:(lia)) as Hq2.
  pose proof (Z.div_mod q 2 ltac:(lia)) as Hqdm.
  destruct (Z.ltb_spec den (2 * r)) as [Hup|Hnotup];
    [|destruct (Z.eqb_spec (2 * r) den) as [Htie|Hdown]].
  - exists (q + 1). split; [reflexivity|]. split; [lia|]. split; [nia|]. nia.
  - exists (q + q mod 2). split; [reflexivity|]. split; [lia|]. split; [nia|].
    intros _. apply Z.even_spec. exists (q / 2 + q mod 2). lia.
  - exists q. split; [reflexivity|]. split; [lia|]. split; [nia|]. nia.
Qed.

(** X8.  A size of [size] bytes lying between [1024^k] and [1024^(k+1)] is
    shown in the [k]-th unit (bytes below 1024, petabytes from [1024^5]
    on), as the number of hundredths of that unit nearest to it, a tie
    going to the even one, with exactly two decimals.  The sizes are those
    below [2^53], which the floating point division keeps exact. *)
Theorem human_readable_size_nearest (size : Z) (k : nat) :
  0 <= size < 2 ^ 53 ->
  (k <= 5)%nat ->
  k = 0%nat \/ 1024 ^ Z.of_nat k <= size ->
  k = 5%nat \/ size < 1024 ^ (Z.of_nat k + 1) ->
  exists cents,
    _human_readable_size size = two_decimals cents +:+ " " +:+ nth k units ""
    /\ 0 <= cents
    /\ 2 * Z.abs (100 * size - cents * 1024 ^ Z.of_nat k) <= 1024 ^ Z.of_nat k
    /\ (2 * Z.abs (100 * size - cents * 1024 ^ Z.of_nat k) = 1024 ^ Z.of_nat k ->
        Z.even cents = true).
Proof.
  intros [Hsize _] Hk Hlow Hhigh.
  assert (forall den u, 0 < den ->
            exists cents,
              format_2f size den +:+ " " +:+ u = two_decimals cents +:+ " " +:+ u
              /\ 0 <= cents
              /\ 2 * Z.abs (100 * size - cents * den) <= den
              /\ (2 * Z.abs (100 * size - cents * den) = den -> Z.even cents = true))
    as Hfmt.
  { intros den u Hden.
    destruct (format_2f_nearest size den Hsize Hden) as (cents & -> & Hrest).
    exists cents. split; [reflexivity|exact Hrest]. }
  unfold _human_readable_size. cbn [human_readable_loop].
  do 6 (destruct k as [|k]; [
    cbn [nth units Z.of_nat Pos.of_succ_nat Pos.succ Z.add Pos.add Z.pow Z.pow_pos
         Pos.iter Z.mul Pos.mul] in *;
    repeat match goal with
           | |- context [Z.ltb size ?b] =>
               destruct (Z.ltb_spec size b); [try lia|try lia]
           end;
    try (apply Hfmt; lia) |]).
  lia.
Qed.

(** Just below a power of 1024 the rounding reaches the next unit's
    threshold without changing the unit. *)
Example human_readable_size_examples :
  _human_readable_size 0 = "0.00 B"
  /\ _human_readable_size 1023 = "1023.00 B"
  /\ _human_readable_size 1024 = "1.00 KB"
  /\ _human_readable_size 1536 = "1.50 KB"
  /\ _human_readable_size 1048575 = "1024.00 KB"
  /\ _human_readable_size (1024 ^ 5) = "1.00 PB".
Proof. vm_compute. repeat split. Qed.

End SizeFacts.
(* ===================================================================== *)
(** * The permissions a file is reported with *)
(* ===================================================================== *)

Module PermissionFacts.
Import Server Sizes.

Lemma append_assoc (a b c : string) : (a +:+ b) +:+ c = a +:+ (b +:+ c).
Proof.
  induction a as [|x a IH]; [reflexivity|].
  change (String x a +:+ b) with (String x (a +:+ b)).
  change (String x (a +:+ b) +:+ c) with (String x ((a +:+ b) +:+ c)).
  change (String x a +:+ (b +:+ c)) with (String x (a +:+ (b +:+ c))).
  rewrite IH. reflexivity.
Qed.

Lemma length_append (a b : string) :
  String.length (a +:+ b) = (String.length a + String.length b)%nat.
Proof.
  induction a as [|x a IH]; [reflexivity|].
  change (String x a +:+ b) with (String x (a +:+ b)). simpl. rewrite IH. reflexivity.
Qed.

Lemma slice_from_append (a b : string) : slice_from (String.length a) (a +:+ b) = b.
Proof.
  induction a as [|x a IH]; [destruct b; reflexivity|].
  change (String x a +:+ b) with (String x (a +:+ b)). simpl. exact IH.
Qed.

(** The digits come out in front of what has been produced so far. *)
Lemma oct_digits_acc (fuel : nat) :
  forall (n : N) (acc : string), exists pre, oct_digits fuel n acc = pre +:+ acc.
Proof.
  induction fuel as [|fuel IH]; intros n acc; [exists ""; reflexivity|].
  cbn [oct_digits]. cbv zeta. destruct (n / 8 =? 0)%N.
  - exists (String (ascii_of_N (48 + n mod 8)) ""). reflexivity.
  - destruct (IH (n / 8)%N (String (ascii_of_N (48 + n mod 8)) acc)) as (pre & ->).
    exists (pre +:+ String (ascii_of_N (48 + n mod 8)) ""). rewrite append_assoc.
    reflexivity.
Qed.

(** X9.  For a mode of at least [0o100] the ["permissions"] that
    [get_file_info] reports are three octal digits, and they are the nine
    permission bits of the mode: owner, group and others. *)
Theorem permissions_are_the_mode_bits (mode : Z) :
  64 <= mode ->
  exists owner group others : Z,
    0 <= owner < 8 /\ 0 <= group < 8 /\ 0 <= others < 8
    /\ 64 * owner + 8 * group + others = mode mod 512
    /\ slice_last 3 (oct mode)
       = String (octal_digit owner)
           (String (octal_digit group) (String (octal_digit others) "")).
Proof.
  intros Hmode. unfold oct. destruct (Z.ltb_spec mode 0) as [Hneg|_]; [lia|].
  assert (Z.of_N (Z.abs_N mode) = mode) as Hmode' by lia.
  generalize dependent (Z.abs_N mode). intros n Hmode'.
  assert (64 <= n)%N as Hn by lia.
  pose proof (N.div_mod n 8 ltac:(lia)) as H0.
  pose proof (N.mod_lt n 8 ltac:(lia)) as H0'.
  pose proof (N.div_mod (n / 8) 8 ltac:(lia)) as H1.
  pose proof (N.mod_lt (n / 8) 8 ltac:(lia)) as H1'.
  pose proof (N.div_mod (n / 8 / 8) 8 ltac:(lia)) as H2.
  pose proof (N.mod_lt (n / 8 / 8) 8 ltac:(lia)) as H2'.
  exists (Z.of_N ((n / 8 / 8) mod 8)), (Z.of_N ((n / 8) mod 8)), (Z.of_N (n mod 8)).
  assert (n / 8 <> 0 /\ n / 8 / 8 <> 0)%N as [Hq1 Hq2].
  { revert H0 H0' H1 H1' H2 H2'.
    generalize (n / 8 / 8 / 8)%N ((n / 8 / 8) mod 8)%N.
    generalize (n / 8 / 8)%N ((n / 8) mod 8)%N.
    generalize (n / 8)%N (n mod 8)%N. lia. }
  assert (0 <= Z.of_N ((n / 8 / 8) mod 8) < 8
          /\ 0 <= Z.of_N ((n / 8) mod 8) < 8
          /\ 0 <= Z.of_N (n mod 8) < 8
          /\ mode = 512 * Z.of_N (n / 8 / 8 / 8)
                    + (64 * Z.of_N ((n / 8 / 8) mod 8) + 8 * Z.of_N ((n / 8) mod 8)
                       + Z.of_N (n mod 8)))
    as (Hu & Hg & Ho & Hsum).
  { revert H0 H0' H1 H1' H2 H2'.
    generalize (n / 8 / 8 / 8)%N ((n / 8 / 8) mod 8)%N.
    generalize (n / 8 / 8)%N ((n / 8) mod 8)%N.
    generalize (n / 8)%N (n mod 8)%N. lia. }
  split; [exact Hu|]. split; [exact Hg|]. split; [exact Ho|]. split.
  { apply (Z.mod_unique_pos _ _ (Z.of_N (n / 8 / 8 / 8))); [|exact Hsum].
    revert Hu Hg Ho.
    generalize (Z.of_N ((n / 8 / 8) mod 8)) (Z.of_N ((n / 8) mod 8)) (Z.of_N (n mod 8)).
    lia. }
  unfold octal_digit. rewrite !N2Z.id.
  assert (exists fuel, S (N.to_nat (N.size n)) = S (S (S fuel))) as (fuel & ->).
  { assert (2 <= N.size n)%N as Hsize.
    { pose proof (N.size_gt n) as Hgt.
      destruct (N.le_gt_cases 2 (N.size n)) as [Hle|Hlt]; [exact Hle|].
      assert (2 ^ N.size n <= 2 ^ 1)%N by (apply N.pow_le_mono_r; lia).
      change (2 ^ 1)%N with 2%N in *. lia. }
    exists (N.to_nat (N.size n) - 2)%nat. lia. }
  cbn [oct_digits]. cbv zeta.
  destruct (N.eqb_spec (n / 8) 0) as [Hz|_]; [contradiction (Hq1 Hz)|].
  destruct (N.eqb_spec (n / 8 / 8) 0) as [Hz|_]; [contradiction (Hq2 Hz)|].
  set (digits := String (ascii_of_N (48 + (n / 8 / 8) mod 8))
                   (String (ascii_of_N (48 + (n / 8) mod 8))
                      (String (ascii_of_N (48 + n mod 8)) ""))).
  assert (exists pre,
            (if (n / 8 / 8 / 8 =? 0)%N then digits
             else oct_digits fuel (n / 8 / 8 / 8) digits) = pre +:+ digits)
    as (pre & ->).
  { destruct (n / 8 / 8 / 8 =? 0)%N; [exists ""; reflexivity|apply oct_digits_acc]. }
  rewrite <- append_assoc. unfold slice_last.
  rewrite length_append. change (String.length digits) with 3%nat.
  replace (String.length ("0o" +:+ pre) + 3 - 3)%nat
    with (String.length ("0o" +:+ pre)) by lia.
  apply slice_from_append.
Qed.

(** Below [0o100] the text is not three digits. *)
Example permissions_of_a_small_mode : slice_last 3 (oct 7) = "0o7".
Proof. reflexivity. Qed.

End PermissionFacts.
(* ===================================================================== *)
(** * What the gate lets through and what it stops *)
(* ===================================================================== *)

Module GateReach.
Import Server Claims.
Section Facts.
Context {E : Environ} {L : Libs}.

Lemma prefix_empty (s : string) : String.prefix "" s = true.
Proof. destruct s; reflexivity. Qed.

Lemma prefix_append (s rest : string) : String.prefix s (s +:+ rest) = true.
Proof.
  induction s as [|a s IH]; [apply prefix_empty|].
  change (String a s +:+ rest) with (String a (s +:+ rest)). cbn [String.prefix].
  destruct (ascii_dec a a) as [_|Hne]; [exact IH|contradiction Hne; reflexivity].
Qed.

(** [normpath] keeps exactly two leading slashes. *)
Lemma normpath_two_slashes (rest : string) :
  startswith rest "/" = false ->
  exists tail, PosixPath.normpath ("//" +:+ rest) = String "/" (String "/" tail).
Proof.
  intros Hrest. unfold PosixPath.normpath.
  change ("//" +:+ rest) with (String "/" (String "/" rest)).
  change (String.eqb (String "/" (String "/" rest)) "") with false.
  change (startswith (String "/" (String "/" rest)) "/") with true.
  change (startswith (String "/" (String "/" rest)) "//") with (String.prefix "" rest).
  change (startswith (String "/" (String "/" rest)) "///") with (startswith rest "/").
  rewrite prefix_empty, Hrest. cbn [andb negb]. cbv zeta.
  set (comps := fold_left _ _ _).
  change (Py.join "" (repeat "/" 2) +:+ Py.join "/" comps)
    with (String "/" (String "/" (Py.join "/" comps))).
  change (String.eqb (String "/" (String "/" (Py.join "/" comps))) "") with false.
  eexists. reflexivity.
Qed.

(** X10.  A path written with exactly two leading slashes passes the gate
    whatever follows them: [normpath] keeps the two slashes, so no prefix
    of the deny list matches.  [read_file] given ["//etc/passwd"] goes on
    to the operating system with that path. *)
Theorem two_slashes_pass_the_gate (rest : string) :
  startswith rest "/" = false ->
  is_safe_path (VStr ("//" +:+ rest)) = true
  /\ forall d, dict_lookup "path" d = Some (VStr ("//" +:+ rest)) ->
       exists k, read_file (VDict d) = Call (GuessType ("//" +:+ rest)) k.
Proof.
  intros Hrest.
  assert (is_safe_path (VStr ("//" +:+ rest)) = true) as Hsafe.
  { unfold is_safe_path, resolve. cbn [fspath exc_bind].
    unfold PosixPath.expanduser.
    change (startswith ("//" +:+ rest) "~") with false. cbn [negb exc_bind].
    unfold PosixPath.abspath.
    change (PosixPath.isabs ("//" +:+ rest)) with true. cbv iota.
    destruct (normpath_two_slashes rest Hrest) as (tail & ->). reflexivity. }
  split; [exact Hsafe|].
  intros d Hd. unfold read_file. cbn [lift get bind]. rewrite Hd, Hsafe.
  cbn [negb fspath lift bind try_except perform]. eexists. reflexivity.
Qed.

(** [normpath] leaves a path of one plain name under the root alone. *)
Lemma normpath_one_name (name : string) :
  DiskModel.proper name = true ->
  PosixPath.normpath ("/" +:+ name) = "/" +:+ name.
Proof.
  intros Hname. pose proof (DiskFacts.proper_no_slash name Hname) as Hslash.
  unfold DiskModel.proper in Hname.
  apply negb_true_iff in Hname.
  apply orb_false_iff in Hname as [Hname _].
  apply orb_false_iff in Hname as [Hname Hdotdot].
  apply orb_false_iff in Hname as [Hempty Hdot].
  unfold PosixPath.normpath.
  change ("/" +:+ name) with (String "/" name).
  change (String.eqb (String "/" name) "") with false.
  change (startswith (String "/" name) "/") with (String.prefix "" name).
  change (startswith (String "/" name) "//") with (startswith name "/").
  rewrite prefix_empty.
  assert (startswith name "/" = false) as ->.
  { destruct name as [|a name]; [reflexivity|].
    cbn [has_char] in Hslash. apply orb_false_iff in Hslash as [Ha _].
    unfold startswith. cbn [String.prefix].
    destruct (ascii_dec "/" a) as [<-|_]; [discriminate Ha|reflexivity]. }
  cbn [andb]. cbv zeta.
  change (split "/" (String "/" name)) with (EmptyString :: split "/" name).
  rewrite (DiskFacts.split_no_sep_id "/" name Hslash).
  cbn [fold_left]. unfold PosixPath.norm_step at 2.
  cbn [String.eqb orb]. unfold PosixPath.norm_step.
  rewrite Hempty, Hdot, Hdotdot. cbn [orb negb app Py.join String.concat repeat].
  change ("/" +:+ name) with (String "/" name).
  reflexivity.
Qed.

(** X11.  The deny list is matched on characters, not on path components:
    every name in the root that merely begins with [etc], [sys] or [proc]
    is refused as well, [/etc] itself and [/etcetera] alike. *)
Theorem siblings_of_denied_are_refused (denied rest : string) :
  In denied ["etc"; "sys"; "proc"] ->
  has_char "/" rest = false ->
  is_safe_path (VStr ("/" +:+ denied +:+ rest)) = false.
Proof.
  intros Hin Hrest.
  assert (DiskModel.proper (denied +:+ rest) = true) as Hproper.
  { unfold DiskModel.proper.
    simpl in Hin; repeat (destruct Hin as [<-|Hin]; [|]); try contradiction Hin;
      match goal with
      | |- context [String ?a ?s +:+ rest] =>
          change (String a s +:+ rest) with (String a (s +:+ rest))
      end;
      cbn [String.eqb Ascii.eqb Bool.eqb orb has_char];
      repeat match goal with
      | |- context [String ?a ?s +:+ rest] =>
          change (String a s +:+ rest) with (String a (s +:+ rest));
          cbn [String.eqb Ascii.eqb Bool.eqb orb has_char]
      end;
      change ("" +:+ rest) with rest; rewrite ?Hrest;
      try reflexivity. }
  unfold is_safe_path, resolve. cbn [fspath exc_bind].
  unfold PosixPath.expanduser.
  change (startswith ("/" +:+ denied +:+ rest) "~") with false. cbn [negb exc_bind].
  unfold PosixPath.abspath.
  change (PosixPath.isabs ("/" +:+ denied +:+ rest))
    with (String.prefix "" (denied +:+ rest)).
  rewrite prefix_empty, (normpath_one_name _ Hproper).
  apply negb_false_iff, Gate.startswith_any_true.
  exists ("/" +:+ denied). split.
  - simpl in Hin. repeat (destruct Hin as [<-|Hin];
            [vm_compute; repeat first [left; reflexivity|right]|]).
    contradiction Hin.
  - simpl in Hin.
    repeat (destruct Hin as [<-|Hin];
            [match goal with
             | |- String.prefix ?pre _ = true => exact (prefix_append pre rest)
             end|]).
    contradiction Hin.
Qed.

(** X12.  The gate is asked about the directory only.  A file pattern
    that starts with a slash replaces the directory when the two are
    joined, so [search_files] and [list_files] hand the pattern itself to
    [glob], whatever directory was checked: with the pattern ["/etc/*"]
    they look into [/etc]. *)
Theorem absolute_pattern_escapes_the_directory (d : list (string * value))
    (directory : value) (file_pattern : string) :
  is_safe_path directory = true ->
  startswith file_pattern "/" = true ->
  (get (VDict d) "directory" (VStr ".") = Ok directory ->
   dict_lookup "file_pattern" d = Some (VStr file_pattern) ->
   exists k, search_files (VDict d) = Call (Glob file_pattern true) k)
  /\ (get (VDict d) "path" (VStr ".") = Ok directory ->
      dict_lookup "pattern" d = Some (VStr file_pattern) ->
      exists k, list_files (VDict d)
                = Call (Glob file_pattern (flag d "recursive" false)) k).
Proof.
  intros Hsafe Habs.
  destruct (Gate.is_safe_path_safe directory Hsafe) as (dir & abs_path & -> & _).
  split; intros Hdir Hpat; cbn [get] in Hdir; injection Hdir as Hdir.
  - unfold search_files. cbn [lift get bind]. rewrite Hdir, Hpat, Hsafe.
    cbn [negb PosixPath.join PosixPath.join_from fspath exc_bind].
    unfold PosixPath.join_step at 1. rewrite Habs.
    cbn [lift bind try_except perform]. eexists. reflexivity.
  - unfold list_files, flag. cbn [lift get bind]. rewrite Hdir, Hpat, Hsafe.
    cbn [negb].
    destruct (truthy _);
      cbn [PosixPath.join PosixPath.join_from fspath exc_bind];
      unfold PosixPath.join_step at 1; rewrite Habs;
      cbn [lift bind try_except perform]; eexists; reflexivity.
Qed.

End Facts.
End GateReach.
(* ===================================================================== *)
(** * Which lines a search reports *)
(* ===================================================================== *)

Module MatchingFacts.
Import Server Matching.

Lemma lower_char_newline (a : ascii) :
  Ascii.eqb (lower_char a) "010" = Ascii.eqb a "010".
Proof. destruct a as [[] [] [] [] [] [] [] []]; reflexivity. Qed.

Lemma lower_has_newline (s : string) : has_char "010" (lower s) = has_char "010" s.
Proof.
  induction s as [|a s IH]; simpl; [reflexivity|].
  rewrite lower_char_newline, IH. reflexivity.
Qed.

(** Lower-casing a text lower-cases its lines. *)
Lemma split_lower (s : string) : split "010" (lower s) = lower <$> split "010" s.
Proof.
  induction s as [|a s IH]; simpl; [reflexivity|].
  rewrite lower_char_newline, IH.
  destruct (Ascii.eqb a "010"); [reflexivity|].
  destruct (split "010" s); reflexivity.
Qed.

Lemma contains_prefix (s sub : string) :
  String.prefix sub s = true -> contains s sub = true.
Proof. intros H. destruct s; cbn [contains]; rewrite H; reflexivity. Qed.

(** A prefix without the separator is a prefix of the first piece. *)
Lemma prefix_first_piece (c : ascii) (sub : string) :
  has_char c sub = false ->
  forall s, String.prefix sub s = true ->
            String.prefix sub (hd "" (split c s)) = true.
Proof.
  induction sub as [|b sub IH]; intros Hsub s Hpre.
  - destruct (hd "" (split c s)); reflexivity.
  - cbn [has_char] in Hsub. apply orb_false_iff in Hsub as [Hbc Hsub].
    destruct s as [|a s]; [discriminate Hpre|].
    cbn [String.prefix] in Hpre.
    destruct (ascii_dec b a) as [<-|]; [|discriminate Hpre].
    specialize (IH Hsub s Hpre).
    cbn [split]. rewrite Hbc.
    destruct (split c s) as [|h t]; cbn [hd] in *; cbn [String.prefix];
      destruct (ascii_dec b b) as [_|Hne]; try (contradiction Hne; reflexivity);
      exact IH.
Qed.

Lemma split_has_head (c : ascii) (s : string) : In (hd "" (split c s)) (split c s).
Proof.
  destruct s as [|a s]; simpl; [auto|].
  destruct (Ascii.eqb a c); [simpl; auto|].
  destruct (split c s); simpl; auto.
Qed.

(** A text that contains a string without the separator has a piece that
    contains it. *)
Lemma contains_piece (c : ascii) (sub : string) :
  has_char c sub = false ->
  forall s, contains s sub = true ->
            exists piece, In piece (split c s) /\ contains piece sub = true.
Proof.
  intros Hsub. induction s as [|a s IH]; intros Hc.
  - exists "". split; [simpl; auto|exact Hc].
  - cbn [contains] in Hc. apply orb_true_iff in Hc as [Hpre|Hc].
    + exists (hd "" (split c (String a s))). split; [apply split_has_head|].
      apply contains_prefix, prefix_first_piece; assumption.
    + destruct (IH Hc) as (piece & Hin & Hpiece). cbn [split].
      destruct (Ascii.eqb a c).
      * exists piece. split; [right; exact Hin|exact Hpiece].
      * destruct (split c s) as [|h t]; [contradiction Hin|].
        destruct Hin as [<-|Hin].
        -- exists (String a h). split; [left; reflexivity|].
           cbn [contains]. rewrite Hpiece. apply orb_true_r.
        -- exists piece. split; [right; exact Hin|exact Hpiece].
Qed.

(** The loop over the lines is a filter. *)
Lemma matching_lines_from_filter (pattern_lower : string) (lines : list string) :
  forall i : Z,
    matching_lines_from pattern_lower i lines []
    = (fun il => VDict [("line_number", VInt (fst il));
                        ("content", VStr (slice_to 100 (strip (snd il))))])
      <$> filter (fun il => contains (lower (snd il)) pattern_lower = true)
                 (enumerate_from i lines).
Proof.
  induction lines as [|line lines IH]; intros i; [reflexivity|].
  cbn [matching_lines_from]. rewrite Search.matching_lines_from_acc, IH.
  unfold enumerate_from. cbn [imap]. rewrite filter_cons. cbn [snd fst].
  assert (imap ((fun n l => (i + Z.of_nat n, l)) ∘ S) lines
          = imap (fun n l => (i + 1 + Z.of_nat n, l)) lines) as ->.
  { apply imap_ext. intros n l _. cbn. f_equal. lia. }
  rewrite Z.add_0_r.
  destruct (decide (contains (lower line) pattern_lower = true)) as [Hc|Hc].
  - rewrite Hc. reflexivity.
  - apply not_true_is_false in Hc. rewrite Hc. reflexivity.
Qed.

Section Facts.
Context {E : Environ} {L : Libs}.

(** X13.  The matches recorded for a file are the first five of its
    matching lines, in the order of the file: the lines are numbered from
    1, those that contain the pattern are kept, and the list is cut after
    five. *)
Theorem first_five_matches_in_order (search_pattern file_path content : string) :
  contains (lower content) (lower search_pattern) = true ->
  search_content (VStr search_pattern) file_path content
  = Ok [VDict [("file", VStr file_path);
               ("matches",
                VList (take 5 (matching_entries (lower search_pattern)
                                 (split "010" content))))]].
Proof.
  intros Hc. unfold search_content. cbn [lower_of exc_bind]. rewrite Hc.
  rewrite matching_lines_from_filter. reflexivity.
Qed.

(** X14.  When the pattern has no line break, a file that is reported has
    at least one match: a text that contains the pattern has a line that
    contains it. *)
Theorem reported_file_has_a_match (search_pattern file_path content : string) :
  has_char "010" search_pattern = false ->
  contains (lower content) (lower search_pattern) = true ->
  exists m matches,
    search_content (VStr search_pattern) file_path content
    = Ok [VDict [("file", VStr file_path); ("matches", VList (m :: matches))]].
Proof.
  intros Hnl Hc. unfold search_content. cbn [lower_of exc_bind]. rewrite Hc.
  rewrite <- lower_has_newline in Hnl.
  destruct (contains_piece "010" _ Hnl _ Hc) as (piece & Hin & Hpiece).
  rewrite split_lower in Hin. apply in_map_iff in Hin as (line & <- & Hin).
  apply list_elem_of_In, list_elem_of_lookup in Hin as (n & Hn).
  pose proof (Search.matching_lines_from_complete _ _ 1 n line Hn Hpiece) as Hrec.
  destruct (matching_lines_from (lower search_pattern) 1 (split "010" content) [])
    as [|m matches]; [contradiction Hrec|].
  exists m, (take 4 matches). reflexivity.
Qed.

(** A pattern that spans a line break is found in the text and in none of
    its lines: the file is reported with no match. *)
Example pattern_across_lines :
  search_content (VStr ("a" +:+ newline +:+ "b")) "f.txt" ("a" +:+ newline +:+ "b")
  = Ok [VDict [("file", VStr "f.txt"); ("matches", VList [])]].
Proof. reflexivity. Qed.

End Facts.
End MatchingFacts.

(* ===================================================================== *)
(** * Which paths a listing reports *)
(* ===================================================================== *)

Module ListingFacts.
Import Server Claims Protocol.
Section Facts.
Context {E : Environ} {L : Libs}.



End Facts.
End ListingFacts.
(* ===================================================================== *)
(** * More on the disk: deleting files, creating directories *)
(* ===================================================================== *)

Module DiskMore.
Import Server Claims DiskModel Changes.
Section Facts.
Context {E : Environ} {L : Libs} {P : Params}.

(** A walk that succeeds looks at directories only, so removing a regular
    file does not disturb it. *)
Lemma walk_delete_file (d : disk) (k0 : list string) (content : string) (m : meta)
    (path : string) (comps : list string) :
  d !! k0 = Some (File content m) ->
  forall cur k,
    walk d path cur comps = Ok k ->
    walk (delete k0 d) path cur comps = Ok k.
Proof.
  intros Hfile. induction comps as [|c comps IH]; intros cur k; simpl; [auto|].
  destruct (d !! cur) as [[content' m'|m']|] eqn:Hcur; try discriminate.
  assert (k0 <> cur) as Hne by congruence.
  rewrite lookup_delete_ne, Hcur by exact Hne.
  destruct (_ || _); [apply IH|]. destruct (String.eqb c ".."); apply IH.
Qed.

Lemma locate_delete_file (d : disk) (k0 : list string) (content : string) (m : meta)
    (path : string) (k : list string) :
  d !! k0 = Some (File content m) ->
  locate d path = Ok k ->
  locate (delete k0 d) path = Ok k.
Proof.
  intros Hfile. unfold locate. destruct (String.eqb path ""); [discriminate|].
  destruct (startswith path "/"); [eapply walk_delete_file, Hfile|].
  destruct getcwd; [eapply walk_delete_file, Hfile|discriminate].
Qed.

(** Deleting what is not there is a soft error and changes nothing. *)
Lemma delete_missing (args : list (string * value)) (path : string) (d : disk) :
  dict_lookup "path" args = Some (VStr path) ->
  is_safe_path (VStr path) = true ->
  lookup_path d path = None ->
  exec (delete_file (VDict args)) d
  = (Ok (text_result ("Error deleting file: "
                      +:+ exn_str match locate d path with
                                  | Ok _ => ENOENT path
                                  | Raise e => e
                                  end)), d).
Proof.
  intros Hpath Hsafe Hnone.
  unfold delete_file. cbn [get lift bind]. rewrite Hpath, Hsafe.
  cbn [negb fspath lift bind try_except perform exec os_call disk_world disk_call].
  rewrite Hnone.
  cbn [is_dir_node negb fspath lift bind try_except perform exec os_call disk_world
       disk_call].
  unfold os_remove. unfold lookup_path in Hnone.
  destruct (locate d path) as [k|e]; [rewrite Hnone|]; reflexivity.
Qed.

(** X16.  Let the gate accept a path that names a regular file.  Then
    [delete_file] removes that file and nothing else, whatever [recursive]
    is, and reports success; deleting the same path again is a soft error,
    "No such file or directory", and changes nothing. *)
Theorem delete_regular_file (args : list (string * value)) (path : string)
    (d : disk) (k : list string) (content : string) (m : meta) :
  dict_lookup "path" args = Some (VStr path) ->
  is_safe_path (VStr path) = true ->
  locate d path = Ok k ->
  d !! k = Some (File content m) ->
  exists d',
    exec (delete_file (VDict args)) d
    = (Ok (text_result ("Successfully deleted: " +:+ path)), d')
    /\ d' !! k = None
    /\ (forall k', k' <> k -> d' !! k' = d !! k')
    /\ exec (delete_file (VDict args)) d'
       = (Ok (text_result ("Error deleting file: [Errno 2] No such file or directory: '"
                           +:+ path +:+ "'")), d').
Proof.
  intros Hpath Hsafe Hloc Hk. exists (delete k d).
  split; [|split; [apply lookup_delete_eq|split]].
  - unfold delete_file. cbn [get lift bind]. rewrite Hpath, Hsafe.
    cbn [negb fspath lift bind try_except perform exec os_call disk_world disk_call].
    rewrite (DiskFacts.lookup_path_located d path k Hloc), Hk.
    cbn [is_dir_node negb fspath lift bind try_except perform exec os_call disk_world
         disk_call].
    unfold os_remove. rewrite Hloc, Hk. reflexivity.
  - intros k' Hne. apply lookup_delete_ne. congruence.
  - pose proof (locate_delete_file d k content m path k Hk Hloc) as Hloc'.
    rewrite (delete_missing args path (delete k d) Hpath Hsafe).
    + rewrite Hloc'. reflexivity.
    + unfold lookup_path. rewrite Hloc'. apply lookup_delete_eq.
Qed.

(** ** [mkdir] only adds directories *)

Lemma only_adds_refl (d : disk) : only_adds_directories d d.
Proof. intros k. destruct (d !! k); auto. Qed.

Lemma only_adds_trans (d1 d2 d3 : disk) :
  only_adds_directories d1 d2 -> only_adds_directories d2 d3 ->
  only_adds_directories d1 d3.
Proof.
  intros H12 H23 k. specialize (H12 k). specialize (H23 k).
  destruct (d1 !! k) as [n|].
  - rewrite H12 in H23. exact H23.
  - destruct H12 as [H12|H12]; rewrite H12 in H23; auto.
Qed.

Lemma os_mkdir_only_adds (self : string) (d : disk) :
  only_adds_directories d (snd (os_mkdir self d)).
Proof.
  unfold os_mkdir. destruct (locate d self) as [k0|e]; [|apply only_adds_refl].
  destruct (d !! k0) eqn:Hk0; [apply only_adds_refl|]. cbn [snd].
  intros k. destruct (decide (k = k0)) as [->|Hne].
  - rewrite Hk0, lookup_insert_eq. auto.
  - rewrite lookup_insert_ne by congruence. destruct (d !! k); auto.
Qed.

Lemma mkdir_once_only_adds (self : string) (exist_ok : bool) (d : disk) :
  only_adds_directories d (snd (mkdir_once self exist_ok d)).
Proof.
  unfold mkdir_once. pose proof (os_mkdir_only_adds self d) as Hmk.
  destruct (os_mkdir self d) as [[u|e] d1]; cbn [snd] in *; [exact Hmk|].
  destruct (exn_class_of e); try exact Hmk;
    destruct (negb exist_ok || negb (is_dir_node (lookup_path d1 self))); exact Hmk.
Qed.

Lemma path_mkdir_only_adds (absolute : bool) (rparts : list string) :
  forall (parents exist_ok : bool) (d : disk),
    only_adds_directories d (snd (path_mkdir absolute rparts parents exist_ok d)).
Proof.
  induction rparts as [|c rparent IH]; intros parents exist_ok d; cbn [path_mkdir].
  all: match goal with
       | |- context [os_mkdir ?self ?d0] =>
           pose proof (os_mkdir_only_adds self d0) as Hmk;
           destruct (os_mkdir self d0) as [[u|e] d1]
       end; cbn [snd] in *; [exact Hmk|].
  all: destruct (exn_class_of e); try exact Hmk;
    try (destruct (negb exist_ok || negb (is_dir_node (lookup_path d1 _))); exact Hmk).
  destruct (negb parents); [exact Hmk|].
  pose proof (IH true true d1) as Hrec.
  destruct (path_mkdir absolute rparent true true d1) as [[u1|e1] d2]; cbn [snd] in *.
  - eapply only_adds_trans; [exact Hmk|]. eapply only_adds_trans; [exact Hrec|].
    apply mkdir_once_only_adds.
  - eapply only_adds_trans; [exact Hmk|exact Hrec].
Qed.

(** X17.  [create_directory] never removes, replaces or changes anything:
    whatever its arguments and whatever it reports, every node of the disk
    is still there afterwards as it was, and what is new is a directory. *)
Theorem create_directory_only_adds (args : list (string * value)) (d : disk)
    (k : list string) :
  let d' := snd (exec (create_directory (VDict args)) d) in
  match d !! k with
  | Some n => d' !! k = Some n
  | None => d' !! k = None \/ d' !! k = Some (Dir fresh_meta)
  end.
Proof.
  intros d'. revert k. change (only_adds_directories d d'). subst d'.
  unfold create_directory. cbn [get lift bind].
  destruct (negb (is_safe_path _)); [apply only_adds_refl|].
  destruct (match dict_lookup "path" args with Some v => v | None => VStr "" end)
    as [| | | |p| |]; try apply only_adds_refl.
  cbn [fspath lift bind try_except perform exec os_call disk_world disk_call].
  unfold mkdir. destruct (path_parts p) as [absolute rparts].
  pose proof (path_mkdir_only_adds absolute rparts
                (truthy match dict_lookup "parents" args with
                        | Some v => v
                        | None => VBool true
                        end) true d) as Hmk.
  destruct (path_mkdir absolute rparts _ true d) as [[u|e] d1]; exact Hmk.
Qed.

End Facts.
End DiskMore.
(* ===================================================================== *)
(** * Writing and reading text files *)
(* ===================================================================== *)

Module TextFacts.
Import Server Claims DiskModel TextIO.
Section Facts.
Context {E : Environ} {L : Libs} {T : TextParams}.

(** Replacing a regular file, or creating one where the walk ended, does
    not disturb a walk that succeeded. *)
Lemma walk_put_file (d : disk) (k0 : list string) (n : node) (path : string)
    (comps : list string) :
  is_dir_node (d !! k0) = false ->
  forall cur k,
    walk d path cur comps = Ok k ->
    walk (<[k0 := n]> d) path cur comps = Ok k.
Proof.
  intros Hnodir. induction comps as [|c comps IH]; intros cur k; simpl; [auto|].
  destruct (d !! cur) as [[content m|m]|] eqn:Hcur; try discriminate.
  assert (k0 <> cur) as Hne.
  { intros ->. rewrite Hcur in Hnodir. discriminate Hnodir. }
  rewrite lookup_insert_ne, Hcur by exact Hne.
  destruct (_ || _); [apply IH|]. destruct (String.eqb c ".."); apply IH.
Qed.

Lemma locate_put_file (d : disk) (k0 : list string) (n : node) (path : string)
    (k : list string) :
  is_dir_node (d !! k0) = false ->
  locate d path = Ok k ->
  locate (<[k0 := n]> d) path = Ok k.
Proof.
  intros Hnodir. unfold locate. destruct (String.eqb path ""); [discriminate|].
  destruct (startswith path "/"); [apply walk_put_file, Hnodir|].
  destruct getcwd; [apply walk_put_file, Hnodir|discriminate].
Qed.

(** What [write_file] does once the gate has accepted the path. *)
Lemma write_file_on_disk (args : list (string * value)) (path : string) (d : disk) :
  dict_lookup "path" args = Some (VStr path) ->
  is_safe_path (VStr path) = true ->
  on_disk (write_file (VDict args)) d
  = let append := flag args "append" false in
    match open_write path (if append then "a" else "w")
            match dict_lookup "encoding" args with Some v => v | None => VStr "utf-8" end
            match dict_lookup "content" args with Some v => v | None => VStr "" end
            d with
    | (Ok _, d') =>
        (Ok (text_result ("Successfully "
                          +:+ (if append then "appended to" else "written to")
                          +:+ " file: " +:+ path)), d')
    | (Raise e, d') => (Ok (text_result ("Error writing file: " +:+ exn_str e)), d')
    end.
Proof.
  intros Hpath Hsafe. unfold on_disk, write_file, flag.
  cbn [get lift bind]. rewrite Hpath, Hsafe.
  cbn [negb fspath lift bind try_except perform exec os_call text_world disk_world
       disk_call other text_params text_other].
  destruct (open_write path _ _ _ d) as [[u|e] d']; reflexivity.
Qed.

(** What [read_file] does with a file that is not of a binary type. *)
Lemma read_file_on_disk (args : list (string * value)) (path : string) (d : disk) :
  dict_lookup "path" args = Some (VStr path) ->
  is_safe_path (VStr path) = true ->
  binary_type (guess_type path) = false ->
  on_disk (read_file (VDict args)) d
  = match open_read_text path
            match dict_lookup "encoding" args with Some v => v | None => VStr "utf-8" end
            None d with
    | Ok content => (Ok (text_result content), d)
    | Raise e => (Ok (text_result ("Error reading file: " +:+ exn_str e)), d)
    end.
Proof.
  intros Hpath Hsafe Htext. unfold on_disk, read_file.
  cbn [get lift bind]. rewrite Hpath, Hsafe.
  cbn [negb fspath lift bind try_except perform exec os_call text_world disk_world
       disk_call other text_params text_other].
  unfold binary_type in Htext. rewrite Htext.
  cbn [bind try_except perform exec os_call text_world disk_world
       disk_call other text_params text_other].
  destruct (open_read_text path _ None d); reflexivity.
Qed.

(** X18.  What [write_file] writes, [read_file] reads back.  Let the gate
    accept a path that names a regular file, or nothing in an existing
    directory, and let the encoding be one that can encode the content and
    decodes it back.  Then [write_file] without [append] reports success,
    the file holds the encoded content and nothing else on the disk
    changes, and [read_file] with the same encoding then returns the
    content, with [\r\n] and [\r] read as [\n]. *)
Theorem write_then_read (args_w args_r : list (string * value))
    (path content name bytes : string) (c : codec) (d : disk) (k : list string) :
  dict_lookup "path" args_w = Some (VStr path) ->
  dict_lookup "content" args_w = Some (VStr content) ->
  get (VDict args_w) "encoding" (VStr "utf-8") = Ok (VStr name) ->
  flag args_w "append" false = false ->
  dict_lookup "path" args_r = Some (VStr path) ->
  get (VDict args_r) "encoding" (VStr "utf-8") = Ok (VStr name) ->
  is_safe_path (VStr path) = true ->
  locate d path = Ok k ->
  is_dir_node (d !! k) = false ->
  has_char "000" name = false ->
  codecs name = Some c ->
  encode c content = Ok bytes ->
  decode c None bytes = Ok content ->
  binary_type (guess_type path) = false ->
  exists d' m,
    on_disk (write_file (VDict args_w)) d
    = (Ok (text_result ("Successfully written to file: " +:+ path)), d')
    /\ d' !! k = Some (File bytes m)
    /\ (forall k', k' <> k -> d' !! k' = d !! k')
    /\ on_disk (read_file (VDict args_r)) d'
       = (Ok (text_result (universal_newlines false content)), d').
Proof.
  intros Hpath Hcontent Henc Happend Hpath' Henc' Hsafe Hloc Hnodir Hnul Hcodec
         Hencode Hdecode Htext.
  cbn [get] in Henc, Henc'. injection Henc as Henc. injection Henc' as Henc'.
  assert (exists m,
            open_write path "w" (VStr name) (VStr content) d
            = (Ok tt, <[k := File bytes m]> d)) as (m & Hwrite).
  { unfold open_write. cbn [encoding_name]. rewrite Hnul, Hloc.
    unfold lookup_codec. rewrite Hcodec. cbn [exc_bind text_bytes]. rewrite Hencode.
    destruct (d !! k) as [[old m|m]|]; [|discriminate Hnodir|];
      cbn [String.eqb Ascii.eqb Bool.eqb]; eexists; reflexivity. }
  exists (<[k := File bytes m]> d), m.
  split; [|split; [apply lookup_insert_eq|split]].
  - rewrite (write_file_on_disk args_w path d Hpath Hsafe).
    rewrite Happend, Henc, Hcontent. cbv beta iota zeta. rewrite Hwrite. reflexivity.
  - intros k' Hne. apply lookup_insert_ne. congruence.
  - rewrite (read_file_on_disk args_r path _ Hpath' Hsafe Htext), Henc'.
    unfold open_read_text. cbn [encoding_name]. rewrite Hnul. cbn [exc_bind].
    unfold read_bytes. rewrite (locate_put_file d k _ path k Hnodir Hloc).
    rewrite lookup_insert_eq. cbn [exc_bind]. unfold lookup_codec. rewrite Hcodec.
    cbn [exc_bind]. rewrite Hdecode. reflexivity.
Qed.

(** X19.  A write that fails after the file has been opened leaves the
    file empty.  When the path names a regular file and no codec is
    registered under the encoding, or the content is not a string, or the
    encoding cannot encode it, [write_file] without [append] reports a soft
    error and what the file held is gone; with [append] the file is left
    as it was. *)
Theorem failed_write_empties_the_file (args : list (string * value))
    (path old name : string) (content : value) (m : meta) (d : disk)
    (k : list string) :
  dict_lookup "path" args = Some (VStr path) ->
  get (VDict args) "content" (VStr "") = Ok content ->
  get (VDict args) "encoding" (VStr "utf-8") = Ok (VStr name) ->
  is_safe_path (VStr path) = true ->
  locate d path = Ok k ->
  d !! k = Some (File old m) ->
  has_char "000" name = false ->
  codecs name = None
  \/ (forall s, content <> VStr s)
  \/ (exists c s e, codecs name = Some c /\ content = VStr s /\ encode c s = Raise e) ->
  exists e,
    on_disk (write_file (VDict args)) d
    = (Ok (text_result ("Error writing file: " +:+ exn_str e)),
       if flag args "append" false then <[k := File old m]> d
       else <[k := File "" (touched m)]> d).
Proof.
  intros Hpath Hcontent Henc Hsafe Hloc Hk Hnul Hbad.
  cbn [get] in Hcontent, Henc. injection Hcontent as Hcontent. injection Henc as Henc.
  assert (exists e,
            exc_bind (lookup_codec name) (fun c => text_bytes c content) = Raise e)
    as (e & Hraise).
  { unfold lookup_codec. destruct (codecs name) as [c|] eqn:Hcodec; [|eexists; reflexivity].
    destruct Hbad as [Hbad|[Hbad|(c' & s & e & Hc & -> & He)]]; [discriminate Hbad| |].
    - cbn [exc_bind]. destruct content; try (eexists; reflexivity).
      exfalso. eapply Hbad. reflexivity.
    - injection Hc as <-. cbn [exc_bind text_bytes]. rewrite He. eexists. reflexivity. }
  exists e.
  rewrite (write_file_on_disk args path d Hpath Hsafe).
  rewrite Henc, Hcontent. cbv zeta. unfold open_write.
  cbn [encoding_name]. rewrite Hnul, Hloc, Hk.
  destruct (flag args "append" false); cbn [String.eqb Ascii.eqb Bool.eqb];
    rewrite Hraise; reflexivity.
Qed.

(** X20.  With [append] the content goes after what the file holds: the
    file then holds its old bytes followed by the encoded content, a file
    that did not exist is created with the content alone, nothing else on
    the disk changes, and the report says "appended to". *)
Theorem append_adds_at_the_end (args : list (string * value))
    (path content name bytes : string) (c : codec) (d : disk) (k : list string) :
  dict_lookup "path" args = Some (VStr path) ->
  dict_lookup "content" args = Some (VStr content) ->
  get (VDict args) "encoding" (VStr "utf-8") = Ok (VStr name) ->
  flag args "append" false = true ->
  is_safe_path (VStr path) = true ->
  locate d path = Ok k ->
  is_dir_node (d !! k) = false ->
  has_char "000" name = false ->
  codecs name = Some c ->
  encode c content = Ok bytes ->
  exists d' m,
    on_disk (write_file (VDict args)) d
    = (Ok (text_result ("Successfully appended to file: " +:+ path)), d')
    /\ d' !! k = Some (File (match d !! k with
                             | Some (File old _) => old
                             | _ => ""
                             end +:+ bytes) m)
    /\ (forall k', k' <> k -> d' !! k' = d !! k').
Proof.
  intros Hpath Hcontent Henc Happend Hsafe Hloc Hnodir Hnul Hcodec Hencode.
  cbn [get] in Henc. injection Henc as Henc.
  assert (exists m,
            open_write path "a" (VStr name) (VStr content) d
            = (Ok tt, <[k := File (match d !! k with
                                   | Some (File old _) => old
                                   | _ => ""
                                   end +:+ bytes) m]> d)) as (m & Hwrite).
  { unfold open_write. cbn [encoding_name]. rewrite Hnul, Hloc.
    unfold lookup_codec. rewrite Hcodec. cbn [exc_bind text_bytes]. rewrite Hencode.
    destruct (d !! k) as [[old m|m]|]; [|discriminate Hnodir|];
      cbn [String.eqb Ascii.eqb Bool.eqb]; eexists; reflexivity. }
  eexists _, m.
  split; [|split; [apply lookup_insert_eq|]].
  - rewrite (write_file_on_disk args path d Hpath Hsafe).
    rewrite Happend, Henc, Hcontent. cbv beta iota zeta. rewrite Hwrite. reflexivity.
  - intros k' Hne. apply lookup_insert_ne. congruence.
Qed.

(** X21.  A file whose name has a binary MIME type is read as bytes and
    returned in base64, whatever the [encoding] argument is, a value that
    is no encoding included: the argument is not looked at. *)
Theorem binary_files_ignore_the_encoding (args : list (string * value))
    (path bytes : string) (m : meta) (d : disk) (k : list string) :
  dict_lookup "path" args = Some (VStr path) ->
  is_safe_path (VStr path) = true ->
  binary_type (guess_type path) = true ->
  locate d path = Ok k ->
  d !! k = Some (File bytes m) ->
  on_disk (read_file (VDict args)) d
  = (Ok (text_result ("Binary file (base64 encoded):" +:+ newline +:+ b64encode bytes)),
     d).
Proof.
  intros Hpath Hsafe Hbinary Hloc Hk. unfold on_disk, read_file.
  cbn [get lift bind]. rewrite Hpath, Hsafe.
  cbn [negb fspath lift bind try_except perform exec os_call text_world disk_world
       disk_call other text_params text_other].
  unfold binary_type in Hbinary. rewrite Hbinary.
  cbn [bind try_except perform exec os_call text_world disk_world
       disk_call other text_params text_other].
  unfold read_bytes. rewrite Hloc, Hk. reflexivity.
Qed.

End Facts.
End TextFacts.
(* ===================================================================== *)
(** * The URL scraper: cleaned text and the result *)
(* ===================================================================== *)

Module ScraperFacts.
Import Scraper.

(** ** [_clean_text] *)

Lemma collapse_single_spaced (s : string) (in_run : bool) :
  single_spaced (collapse in_run s) = true
  /\ (in_run = true -> starts_with_space (collapse in_run s) = false).
Proof.
  revert in_run. induction s as [|a s IH]; intros in_run; [split; reflexivity|].
  cbn [collapse]. destruct (isspace a) eqn:Ha.
  - destruct (IH true) as [Hs Hlead]. destruct in_run.
    + split; [exact Hs|intros _; apply Hlead; reflexivity].
    + split; [|discriminate]. cbn [single_spaced].
      rewrite Hs, (Hlead eq_refl). reflexivity.
  - destruct (IH false) as [Hs _]. split.
    + cbn [single_spaced]. rewrite Ha, Hs. reflexivity.
    + intros _. cbn [starts_with_space]. exact Ha.
Qed.

Lemma single_spaced_tail (a : ascii) (s : string) :
  single_spaced (String a s) = true -> single_spaced s = true.
Proof. cbn [single_spaced]. intros H. apply andb_true_iff in H as [_ H]. exact H. Qed.

Lemma lstrip_single_spaced (s : string) :
  single_spaced s = true -> single_spaced (lstrip s) = true.
Proof.
  induction s as [|a s IH]; [auto|]. intros Hs. cbn [lstrip].
  destruct (isspace a); [apply IH, (single_spaced_tail a), Hs|exact Hs].
Qed.

Lemma lstrip_no_lead (s : string) : starts_with_space (lstrip s) = false.
Proof.
  induction s as [|a s IH]; [reflexivity|]. cbn [lstrip].
  destruct (isspace a) eqn:Ha; [exact IH|exact Ha].
Qed.

Lemma rstrip_cons (a : ascii) (s : string) :
  rstrip (String a s)
  = if String.eqb (rstrip s) "" then (if isspace a then "" else String a "")
    else String a (rstrip s).
Proof. cbn [rstrip]. destruct (rstrip s); reflexivity. Qed.

Lemma rstrip_no_lead (s : string) :
  starts_with_space s = false -> starts_with_space (rstrip s) = false.
Proof.
  destruct s as [|a s]; [auto|]. cbn [starts_with_space]. intros Ha.
  rewrite rstrip_cons, Ha. destruct (String.eqb (rstrip s) ""); exact Ha.
Qed.

Lemma rstrip_starts (a : ascii) (s : string) :
  starts_with_space (rstrip s) = true -> starts_with_space s = true.
Proof.
  destruct s as [|b s]; [auto|]. rewrite rstrip_cons. cbn [starts_with_space].
  destruct (String.eqb (rstrip s) ""); [|auto].
  destruct (isspace b) eqn:Hb; [auto|]. cbn [starts_with_space]. rewrite Hb. auto.
Qed.

Lemma rstrip_single_spaced (s : string) :
  single_spaced s = true -> single_spaced (rstrip s) = true.
Proof.
  induction s as [|a s IH]; [auto|]. intros Hs. rewrite rstrip_cons.
  pose proof (IH (single_spaced_tail a s Hs)) as Hr.
  destruct (String.eqb (rstrip s) "").
  - destruct (isspace a) eqn:Ha; [reflexivity|].
    cbn [single_spaced]. rewrite Ha. reflexivity.
  - cbn [single_spaced] in *. rewrite Hr, andb_true_r.
    apply andb_true_iff in Hs as [Hs _].
    destruct (isspace a); [|reflexivity].
    apply andb_true_iff in Hs as [-> Hs]. cbn [andb].
    destruct (starts_with_space (rstrip s)) eqn:Hlead; [|reflexivity].
    apply (rstrip_starts a) in Hlead. rewrite Hlead in Hs. discriminate Hs.
Qed.

Lemma rstrip_no_trail (s : string) : ends_with_space (rstrip s) = false.
Proof.
  induction s as [|a s IH]; [reflexivity|]. rewrite rstrip_cons.
  destruct (String.eqb_spec (rstrip s) "") as [Hr|Hr].
  - destruct (isspace a) eqn:Ha; [reflexivity|]. cbn [ends_with_space]. exact Ha.
  - destruct (rstrip s) as [|b r] eqn:Hrs; [contradiction Hr; reflexivity|].
    exact IH.
Qed.

Lemma clean_text_tidy (s : string) : tidy (_clean_text s) = true.
Proof.
  unfold tidy, _clean_text, strip.
  destruct (collapse_single_spaced s false) as [Hs _].
  rewrite (rstrip_single_spaced _ (lstrip_single_spaced _ Hs)).
  rewrite (rstrip_no_lead _ (lstrip_no_lead _)), rstrip_no_trail. reflexivity.
Qed.

Lemma collapse_letters (s : string) (in_run : bool) :
  letters (collapse in_run s) = letters s.
Proof.
  revert in_run. induction s as [|a s IH]; intros in_run; [reflexivity|].
  cbn [collapse letters]. destruct (isspace a) eqn:Ha.
  - destruct in_run; [apply IH|]. cbn [letters].
    change (isspace " ") with true. cbv iota. apply IH.
  - cbn [letters]. rewrite Ha, IH. reflexivity.
Qed.

Lemma lstrip_letters (s : string) : letters (lstrip s) = letters s.
Proof.
  induction s as [|a s IH]; [reflexivity|]. cbn [lstrip letters].
  destruct (isspace a) eqn:Ha; [exact IH|]. cbn [letters]. rewrite Ha. reflexivity.
Qed.

Lemma rstrip_letters (s : string) : letters (rstrip s) = letters s.
Proof.
  induction s as [|a s IH]; [reflexivity|]. rewrite rstrip_cons. cbn [letters].
  destruct (String.eqb_spec (rstrip s) "") as [Hr|Hr].
  - rewrite Hr in IH. cbn [letters] in IH. rewrite <- IH.
    destruct (isspace a) eqn:Ha; [reflexivity|]. cbn [letters]. rewrite Ha. reflexivity.
  - cbn [letters]. rewrite IH. reflexivity.
Qed.

(** Tidy text is left alone. *)
Lemma collapse_tidy (s : string) (in_run : bool) :
  single_spaced s = true ->
  (in_run = true -> starts_with_space s = false) ->
  collapse in_run s = s.
Proof.
  revert in_run. induction s as [|a s IH]; intros in_run Hs Hlead; [reflexivity|].
  cbn [collapse]. cbn [single_spaced] in Hs. apply andb_true_iff in Hs as [Ha Hs].
  destruct (isspace a) eqn:Hsp.
  - apply andb_true_iff in Ha as [Ha Hnext]. apply Ascii.eqb_eq in Ha. subst a.
    destruct in_run; [specialize (Hlead eq_refl); cbn [starts_with_space] in Hlead;
                      rewrite Hsp in Hlead; discriminate Hlead|].
    rewrite IH; [reflexivity|exact Hs|].
    intros _. apply negb_true_iff, Hnext.
  - rewrite IH; [reflexivity|exact Hs|discriminate].
Qed.

Lemma lstrip_tidy (s : string) : starts_with_space s = false -> lstrip s = s.
Proof. destruct s as [|a s]; [auto|]. cbn [starts_with_space lstrip]. intros ->. auto. Qed.

Lemma rstrip_tidy (s : string) : ends_with_space s = false -> rstrip s = s.
Proof.
  induction s as [|a s IH]; [auto|]. intros Ht. rewrite rstrip_cons.
  destruct s as [|b s].
  - cbn [ends_with_space] in Ht. rewrite Ht. reflexivity.
  - rewrite IH by exact Ht. reflexivity.
Qed.

Lemma clean_text_fixes_tidy (s : string) : tidy s = true -> _clean_text s = s.
Proof.
  unfold tidy. intros Ht. apply andb_true_iff in Ht as [Ht Htrail].
  apply andb_true_iff in Ht as [Hs Hlead].
  apply negb_true_iff in Hlead, Htrail.
  unfold _clean_text, strip.
  rewrite (collapse_tidy s false Hs) by discriminate.
  rewrite (lstrip_tidy s Hlead). apply rstrip_tidy, Htrail.
Qed.

(** X22.  Cleaned text is tidy and keeps the words: every whitespace
    character left is a single space between two other characters, none is
    at either end, and the characters that are not whitespace are those of
    the original, in the same order. *)
Theorem clean_text_keeps_the_letters (text : string) :
  tidy (_clean_text text) = true
  /\ letters (_clean_text text) = letters text.
Proof.
  split; [apply clean_text_tidy|].
  unfold _clean_text, strip.
  rewrite rstrip_letters, lstrip_letters. apply collapse_letters.
Qed.

(** X23.  Cleaning is idempotent, and text that is already tidy is
    returned as it is. *)
Theorem clean_text_idempotent (text : string) :
  _clean_text (_clean_text text) = _clean_text text
  /\ (tidy text = true -> _clean_text text = text).
Proof.
  split; [|apply clean_text_fixes_tidy].
  apply clean_text_fixes_tidy, clean_text_tidy.
Qed.

Section Facts.
Context {H : Html}.


(** X24.  A request is made exactly for the strings that start with
    [http://] or [https://], in any letter case, and it is made for the URL
    as given, with the caller's user agent and timeout.  For anything else
    [scrape_url] raises [ValueError] without requesting anything. *)
Theorem scrape_url_requests_http_only (url : value) (max_chars max_links : Z)
    (timeout_s user_agent : value) :
  match scrape_url url max_chars max_links timeout_s user_agent with
  | Get u ua t _ =>
      url = VStr u /\ ua = user_agent /\ t = timeout_s
      /\ exists rest, lower u = "http://" +:+ rest \/ lower u = "https://" +:+ rest
  | Done (Raised e) =>
      error_class e = "ValueError"
      /\ forall u rest, url = VStr u ->
           lower u <> "http://" +:+ rest /\ lower u <> "https://" +:+ rest
  | Done (Returned _) => False
  end.
Proof.
  assert (forall pre s, String.prefix pre s = true -> exists rest, s = pre +:+ rest)
    as Hpre.
  { induction pre as [|a pre IH]; intros s Hs; [exists s; reflexivity|].
    destruct s as [|b s]; [discriminate Hs|]. cbn [String.prefix] in Hs.
    destruct (ascii_dec a b) as [<-|]; [|discriminate Hs].
    destruct (IH s Hs) as (rest & ->). exists rest. reflexivity. }
  unfold scrape_url.
  destruct url as [| | | |u| |]; try (split; [reflexivity|discriminate]).
  destruct (String.eqb_spec u "") as [->|Hne].
  { split; [reflexivity|]. intros u rest [= <-]. split; discriminate. }
  unfold startswith_any, startswith. cbn [existsb].
  destruct (String.prefix "http://" (lower u)) eqn:Hhttp; cbn [orb negb].
  { repeat split. destruct (Hpre _ _ Hhttp) as (rest & ->). eauto. }
  destruct (String.prefix "https://" (lower u)) eqn:Hhttps; cbn [orb negb].
  { repeat split. destruct (Hpre _ _ Hhttps) as (rest & ->). eauto. }
  split; [reflexivity|]. intros u' rest [= <-].
  split; intros Heq; rewrite Heq in *.
  - rewrite GateReach.prefix_append in Hhttp. discriminate Hhttp.
  - rewrite GateReach.prefix_append in Hhttps. discriminate Hhttps.
Qed.



(** X26.  [max_links] counts one too late: the limit is tested after a
    link has been added.  When the first anchor of a page has a target,
    every limit of one or less, zero and the negative ones included, gives
    exactly that one link. *)
Theorem max_links_zero_gives_one_link (u : string) (max_chars max_links : Z)
    (timeout_s user_agent : value) (resp : response)
    (a_text href joined : string) (found : list (string * string)) :
  u <> "" ->
  startswith_any (lower u) ["http://"; "https://"] = true ->
  contains (lower match resp_content_type resp with Some c => c | None => "" end) "html"
  = true ->
  resp_text resp <> "" ->
  anchors (resp_text resp) = (a_text, href) :: found ->
  href <> "" ->
  url_join (resp_url resp) href = Returned joined ->
  (max_links <= 1)%Z ->
  exists title content,
    finish (scrape_url (VStr u) max_chars max_links timeout_s user_agent) (Got resp)
    = Returned (VDict [("url", VStr u);
                       ("final_url", VStr (resp_url resp));
                       ("status_code", VInt (resp_status_code resp));
                       ("title", title);
                       ("content", content);
                       ("links", VList [VDict [("url", VStr joined);
                                               ("text", VStr (_clean_text a_text))]])]).
Proof.
  intros Hu Hscheme Hhtml Htext Hanchors Hhref Hjoin Hlimit.
  apply String.eqb_neq in Hu, Htext, Hhref.
  unfold scrape_url. rewrite Hu, Hscheme. cbn [negb finish].
  unfold read_response. rewrite Hhtml, Htext, Hanchors. cbn [negb andb links_loop].
  rewrite Hhref, Hjoin. cbn [negb app length].
  destruct (Z.leb_spec (Z.max 0 max_links) (Z.of_nat 1)) as [_|Hgt]; [|lia].
  do 2 eexists. reflexivity.
Qed.

End Facts.
End ScraperFacts.
(* ===================================================================== *)
(** * The further properties on the fixture *)
(* ===================================================================== *)

Module MoreOnFixture.
Import Server Claims DiskModel Fixture MoreFixture Protocol Sizes Matching TextIO
       Scraper.

(** The [initialize] request is answered with its id. *)
Lemma response_echoes_id_witness :
  always (fun r => exists response,
            r = Ok response /\ well_formed_response (VInt 2) response)
         (handle_request
            (VDict [("jsonrpc", VStr "2.0"); ("id", VInt 2);
                    ("method", VStr "initialize")])).
Proof.
  apply (ProtocolFacts.response_echoes_id
           [("jsonrpc", VStr "2.0"); ("id", VInt 2); ("method", VStr "initialize")]
           (VStr "initialize") (VInt 2)); reflexivity.
Defined.

(** [read_file] without an encoding reads as UTF-8. *)
Lemma declared_defaults_are_used_witness :
  read_file (VDict [("path", VStr "notes.txt")])
  = read_file (VDict ([("path", VStr "notes.txt")] ++ [("encoding", VStr "utf-8")])).
Proof.
  apply (ProtocolFacts.declared_defaults_are_used "read_file" read_file
           [("path", VStr "notes.txt")] "encoding" (VStr "utf-8")).
  - simpl. left. reflexivity.
  - vm_compute. left. reflexivity.
  - reflexivity.
Defined.

(** A line holding an array. *)
Lemma unreadable_request_loses_its_id_witness :
  @serve_line environ libs_more array_line
  = Ret (Ok (dumps (error_response VNone (-32603)
                      "Internal error: 'list' object has no attribute 'get'"))).
Proof.
  apply (@ProtocolFacts.unreadable_request_loses_its_id environ libs_more array_line
           (VList [VInt 1; VInt 2])); reflexivity.
Defined.

(** [read_file] called with a list for arguments. *)
Lemma arguments_must_be_a_mapping_witness :
  handle_request (VDict list_arguments_request)
  = Ret (Ok (error_response (VInt 3) (-32603)
               "'list' object has no attribute 'get'")).
Proof.
  apply (ProtocolFacts.arguments_must_be_a_mapping list_arguments_request
           [("name", VStr "read_file"); ("arguments", VList [VStr "a.txt"])]
           "read_file" read_file (VList [VStr "a.txt"]) (VInt 3));
    try reflexivity.
  - simpl. left. reflexivity.
  - intros d. discriminate.
Defined.

(** Creating [new] in the working directory through the dispatcher. *)
Lemma tool_call_is_transparent_witness :
  exists t,
    exec (create_directory (VDict [("path", VStr "new")])) sample
    = (Ok (text_result t),
       snd (exec (create_directory (VDict [("path", VStr "new")])) sample))
    /\ exec (handle_request (VDict create_request)) sample
       = (Ok (result_response (VInt 4) (text_result t)),
          snd (exec (create_directory (VDict [("path", VStr "new")])) sample)).
Proof.
  apply (ProtocolFacts.tool_call_is_transparent create_request
           [("name", VStr "create_directory");
            ("arguments", VDict [("path", VStr "new")])]
           [("path", VStr "new")] "create_directory" create_directory (VInt 4)
           disk disk_world sample); try reflexivity.
  simpl. do 3 right. left. reflexivity.
Defined.

(** 1536 bytes are one and a half kilobytes. *)
Lemma human_readable_size_nearest_witness :
  exists cents,
    _human_readable_size 1536 = two_decimals cents +:+ " " +:+ "KB"
    /\ 0 <= cents
    /\ 2 * Z.abs (100 * 1536 - cents * 1024) <= 1024
    /\ (2 * Z.abs (100 * 1536 - cents * 1024) = 1024 -> Z.even cents = true).
Proof.
  apply (SizeFacts.human_readable_size_nearest 1536 1); simpl; lia.
Defined.

(** A regular file with mode [0o100644]. *)
Lemma permissions_are_the_mode_bits_witness :
  exists owner group others : Z,
    0 <= owner < 8 /\ 0 <= group < 8 /\ 0 <= others < 8
    /\ 64 * owner + 8 * group + others = 33188 mod 512
    /\ slice_last 3 (oct 33188)
       = String (octal_digit owner)
           (String (octal_digit group) (String (octal_digit others) "")).
Proof. apply (PermissionFacts.permissions_are_the_mode_bits 33188). lia. Defined.

Lemma two_slashes_pass_the_gate_witness :
  is_safe_path (VStr ("//" +:+ "etc/passwd")) = true
  /\ forall d, dict_lookup "path" d = Some (VStr ("//" +:+ "etc/passwd")) ->
       exists k, read_file (VDict d) = Call (GuessType ("//" +:+ "etc/passwd")) k.
Proof. apply (GateReach.two_slashes_pass_the_gate "etc/passwd"). reflexivity. Defined.

Lemma siblings_of_denied_are_refused_witness :
  is_safe_path (VStr ("/" +:+ "etc" +:+ "etera")) = false.
Proof.
  apply (GateReach.siblings_of_denied_are_refused "etc" "etera").
  - simpl. left. reflexivity.
  - reflexivity.
Defined.

(** Searching the working directory with the pattern [/etc/*]. *)
Lemma absolute_pattern_escapes_the_directory_witness :
  exists k,
    search_files (VDict [("directory", VStr "."); ("pattern", VStr "root");
                         ("file_pattern", VStr "/etc/*")])
    = Call (Glob "/etc/*" true) k.
Proof.
  apply (proj1 (@GateReach.absolute_pattern_escapes_the_directory environ libs
                  [("directory", VStr "."); ("pattern", VStr "root");
                   ("file_pattern", VStr "/etc/*")] (VStr ".") "/etc/*"
                  ltac:(vm_compute; reflexivity) ltac:(reflexivity)));
    reflexivity.
Defined.

Lemma first_five_matches_in_order_witness :
  search_content (VStr "a") "f.txt" ("a" +:+ newline +:+ "b" +:+ newline +:+ "A")
  = Ok [VDict [("file", VStr "f.txt");
               ("matches",
                VList (take 5 (matching_entries (lower "a")
                                 (split "010" ("a" +:+ newline +:+ "b"
                                               +:+ newline +:+ "A")))))]].
Proof.
  apply (MatchingFacts.first_five_matches_in_order "a" "f.txt"
           ("a" +:+ newline +:+ "b" +:+ newline +:+ "A")).
  vm_compute. reflexivity.
Defined.

Lemma reported_file_has_a_match_witness :
  exists m matches,
    search_content (VStr "a") "f.txt" ("b" +:+ newline +:+ "xAx")
    = Ok [VDict [("file", VStr "f.txt"); ("matches", VList (m :: matches))]].
Proof.
  apply (MatchingFacts.reported_file_has_a_match "a" "f.txt"
           ("b" +:+ newline +:+ "xAx")); vm_compute; reflexivity.
Defined.

(** Deleting [notes.txt] from the sample disk. *)
Lemma delete_regular_file_witness :
  exists d',
    exec (delete_file (VDict [("path", VStr "notes.txt")])) sample
    = (Ok (text_result ("Successfully deleted: " +:+ "notes.txt")), d')
    /\ d' !! ["home"; "user"; "work"; "notes.txt"] = None
    /\ (forall k', k' <> ["home"; "user"; "work"; "notes.txt"] -> d' !! k' = sample !! k')
    /\ exec (delete_file (VDict [("path", VStr "notes.txt")])) d'
       = (Ok (text_result ("Error deleting file: [Errno 2] No such file or directory: '"
                           +:+ "notes.txt" +:+ "'")), d').
Proof.
  apply (DiskMore.delete_regular_file [("path", VStr "notes.txt")] "notes.txt" sample
           ["home"; "user"; "work"; "notes.txt"] "remember" (some_meta 384));
    vm_compute; reflexivity.
Defined.

(** Writing [notes.txt] and reading it back, with a carriage return in the
    content. *)
Lemma write_then_read_witness :
  exists d' m,
    @on_disk environ plain_text _
      (write_file (VDict [("path", VStr "notes.txt");
                          ("content", VStr ("one" +:+ String "013" newline +:+ "two"))]))
      sample
    = (Ok (text_result ("Successfully written to file: " +:+ "notes.txt")), d')
    /\ d' !! ["home"; "user"; "work"; "notes.txt"]
       = Some (File ("one" +:+ String "013" newline +:+ "two") m)
    /\ (forall k', k' <> ["home"; "user"; "work"; "notes.txt"] -> d' !! k' = sample !! k')
    /\ @on_disk environ plain_text _ (read_file (VDict [("path", VStr "notes.txt")])) d'
       = (Ok (text_result
                (universal_newlines false ("one" +:+ String "013" newline +:+ "two"))),
          d').
Proof.
  apply (@TextFacts.write_then_read environ libs plain_text
           [("path", VStr "notes.txt");
            ("content", VStr ("one" +:+ String "013" newline +:+ "two"))]
           [("path", VStr "notes.txt")]
           "notes.txt" ("one" +:+ String "013" newline +:+ "two") "utf-8"
           ("one" +:+ String "013" newline +:+ "two") latin sample
           ["home"; "user"; "work"; "notes.txt"]);
    vm_compute; reflexivity.
Defined.

(** Writing a number to [notes.txt]. *)
Lemma failed_write_empties_the_file_witness :
  exists e,
    @on_disk environ plain_text _
      (write_file (VDict [("path", VStr "notes.txt"); ("content", VInt 5)])) sample
    = (Ok (text_result ("Error writing file: " +:+ exn_str e)),
       if flag [("path", VStr "notes.txt"); ("content", VInt 5)] "append" false
       then <[["home"; "user"; "work"; "notes.txt"] := File "remember" (some_meta 384)]>
              sample
       else <[["home"; "user"; "work"; "notes.txt"]
              := File "" (@touched plain_text (some_meta 384))]> sample).
Proof.
  apply (@TextFacts.failed_write_empties_the_file environ libs plain_text
           [("path", VStr "notes.txt"); ("content", VInt 5)]
           "notes.txt" "remember" "utf-8" (VInt 5) (some_meta 384) sample
           ["home"; "user"; "work"; "notes.txt"]);
    try (vm_compute; reflexivity).
  right. left. intros s. discriminate.
Defined.

(** Appending to [notes.txt]. *)
Lemma append_adds_at_the_end_witness :
  exists d' m,
    @on_disk environ plain_text _
      (write_file (VDict [("path", VStr "notes.txt"); ("content", VStr " more");
                          ("append", VBool true)])) sample
    = (Ok (text_result ("Successfully appended to file: " +:+ "notes.txt")), d')
    /\ d' !! ["home"; "user"; "work"; "notes.txt"]
       = Some (File (match sample !! ["home"; "user"; "work"; "notes.txt"] with
                     | Some (File old _) => old
                     | _ => ""
                     end +:+ " more") m)
    /\ (forall k', k' <> ["home"; "user"; "work"; "notes.txt"] -> d' !! k' = sample !! k').
Proof.
  apply (@TextFacts.append_adds_at_the_end environ libs plain_text
           [("path", VStr "notes.txt"); ("content", VStr " more");
            ("append", VBool true)]
           "notes.txt" " more" "utf-8" " more" latin sample
           ["home"; "user"; "work"; "notes.txt"]);
    vm_compute; reflexivity.
Defined.

(** Reading the picture with an encoding that is a number. *)
Lemma binary_files_ignore_the_encoding_witness :
  @on_disk environ plain_text _
    (read_file (VDict [("path", VStr "logo.png"); ("encoding", VInt 5)])) with_picture
  = (Ok (text_result ("Binary file (base64 encoded):" +:+ newline +:+ b64encode "PNG")),
     with_picture).
Proof.
  apply (@TextFacts.binary_files_ignore_the_encoding environ libs plain_text
           [("path", VStr "logo.png"); ("encoding", VInt 5)]
           "logo.png" "PNG" (some_meta 420) with_picture
           ["home"; "user"; "work"; "logo.png"]);
    vm_compute; reflexivity.
Defined.



Lemma max_links_zero_gives_one_link_witness :
  exists title content,
    finish (@scrape_url page_html (VStr "http://example.org") 100 0 VNone VNone) (Got page)
    = Returned (VDict [("url", VStr "http://example.org");
                       ("final_url", VStr "http://example.org");
                       ("status_code", VInt 200);
                       ("title", title);
                       ("content", content);
                       ("links", VList [VDict [("url", VStr "http://example.org/a");
                                               ("text", VStr (_clean_text "first"))]])]).
Proof.
  apply (@ScraperFacts.max_links_zero_gives_one_link page_html "http://example.org"
           100 0 VNone VNone page "first" "/a" "http://example.org/a"
           [("no  target", ""); ("third", "/c")]);
    try (vm_compute; reflexivity); discriminate.
Defined.

End MoreOnFixture.
